(** * Bus-transaction drivers of the SPI / QSPI Verilator testbenches

    Shallow embedding of the four C++ testbenches under [opencores/sim]:

    - [sim_chisel_spi.cpp]   (module [ChiselSpi]):  APB master, MOSI->MISO loopback
    - [sim_bitrev_spi.cpp]   (module [BitrevSpi]):  APB master, no loopback
    - [sim_spi_top.cpp]      (module [SpiTop]):     Wishbone master, loopback
    - [sim_qspi_psram.cpp]   (module [QspiPsram]):  APB master with cycle ceiling,
                                                    DPI-C PSRAM storage

    The Verilated device under test is not part of the sources: each module
    takes it as a [Model] (hidden state, an [eval] function over the input
    pins, and the output pins as observations of the hidden state).  The
    file-scope globals of each testbench ([dut], [tfp], [sim_time],
    [test_pass], [test_fail]) and the standard output are the fields of the
    module's [state] record.  Loops whose exit depends on the model
    ([do { tick(); } while (!ready)]) take a fuel argument and return [None]
    when it runs out. *)

From stdpp Require Import gmap strings.
From Stdlib Require Import ZArith List String Ascii Lia.
Import ListNotations.
Open Scope Z_scope.

(** ** C++ integer types and [printf] conversions *)

Module Cxx.

Definition wrap (bits : Z) (v : Z) : Z := v mod 2 ^ bits.
Definition to_uint8 : Z -> Z := wrap 8.
Definition to_uint32 : Z -> Z := wrap 32.
Definition to_uint64 : Z -> Z := wrap 64.

Definition INT_MAX : Z := 2147483647.
Definition INT_MIN : Z := -2147483648.

(** Conversion of an out-of-range value to a signed type of [bits] bits
    (two's complement, as every supported target does). *)
Definition to_signed (bits : Z) (v : Z) : Z :=
  let u := wrap bits v in
  if u <? 2 ^ (bits - 1) then u else u - 2 ^ bits.
Definition to_char : Z -> Z := to_signed 8.
Definition to_int : Z -> Z := to_signed 32.

Definition newline : string := String "010"%char EmptyString.

Definition digit_char (d : Z) : ascii :=
  if d <? 10 then ascii_of_nat (48 + Z.to_nat d)
  else ascii_of_nat (55 + Z.to_nat d).

(** Digits of [v] in [base], least significant first; [fuel] is the largest
    number of digits the C type can need. *)
Fixpoint digits_rev (base : Z) (fuel : nat) (v : Z) : list ascii :=
  match fuel with
  | O => []
  | S f =>
      digit_char (v mod base)
        :: (if v / base =? 0 then [] else digits_rev base f (v / base))
  end.

Definition pad_left (c : ascii) (width : nat) (l : list ascii) : list ascii :=
  List.repeat c (width - List.length l)%nat ++ l.

(** [%X], [%02X], [%03X], [%04X], [%08X] on an [unsigned int]. *)
Definition fmt_X (width : nat) (v : Z) : string :=
  string_of_list_ascii
    (pad_left "0"%char width (List.rev (digits_rev 16 8 (to_uint32 v)))).

(** [%5lu] on an [unsigned long]. *)
Definition fmt_lu (width : nat) (v : Z) : string :=
  string_of_list_ascii
    (pad_left " "%char width (List.rev (digits_rev 10 20 (to_uint64 v)))).

(** [%d] on an [int]. *)
Definition fmt_d (v : Z) : string :=
  let v := to_int v in
  if v <? 0
  then String "-"%char
         (string_of_list_ascii (List.rev (digits_rev 10 10 (- v))))
  else string_of_list_ascii (List.rev (digits_rev 10 10 v)).

(** [snprintf] into a buffer of [size] bytes keeps [size - 1] characters. *)
Definition snprintf (size : nat) (s : string) : string :=
  String.substring 0 (size - 1) s.

End Cxx.

(** Forward composition: [f ;> g] runs the statement [f], then [g]. *)
Definition seq {S : Type} (f g : S -> S) : S -> S := fun s => g (f s).
Infix ";>" := seq (at level 61, left associativity).

(** [for (int i = 0; i < n; i++) body;] for a literal [n]. *)
Fixpoint repeat_stmt {S : Type} (n : nat) (body : S -> S) (s : S) : S :=
  match n with
  | O => s
  | S k => repeat_stmt k body (body s)
  end.

(** Statements that may not return: [None] is "fuel exhausted". *)
Definition bind {S A B : Type}
    (c : S -> option (A * S)) (k : A -> S -> option (B * S))
    : S -> option (B * S) :=
  fun s => match c s with
           | Some (a, s') => k a s'
           | None => None
           end.
Definition ret {S A : Type} (a : A) : S -> option (A * S) := fun s => Some (a, s).
Definition exec {S : Type} (f : S -> S) : S -> option (unit * S) :=
  fun s => Some (tt, f s).
Definition run {S : Type} (c : S -> option S) : S -> option (unit * S) :=
  fun s => match c s with Some s' => Some (tt, s') | None => None end.
Definition gets {S A : Type} (f : S -> A) : S -> option (A * S) :=
  fun s => Some (f s, s).

Declare Scope prog_scope.
Delimit Scope prog_scope with prog.
Notation "x <- c ;; k" := (bind c (fun x => k))
  (at level 100, c at next level, right associativity) : prog_scope.
Notation "c ;; k" := (bind c (fun _ => k))
  (at level 100, right associativity) : prog_scope.

(** ** [sim_chisel_spi.cpp]: Chisel SPI master behind an APB port *)

Module ChiselSpi.

(** Register addresses and control register bits. *)
Definition ADDR_TX0 : Z := Z.shiftl 0 2.
Definition ADDR_TX1 : Z := Z.shiftl 1 2.
Definition ADDR_CTRL : Z := Z.shiftl 4 2.
Definition ADDR_DIVIDE : Z := Z.shiftl 5 2.
Definition ADDR_SS : Z := Z.shiftl 6 2.

Definition CTRL_GO : Z := Z.shiftl 1 8.
Definition CTRL_RX_NEG : Z := Z.shiftl 1 9.
Definition CTRL_TX_NEG : Z := Z.shiftl 1 10.
Definition CTRL_LSB : Z := Z.shiftl 1 11.
Definition CTRL_IE : Z := Z.shiftl 1 12.
Definition CTRL_ASS : Z := Z.shiftl 1 13.

(** Input ports of [VSPI] that the testbench assigns. *)
Record pins : Type := Pins {
  clock : Z; reset : Z; psel : Z; penable : Z; pwrite : Z;
  pstrb : Z; paddr : Z; pwdata : Z; misoPadI : Z }.

Definition set_clock (v : Z) (p : pins) : pins :=
  Pins v (reset p) (psel p) (penable p) (pwrite p) (pstrb p) (paddr p) (pwdata p) (misoPadI p).
Definition set_reset (v : Z) (p : pins) : pins :=
  Pins (clock p) v (psel p) (penable p) (pwrite p) (pstrb p) (paddr p) (pwdata p) (misoPadI p).
Definition set_psel (v : Z) (p : pins) : pins :=
  Pins (clock p) (reset p) v (penable p) (pwrite p) (pstrb p) (paddr p) (pwdata p) (misoPadI p).
Definition set_penable (v : Z) (p : pins) : pins :=
  Pins (clock p) (reset p) (psel p) v (pwrite p) (pstrb p) (paddr p) (pwdata p) (misoPadI p).
Definition set_pwrite (v : Z) (p : pins) : pins :=
  Pins (clock p) (reset p) (psel p) (penable p) v (pstrb p) (paddr p) (pwdata p) (misoPadI p).
Definition set_pstrb (v : Z) (p : pins) : pins :=
  Pins (clock p) (reset p) (psel p) (penable p) (pwrite p) v (paddr p) (pwdata p) (misoPadI p).
Definition set_paddr (v : Z) (p : pins) : pins :=
  Pins (clock p) (reset p) (psel p) (penable p) (pwrite p) (pstrb p) v (pwdata p) (misoPadI p).
Definition set_pwdata (v : Z) (p : pins) : pins :=
  Pins (clock p) (reset p) (psel p) (penable p) (pwrite p) (pstrb p) (paddr p) v (misoPadI p).
Definition set_misoPadI (v : Z) (p : pins) : pins :=
  Pins (clock p) (reset p) (psel p) (penable p) (pwrite p) (pstrb p) (paddr p) (pwdata p) v.

(** The Verilated model [VSPI]: what [new VSPI] yields, what [eval()] does
    to the hidden state under given inputs, and the output ports. *)
Record Model : Type := {
  mstate : Type;
  power_on : mstate;
  power_on_pins : pins;
  eval : pins -> mstate -> mstate;
  pready : mstate -> Z;
  prdata : mstate -> Z;
  mosiPadO : mstate -> Z }.

Section Testbench.
Context (mdl : Model).

(** What one [tfp->dump(t)] records. *)
Record sample : Type := Sample {
  at_time : Z; seen_pins : pins; seen_model : mstate mdl }.

(** The globals [dut], [tfp], [sim_time], [test_pass], [test_fail], and the
    lines written to standard output (one entry per [printf] call). *)
Record state : Type := State {
  dut_pins : pins;
  dut_model : mstate mdl;
  tfp : option (list sample);
  sim_time : Z;
  test_pass : Z;
  test_fail : Z;
  stdout : list string }.

Definition drive (f : pins -> pins) (s : state) : state :=
  State (f (dut_pins s)) (dut_model s) (tfp s) (sim_time s)
        (test_pass s) (test_fail s) (stdout s).

(** [dut->eval()] *)
Definition dut_eval (s : state) : state :=
  State (dut_pins s) (eval mdl (dut_pins s) (dut_model s)) (tfp s) (sim_time s)
        (test_pass s) (test_fail s) (stdout s).

(** [if (tfp) tfp->dump(sim_time++)]: with a sink attached the sample is
    appended and the counter stepped, otherwise nothing changes. *)
Definition dump (s : state) : state :=
  State (dut_pins s) (dut_model s)
        (match tfp s with
         | Some tr => Some (tr ++ [Sample (sim_time s) (dut_pins s) (dut_model s)])
         | None => None
         end)
        (match tfp s with
         | Some _ => Cxx.to_uint64 (sim_time s + 1)
         | None => sim_time s
         end)
        (test_pass s) (test_fail s) (stdout s).

Definition printf (line : string) (s : state) : state :=
  State (dut_pins s) (dut_model s) (tfp s) (sim_time s)
        (test_pass s) (test_fail s) (stdout s ++ [line]).

(** [test_pass++] and [test_fail++] (on [int]). *)
Definition incr_test_pass (s : state) : state :=
  State (dut_pins s) (dut_model s) (tfp s) (sim_time s)
        (test_pass s + 1) (test_fail s) (stdout s).
Definition incr_test_fail (s : state) : state :=
  State (dut_pins s) (dut_model s) (tfp s) (sim_time s)
        (test_pass s) (test_fail s + 1) (stdout s).

(** [dut->misoPadI = dut->mosiPadO] *)
Definition loopback (s : state) : state :=
  drive (set_misoPadI (mosiPadO mdl (dut_model s))) s.

Definition tick : state -> state :=
  (* Rising edge *)
  drive (set_clock 1) ;> loopback ;> dut_eval ;> dump ;>
  (* Falling edge *)
  drive (set_clock 0) ;> loopback ;> dut_eval ;> dump.

Definition do_reset : state -> state :=
  drive (set_reset 1) ;>
  drive (set_psel 0) ;>
  drive (set_penable 0) ;>
  drive (set_pwrite 0) ;>
  drive (set_pstrb 0) ;>
  drive (set_paddr 0) ;>
  drive (set_pwdata 0) ;>
  drive (set_misoPadI 0) ;>
  repeat_stmt 10 tick ;>
  drive (set_reset 0) ;>
  tick.

(** [do { tick(); } while (!dut->pready);] *)
Fixpoint wait_pready (fuel : nat) (s : state) : option state :=
  match fuel with
  | O => None
  | S f =>
      let s' := tick s in
      if pready mdl (dut_model s') =? 0 then wait_pready f s' else Some s'
  end.

Definition apb_write (fuel : nat) (addr data : Z) : state -> option (unit * state) :=
  (* SETUP phase: PSEL=1, PENABLE=0 *)
  (exec (drive (set_paddr addr) ;>
         drive (set_pwdata data) ;>
         drive (set_pstrb 0xF) ;>
         drive (set_pwrite 1) ;>
         drive (set_psel 1) ;>
         drive (set_penable 0) ;>
         tick ;>
  (* ACCESS phase: PENABLE=1, wait for PREADY *)
         drive (set_penable 1)) ;;
   run (wait_pready fuel) ;;
  (* IDLE phase: PSEL=0, PENABLE=0 *)
   exec (drive (set_psel 0) ;>
         drive (set_penable 0) ;>
         drive (set_pwrite 0) ;>
         tick))%prog.

Definition apb_read (fuel : nat) (addr : Z) : state -> option (Z * state) :=
  (exec (drive (set_paddr addr) ;>
         drive (set_pwrite 0) ;>
         drive (set_pstrb 0xF) ;>
         drive (set_psel 1) ;>
         drive (set_penable 0) ;>
         tick ;>
         drive (set_penable 1)) ;;
   run (wait_pready fuel) ;;
   data <- gets (fun s => prdata mdl (dut_model s)) ;;
   exec (drive (set_psel 0) ;>
         drive (set_penable 0) ;>
         tick) ;;
   ret data)%prog.

(** The parameters are [uint32_t]; [mask] defaults to [0xFFFFFFFF]. *)
Definition check (name : string) (expected actual mask : Z) : state -> state :=
  let actual := Z.land actual mask in
  let expected := Z.land expected mask in
  if actual =? expected then
    printf ("  PASS " ++ name ++ ": expected 0x" ++ Cxx.fmt_X 0 expected
              ++ ", got 0x" ++ Cxx.fmt_X 0 actual ++ Cxx.newline)%string ;>
    incr_test_pass
  else
    printf ("  FAIL " ++ name ++ ": expected 0x" ++ Cxx.fmt_X 0 expected
              ++ ", got 0x" ++ Cxx.fmt_X 0 actual ++ Cxx.newline)%string ;>
    incr_test_fail.

Definition spi_transfer (fuel : nat) (tx_data char_len divider : Z)
    : state -> option (Z * state) :=
  (apb_write fuel ADDR_DIVIDE divider ;;
   apb_write fuel ADDR_SS 0x01 ;;
   apb_write fuel ADDR_TX0 tx_data ;;
   let ctrl :=
     Z.lor (Z.lor (Z.lor (Z.land char_len 0x7F) CTRL_GO) CTRL_ASS) CTRL_TX_NEG in
   apb_write fuel ADDR_CTRL ctrl ;;
   apb_read fuel ADDR_TX0)%prog.

(** State at entry of [main]: the statics as initialised, [dut = new VSPI]
    and [tfp = new VerilatedVcdC] opened on the waveform file. *)
Definition initial_state : state :=
  State (power_on_pins mdl) (power_on mdl) (Some []) 0 0 0 [].

Definition banner : string :=
  "════════════════════════════════════════════════════" ++ Cxx.newline.

(** The value [main] returns: [test_fail > 0 ? 1 : 0]. *)
Definition exit_status (s : state) : Z :=
  if test_fail s >? 0 then 1 else 0.

Definition main_body (fuel : nat) : state -> option (Z * state) :=
  (exec (printf banner ;>
         printf ("  Chisel SPI Master (APB) - Verilator Simulation" ++ Cxx.newline) ;>
         printf (banner ++ Cxx.newline) ;>
         do_reset) ;;
   t <- gets sim_time ;;
   exec (printf ("[time " ++ Cxx.fmt_lu 5 t ++ "] reset done" ++ Cxx.newline ++ Cxx.newline) ;>
   (* Warmup transfer *)
         printf ("── Warmup: first transfer (post-reset) ──" ++ Cxx.newline)) ;;
   rx <- spi_transfer fuel 0xFF 8 4 ;;
   exec (printf ("  TX = 0xFF, RX = 0x" ++ Cxx.fmt_X 2 (Z.land rx 0xFF)
                   ++ " (initial offset expected)" ++ Cxx.newline ++ Cxx.newline) ;>
   (* Test 1: 8-bit loopback *)
         printf ("── Test 1: 8-bit loopback (TX=0xA5, div=4) ──" ++ Cxx.newline)) ;;
   rx <- spi_transfer fuel 0xA5 8 4 ;;
   exec (printf ("  TX = 0x" ++ Cxx.fmt_X 2 0xA5 ++ ", RX = 0x"
                   ++ Cxx.fmt_X 2 (Z.land rx 0xFF) ++ Cxx.newline) ;>
         check "8-bit loopback" 0xA5 rx 0xFF ;>
         printf Cxx.newline ;>
   (* Test 2: 16-bit loopback *)
         printf ("── Test 2: 16-bit loopback (TX=0xBEEF, div=4) ──" ++ Cxx.newline)) ;;
   rx <- spi_transfer fuel 0xBEEF 16 4 ;;
   exec (printf ("  TX = 0x" ++ Cxx.fmt_X 4 0xBEEF ++ ", RX = 0x"
                   ++ Cxx.fmt_X 4 (Z.land rx 0xFFFF) ++ Cxx.newline) ;>
         check "16-bit loopback" 0xBEEF rx 0xFFFF ;>
         printf Cxx.newline ;>
   (* Test 3: 32-bit loopback *)
         printf ("── Test 3: 32-bit loopback (TX=0xDEADBEEF, div=4) ──" ++ Cxx.newline)) ;;
   rx <- spi_transfer fuel 0xDEADBEEF 32 4 ;;
   exec (printf ("  TX = 0x" ++ Cxx.fmt_X 8 0xDEADBEEF ++ ", RX = 0x"
                   ++ Cxx.fmt_X 8 rx ++ Cxx.newline) ;>
         check "32-bit loopback" 0xDEADBEEF rx 0xFFFFFFFF ;>
         printf Cxx.newline ;>
   (* Test 4: Register read/write *)
         printf ("── Test 4: Register read/write ──" ++ Cxx.newline)) ;;
   apb_write fuel ADDR_DIVIDE 0x1234 ;;
   div <- apb_read fuel ADDR_DIVIDE ;;
   exec (check "DIVIDER register" 0x1234 div 0xFFFF) ;;
   apb_write fuel ADDR_SS 0xAB ;;
   ss <- apb_read fuel ADDR_SS ;;
   exec (check "SS register" 0xAB ss 0xFF ;>
         printf Cxx.newline ;>
   (* Extra cycles for waveform completeness *)
         repeat_stmt 20 tick ;>
   (* Summary *)
         printf banner) ;;
   np <- gets test_pass ;;
   nf <- gets test_fail ;;
   exec (printf ("  Results: " ++ Cxx.fmt_d np ++ " passed, " ++ Cxx.fmt_d nf
                   ++ " failed" ++ Cxx.newline) ;>
         printf ("  Waveform: build/chisel_spi.vcd" ++ Cxx.newline) ;>
         printf banner) ;;
   gets exit_status)%prog%string.

Definition main (fuel : nat) : option (Z * state) := main_body fuel initial_state.

End Testbench.

Arguments dut_pins {mdl} _.
Arguments dut_model {mdl} _.
Arguments tfp {mdl} _.
Arguments sim_time {mdl} _.
Arguments test_pass {mdl} _.
Arguments test_fail {mdl} _.
Arguments stdout {mdl} _.
Arguments at_time {mdl} _.
Arguments seen_pins {mdl} _.
Arguments seen_model {mdl} _.
Arguments tick mdl s : simpl never.

End ChiselSpi.

(** ** [sim_bitrev_spi.cpp]: SPI master wired to the bit-reversal slave *)

Module BitrevSpi.

Definition ADDR_TX0 : Z := Z.shiftl 0 2.
Definition ADDR_CTRL : Z := Z.shiftl 4 2.
Definition ADDR_DIVIDE : Z := Z.shiftl 5 2.
Definition ADDR_SS : Z := Z.shiftl 6 2.

Definition CTRL_GO : Z := Z.shiftl 1 8.
Definition CTRL_TX_NEG : Z := Z.shiftl 1 10.
Definition CTRL_ASS : Z := Z.shiftl 1 13.

(** Input ports of [VSPIBitRevTop] that the testbench assigns. *)
Record pins : Type := Pins {
  clock : Z; reset : Z; psel : Z; penable : Z; pwrite : Z;
  pstrb : Z; paddr : Z; pwdata : Z }.

Definition set_clock (v : Z) (p : pins) : pins :=
  Pins v (reset p) (psel p) (penable p) (pwrite p) (pstrb p) (paddr p) (pwdata p).
Definition set_reset (v : Z) (p : pins) : pins :=
  Pins (clock p) v (psel p) (penable p) (pwrite p) (pstrb p) (paddr p) (pwdata p).
Definition set_psel (v : Z) (p : pins) : pins :=
  Pins (clock p) (reset p) v (penable p) (pwrite p) (pstrb p) (paddr p) (pwdata p).
Definition set_penable (v : Z) (p : pins) : pins :=
  Pins (clock p) (reset p) (psel p) v (pwrite p) (pstrb p) (paddr p) (pwdata p).
Definition set_pwrite (v : Z) (p : pins) : pins :=
  Pins (clock p) (reset p) (psel p) (penable p) v (pstrb p) (paddr p) (pwdata p).
Definition set_pstrb (v : Z) (p : pins) : pins :=
  Pins (clock p) (reset p) (psel p) (penable p) (pwrite p) v (paddr p) (pwdata p).
Definition set_paddr (v : Z) (p : pins) : pins :=
  Pins (clock p) (reset p) (psel p) (penable p) (pwrite p) (pstrb p) v (pwdata p).
Definition set_pwdata (v : Z) (p : pins) : pins :=
  Pins (clock p) (reset p) (psel p) (penable p) (pwrite p) (pstrb p) (paddr p) v.

(** The Verilated model [VSPIBitRevTop]. *)
Record Model : Type := {
  mstate : Type;
  power_on : mstate;
  power_on_pins : pins;
  eval : pins -> mstate -> mstate;
  pready : mstate -> Z;
  prdata : mstate -> Z }.

Section Testbench.
Context (mdl : Model).

Record sample : Type := Sample {
  at_time : Z; seen_pins : pins; seen_model : mstate mdl }.

Record state : Type := State {
  dut_pins : pins;
  dut_model : mstate mdl;
  tfp : option (list sample);
  sim_time : Z;
  test_pass : Z;
  test_fail : Z;
  stdout : list string }.

Definition drive (f : pins -> pins) (s : state) : state :=
  State (f (dut_pins s)) (dut_model s) (tfp s) (sim_time s)
        (test_pass s) (test_fail s) (stdout s).

Definition dut_eval (s : state) : state :=
  State (dut_pins s) (eval mdl (dut_pins s) (dut_model s)) (tfp s) (sim_time s)
        (test_pass s) (test_fail s) (stdout s).

Definition dump (s : state) : state :=
  State (dut_pins s) (dut_model s)
        (match tfp s with
         | Some tr => Some (tr ++ [Sample (sim_time s) (dut_pins s) (dut_model s)])
         | None => None
         end)
        (match tfp s with
         | Some _ => Cxx.to_uint64 (sim_time s + 1)
         | None => sim_time s
         end)
        (test_pass s) (test_fail s) (stdout s).

Definition printf (line : string) (s : state) : state :=
  State (dut_pins s) (dut_model s) (tfp s) (sim_time s)
        (test_pass s) (test_fail s) (stdout s ++ [line]).

Definition incr_test_pass (s : state) : state :=
  State (dut_pins s) (dut_model s) (tfp s) (sim_time s)
        (test_pass s + 1) (test_fail s) (stdout s).
Definition incr_test_fail (s : state) : state :=
  State (dut_pins s) (dut_model s) (tfp s) (sim_time s)
        (test_pass s) (test_fail s + 1) (stdout s).

Definition tick : state -> state :=
  drive (set_clock 1) ;> dut_eval ;> dump ;>
  drive (set_clock 0) ;> dut_eval ;> dump.

Definition do_reset : state -> state :=
  drive (set_reset 1) ;>
  drive (set_psel 0) ;>
  drive (set_penable 0) ;>
  drive (set_pwrite 0) ;>
  drive (set_pstrb 0) ;>
  drive (set_paddr 0) ;>
  drive (set_pwdata 0) ;>
  repeat_stmt 10 tick ;>
  drive (set_reset 0) ;>
  tick.

(** [do { tick(); } while (!dut->pready);] *)
Fixpoint wait_pready (fuel : nat) (s : state) : option state :=
  match fuel with
  | O => None
  | S f =>
      let s' := tick s in
      if pready mdl (dut_model s') =? 0 then wait_pready f s' else Some s'
  end.

Definition apb_write (fuel : nat) (addr data : Z) : state -> option (unit * state) :=
  (* SETUP phase: PSEL=1, PENABLE=0 *)
  (exec (drive (set_paddr addr) ;>
         drive (set_pwdata data) ;>
         drive (set_pstrb 0xF) ;>
         drive (set_pwrite 1) ;>
         drive (set_psel 1) ;>
         drive (set_penable 0) ;>
         tick ;>
  (* ACCESS phase: PENABLE=1, wait for PREADY *)
         drive (set_penable 1)) ;;
   run (wait_pready fuel) ;;
  (* IDLE phase: PSEL=0, PENABLE=0 *)
   exec (drive (set_psel 0) ;>
         drive (set_penable 0) ;>
         drive (set_pwrite 0) ;>
         tick))%prog.

Definition apb_read (fuel : nat) (addr : Z) : state -> option (Z * state) :=
  (exec (drive (set_paddr addr) ;>
         drive (set_pwrite 0) ;>
         drive (set_pstrb 0xF) ;>
         drive (set_psel 1) ;>
         drive (set_penable 0) ;>
         tick ;>
         drive (set_penable 1)) ;;
   run (wait_pready fuel) ;;
   val <- gets (fun s => prdata mdl (dut_model s)) ;;
   exec (drive (set_psel 0) ;>
         drive (set_penable 0) ;>
         tick) ;;
   ret val)%prog.

Definition check (name : string) (expected actual mask : Z) : state -> state :=
  let actual := Z.land actual mask in
  let expected := Z.land expected mask in
  if actual =? expected then
    printf ("  PASS " ++ name ++ ": expected 0x" ++ Cxx.fmt_X 2 expected
              ++ ", got 0x" ++ Cxx.fmt_X 2 actual ++ Cxx.newline)%string ;>
    incr_test_pass
  else
    printf ("  FAIL " ++ name ++ ": expected 0x" ++ Cxx.fmt_X 2 expected
              ++ ", got 0x" ++ Cxx.fmt_X 2 actual ++ Cxx.newline)%string ;>
    incr_test_fail.

(** State at entry of [main]: the statics as initialised,
    [dut = new VSPIBitRevTop] and [tfp = new VerilatedVcdC]. *)
Definition initial_state : state :=
  State (power_on_pins mdl) (power_on mdl) (Some []) 0 0 0 [].

(** [bit_reverse(uint8_t b)]: each assignment converts back to [uint8_t]. *)
Definition bit_reverse (b : Z) : Z :=
  let b := Cxx.to_uint8
             (Z.lor (Z.shiftr (Z.land b 0xF0) 4) (Z.shiftl (Z.land b 0x0F) 4)) in
  let b := Cxx.to_uint8
             (Z.lor (Z.shiftr (Z.land b 0xCC) 2) (Z.shiftl (Z.land b 0x33) 2)) in
  let b := Cxx.to_uint8
             (Z.lor (Z.shiftr (Z.land b 0xAA) 1) (Z.shiftl (Z.land b 0x55) 1)) in
  b.

(** [bitrev_transfer(uint8_t tx_byte, uint32_t divider)]; the result is
    [uint8_t]. *)
Definition bitrev_transfer (fuel : nat) (tx_byte divider : Z)
    : state -> option (Z * state) :=
  (apb_write fuel ADDR_DIVIDE divider ;;
   apb_write fuel ADDR_SS 0x01 ;;
   apb_write fuel ADDR_TX0 (Cxx.to_uint32 (Z.shiftl tx_byte 8)) ;;
   let ctrl_base := Z.lor (Z.lor 16 CTRL_ASS) CTRL_TX_NEG in
   apb_write fuel ADDR_CTRL ctrl_base ;;
   apb_write fuel ADDR_CTRL (Z.lor ctrl_base CTRL_GO) ;;
   rx <- apb_read fuel ADDR_TX0 ;;
   ret (Cxx.to_uint8 (Z.land rx 0xFF)))%prog.

(** [for (const auto& x : l) body(x);] with a body that may not return. *)
Fixpoint for_each {A : Type} (l : list A)
    (body : A -> state -> option (unit * state))
    : state -> option (unit * state) :=
  match l with
  | [] => ret tt
  | x :: l' => (body x ;; for_each l' body)%prog
  end.

Definition banner : string :=
  "====================================================" ++ Cxx.newline.

Definition exit_status (s : state) : Z :=
  if test_fail s >? 0 then 1 else 0.

(** The array [tests] of [main]: the byte to send and the name of the case. *)
Definition tests : list (Z * string) :=
  [(0x53, "bitrev(0x53)"); (0xA5, "bitrev(0xA5)"); (0x01, "bitrev(0x01)");
   (0x80, "bitrev(0x80)"); (0xFF, "bitrev(0xFF)"); (0x00, "bitrev(0x00)");
   (0x0F, "bitrev(0x0F)"); (0x55, "bitrev(0x55)")]%string.

Definition main_body (fuel : nat) : state -> option (Z * state) :=
  (exec (printf banner ;>
         printf ("  SPI Master + BitRev Slave (Chisel wiring)" ++ Cxx.newline) ;>
         printf ("  Mode: CPOL=0, CPHA=0 (tx_neg=1, rx_neg=0)" ++ Cxx.newline) ;>
         printf (banner ++ Cxx.newline) ;>
         do_reset) ;;
   t <- gets sim_time ;;
   exec (printf ("[time " ++ Cxx.fmt_lu 5 t ++ "] reset done" ++ Cxx.newline ++ Cxx.newline) ;>
         printf ("-- Warmup: bitrev(0xFF), divider=4 --" ++ Cxx.newline)) ;;
   rx <- bitrev_transfer fuel 0xFF 0 ;;
   let exp := bit_reverse 0xFF in
   exec (printf ("  TX = 0xFF, RX = 0x" ++ Cxx.fmt_X 2 rx ++ " (expected 0x"
                   ++ Cxx.fmt_X 2 exp ++ ")" ++ Cxx.newline) ;>
         check "warmup bitrev(0xFF)" exp rx 0xFF ;>
         printf Cxx.newline) ;;
   for_each tests (fun tc =>
     let tx := fst tc in
     let name := snd tc in
     exec (printf ("-- Test: " ++ name ++ " --" ++ Cxx.newline)) ;;
     rx <- bitrev_transfer fuel tx 0 ;;
     let exp := bit_reverse tx in
     exec (printf ("  TX = 0x" ++ Cxx.fmt_X 2 tx ++ " -> reversed = 0x"
                     ++ Cxx.fmt_X 2 exp ++ ", RX = 0x" ++ Cxx.fmt_X 2 rx
                     ++ Cxx.newline) ;>
           check name exp rx 0xFF ;>
           printf Cxx.newline)) ;;
   exec (repeat_stmt 20 tick ;>
         printf banner) ;;
   np <- gets test_pass ;;
   nf <- gets test_fail ;;
   exec (printf ("  Results: " ++ Cxx.fmt_d np ++ " passed, " ++ Cxx.fmt_d nf
                   ++ " failed" ++ Cxx.newline) ;>
         printf ("  Waveform: build/bitrev_spi.vcd" ++ Cxx.newline) ;>
         printf banner) ;;
   gets exit_status)%prog%string.

Definition main (fuel : nat) : option (Z * state) := main_body fuel initial_state.

End Testbench.

Arguments dut_pins {mdl} _.
Arguments dut_model {mdl} _.
Arguments tfp {mdl} _.
Arguments sim_time {mdl} _.
Arguments test_pass {mdl} _.
Arguments test_fail {mdl} _.
Arguments stdout {mdl} _.
Arguments at_time {mdl} _.
Arguments seen_pins {mdl} _.
Arguments seen_model {mdl} _.
Arguments tick mdl s : simpl never.

End BitrevSpi.

(** ** [sim_spi_top.cpp]: OpenCores SPI master behind a Wishbone port *)

Module SpiTop.

Definition ADDR_TX0 : Z := Z.shiftl 0 2.
Definition ADDR_TX1 : Z := Z.shiftl 1 2.
Definition ADDR_CTRL : Z := Z.shiftl 4 2.
Definition ADDR_DIVIDE : Z := Z.shiftl 5 2.
Definition ADDR_SS : Z := Z.shiftl 6 2.

Definition CTRL_GO : Z := Z.shiftl 1 8.
Definition CTRL_RX_NEG : Z := Z.shiftl 1 9.
Definition CTRL_TX_NEG : Z := Z.shiftl 1 10.
Definition CTRL_LSB : Z := Z.shiftl 1 11.
Definition CTRL_IE : Z := Z.shiftl 1 12.
Definition CTRL_ASS : Z := Z.shiftl 1 13.

(** Input ports of [Vspi_top] that the testbench assigns. *)
Record pins : Type := Pins {
  wb_clk_i : Z; wb_rst_i : Z; wb_cyc_i : Z; wb_stb_i : Z; wb_we_i : Z;
  wb_sel_i : Z; wb_adr_i : Z; wb_dat_i : Z; miso_pad_i : Z }.

Definition set_wb_clk_i (v : Z) (p : pins) : pins :=
  Pins v (wb_rst_i p) (wb_cyc_i p) (wb_stb_i p) (wb_we_i p) (wb_sel_i p) (wb_adr_i p) (wb_dat_i p) (miso_pad_i p).
Definition set_wb_rst_i (v : Z) (p : pins) : pins :=
  Pins (wb_clk_i p) v (wb_cyc_i p) (wb_stb_i p) (wb_we_i p) (wb_sel_i p) (wb_adr_i p) (wb_dat_i p) (miso_pad_i p).
Definition set_wb_cyc_i (v : Z) (p : pins) : pins :=
  Pins (wb_clk_i p) (wb_rst_i p) v (wb_stb_i p) (wb_we_i p) (wb_sel_i p) (wb_adr_i p) (wb_dat_i p) (miso_pad_i p).
Definition set_wb_stb_i (v : Z) (p : pins) : pins :=
  Pins (wb_clk_i p) (wb_rst_i p) (wb_cyc_i p) v (wb_we_i p) (wb_sel_i p) (wb_adr_i p) (wb_dat_i p) (miso_pad_i p).
Definition set_wb_we_i (v : Z) (p : pins) : pins :=
  Pins (wb_clk_i p) (wb_rst_i p) (wb_cyc_i p) (wb_stb_i p) v (wb_sel_i p) (wb_adr_i p) (wb_dat_i p) (miso_pad_i p).
Definition set_wb_sel_i (v : Z) (p : pins) : pins :=
  Pins (wb_clk_i p) (wb_rst_i p) (wb_cyc_i p) (wb_stb_i p) (wb_we_i p) v (wb_adr_i p) (wb_dat_i p) (miso_pad_i p).
Definition set_wb_adr_i (v : Z) (p : pins) : pins :=
  Pins (wb_clk_i p) (wb_rst_i p) (wb_cyc_i p) (wb_stb_i p) (wb_we_i p) (wb_sel_i p) v (wb_dat_i p) (miso_pad_i p).
Definition set_wb_dat_i (v : Z) (p : pins) : pins :=
  Pins (wb_clk_i p) (wb_rst_i p) (wb_cyc_i p) (wb_stb_i p) (wb_we_i p) (wb_sel_i p) (wb_adr_i p) v (miso_pad_i p).
Definition set_miso_pad_i (v : Z) (p : pins) : pins :=
  Pins (wb_clk_i p) (wb_rst_i p) (wb_cyc_i p) (wb_stb_i p) (wb_we_i p) (wb_sel_i p) (wb_adr_i p) (wb_dat_i p) v.

(** The Verilated model [Vspi_top]. *)
Record Model : Type := {
  mstate : Type;
  power_on : mstate;
  power_on_pins : pins;
  eval : pins -> mstate -> mstate;
  wb_ack_o : mstate -> Z;
  wb_dat_o : mstate -> Z;
  mosi_pad_o : mstate -> Z }.

Section Testbench.
Context (mdl : Model).

Record sample : Type := Sample {
  at_time : Z; seen_pins : pins; seen_model : mstate mdl }.

Record state : Type := State {
  dut_pins : pins;
  dut_model : mstate mdl;
  tfp : option (list sample);
  sim_time : Z;
  test_pass : Z;
  test_fail : Z;
  stdout : list string }.

Definition drive (f : pins -> pins) (s : state) : state :=
  State (f (dut_pins s)) (dut_model s) (tfp s) (sim_time s)
        (test_pass s) (test_fail s) (stdout s).

Definition dut_eval (s : state) : state :=
  State (dut_pins s) (eval mdl (dut_pins s) (dut_model s)) (tfp s) (sim_time s)
        (test_pass s) (test_fail s) (stdout s).

Definition dump (s : state) : state :=
  State (dut_pins s) (dut_model s)
        (match tfp s with
         | Some tr => Some (tr ++ [Sample (sim_time s) (dut_pins s) (dut_model s)])
         | None => None
         end)
        (match tfp s with
         | Some _ => Cxx.to_uint64 (sim_time s + 1)
         | None => sim_time s
         end)
        (test_pass s) (test_fail s) (stdout s).

Definition printf (line : string) (s : state) : state :=
  State (dut_pins s) (dut_model s) (tfp s) (sim_time s)
        (test_pass s) (test_fail s) (stdout s ++ [line]).

Definition incr_test_pass (s : state) : state :=
  State (dut_pins s) (dut_model s) (tfp s) (sim_time s)
        (test_pass s + 1) (test_fail s) (stdout s).
Definition incr_test_fail (s : state) : state :=
  State (dut_pins s) (dut_model s) (tfp s) (sim_time s)
        (test_pass s) (test_fail s + 1) (stdout s).

(** [dut->miso_pad_i = dut->mosi_pad_o] *)
Definition loopback (s : state) : state :=
  drive (set_miso_pad_i (mosi_pad_o mdl (dut_model s))) s.

Definition tick : state -> state :=
  (* falling edge *)
  drive (set_wb_clk_i 0) ;> loopback ;> dut_eval ;> dump ;>
  (* rising edge *)
  drive (set_wb_clk_i 1) ;> loopback ;> dut_eval ;> dump.

Definition reset : state -> state :=
  drive (set_wb_rst_i 1) ;>
  drive (set_wb_cyc_i 0) ;>
  drive (set_wb_stb_i 0) ;>
  drive (set_wb_we_i 0) ;>
  drive (set_wb_sel_i 0) ;>
  drive (set_wb_adr_i 0) ;>
  drive (set_wb_dat_i 0) ;>
  drive (set_miso_pad_i 0) ;>
  repeat_stmt 10 tick ;>
  drive (set_wb_rst_i 0) ;>
  tick.

(** [do { tick(); } while (!dut->wb_ack_o);] *)
Fixpoint wait_ack (fuel : nat) (s : state) : option state :=
  match fuel with
  | O => None
  | S f =>
      let s' := tick s in
      if wb_ack_o mdl (dut_model s') =? 0 then wait_ack f s' else Some s'
  end.

Definition wb_write (fuel : nat) (addr data : Z) : state -> option (unit * state) :=
  (exec (drive (set_wb_adr_i addr) ;>
         drive (set_wb_dat_i data) ;>
         drive (set_wb_sel_i 0xF) ;>
         drive (set_wb_we_i 1) ;>
         drive (set_wb_stb_i 1) ;>
         drive (set_wb_cyc_i 1)) ;;
   run (wait_ack fuel) ;;
   exec (drive (set_wb_stb_i 0) ;>
         drive (set_wb_cyc_i 0) ;>
         drive (set_wb_we_i 0) ;>
         tick))%prog.

Definition wb_read (fuel : nat) (addr : Z) : state -> option (Z * state) :=
  (exec (drive (set_wb_adr_i addr) ;>
         drive (set_wb_sel_i 0xF) ;>
         drive (set_wb_we_i 0) ;>
         drive (set_wb_stb_i 1) ;>
         drive (set_wb_cyc_i 1)) ;;
   run (wait_ack fuel) ;;
   data <- gets (fun s => wb_dat_o mdl (dut_model s)) ;;
   exec (drive (set_wb_stb_i 0) ;>
         drive (set_wb_cyc_i 0) ;>
         tick) ;;
   ret data)%prog.

(** [while (timeout-- > 0) { ... }] followed by the error report.  [iters]
    is the fuel of this loop, [fuel] that of each [wb_read]; [timeout] is
    the [int] parameter (default [100000]). *)
Fixpoint wait_xfer_done_loop (iters fuel : nat) (timeout : Z)
    : state -> option (bool * state) :=
  match iters with
  | O => fun _ => None
  | S i =>
      if timeout >? 0 then
        (ctrl <- wb_read fuel ADDR_CTRL ;;
         if Z.land ctrl CTRL_GO =? 0 then ret true
         else wait_xfer_done_loop i fuel (timeout - 1))%prog
      else
        (exec (printf ("  ERROR: 传输超时!" ++ Cxx.newline)%string) ;;
         ret false)%prog
  end.

Definition wait_xfer_done (fuel : nat) (timeout : Z)
    : state -> option (bool * state) :=
  wait_xfer_done_loop fuel fuel timeout.

Definition check (name : string) (expected actual mask : Z) : state -> state :=
  let actual := Z.land actual mask in
  let expected := Z.land expected mask in
  if actual =? expected then
    printf ("  PASS " ++ name ++ ": 期望 0x" ++ Cxx.fmt_X 0 expected
              ++ ", 实际 0x" ++ Cxx.fmt_X 0 actual ++ Cxx.newline)%string ;>
    incr_test_pass
  else
    printf ("  FAIL " ++ name ++ ": 期望 0x" ++ Cxx.fmt_X 0 expected
              ++ ", 实际 0x" ++ Cxx.fmt_X 0 actual ++ Cxx.newline)%string ;>
    incr_test_fail.

(** [timeout] is left at its default in the only call. *)
Definition spi_transfer (fuel : nat) (tx_data char_len divider : Z)
    : state -> option (Z * state) :=
  (wb_write fuel ADDR_DIVIDE divider ;;
   wb_write fuel ADDR_SS 0x01 ;;
   wb_write fuel ADDR_TX0 tx_data ;;
   let ctrl :=
     Z.lor (Z.lor (Z.lor (Z.land char_len 0x7F) CTRL_GO) CTRL_ASS) CTRL_TX_NEG in
   wb_write fuel ADDR_CTRL ctrl ;;
   wait_xfer_done fuel 100000 ;;
   wb_read fuel ADDR_TX0)%prog.

(** State at entry of [main]: the statics as initialised,
    [dut = new Vspi_top] and [tfp = new VerilatedVcdC]. *)
Definition initial_state : state :=
  State (power_on_pins mdl) (power_on mdl) (Some []) 0 0 0 [].

Definition banner : string :=
  "════════════════════════════════════════════════════" ++ Cxx.newline.

Definition exit_status (s : state) : Z :=
  if test_fail s >? 0 then 1 else 0.

Definition main_body (fuel : nat) : state -> option (Z * state) :=
  (exec (printf banner ;>
         printf ("  OpenCores SPI Master - Verilator 仿真测试" ++ Cxx.newline) ;>
         printf (banner ++ Cxx.newline) ;>
         reset) ;;
   t <- gets sim_time ;;
   exec (printf ("[时刻 " ++ Cxx.fmt_lu 5 t ++ "] 复位完成" ++ Cxx.newline ++ Cxx.newline) ;>
         printf ("── 热身: 首次传输 (复位后) ──" ++ Cxx.newline)) ;;
   rx <- spi_transfer fuel 0xFF 8 2 ;;
   exec (printf ("  TX = 0xFF, RX = 0x" ++ Cxx.fmt_X 2 (Z.land rx 0xFF)
                   ++ " (回环初始态偏移属正常)" ++ Cxx.newline ++ Cxx.newline) ;>
         printf ("── 测试 1: 8 位回环 (TX=0xA5, 分频=2) ──" ++ Cxx.newline)) ;;
   rx <- spi_transfer fuel 0xA5 8 2 ;;
   exec (printf ("  TX = 0x" ++ Cxx.fmt_X 2 0xA5 ++ ", RX = 0x"
                   ++ Cxx.fmt_X 2 (Z.land rx 0xFF) ++ Cxx.newline) ;>
         check "8-bit loopback" 0xA5 rx 0xFF ;>
         printf Cxx.newline ;>
         printf ("── 测试 2: 16 位回环 (TX=0xBEEF, 分频=2) ──" ++ Cxx.newline)) ;;
   rx <- spi_transfer fuel 0xBEEF 16 2 ;;
   exec (printf ("  TX = 0x" ++ Cxx.fmt_X 4 0xBEEF ++ ", RX = 0x"
                   ++ Cxx.fmt_X 4 (Z.land rx 0xFFFF) ++ Cxx.newline) ;>
         check "16-bit loopback" 0xBEEF rx 0xFFFF ;>
         printf Cxx.newline ;>
         printf ("── 测试 3: 32 位回环 (TX=0xDEADBEEF, 分频=2) ──" ++ Cxx.newline)) ;;
   rx <- spi_transfer fuel 0xDEADBEEF 32 2 ;;
   exec (printf ("  TX = 0x" ++ Cxx.fmt_X 8 0xDEADBEEF ++ ", RX = 0x"
                   ++ Cxx.fmt_X 8 rx ++ Cxx.newline) ;>
         check "32-bit loopback" 0xDEADBEEF rx 0xFFFFFFFF ;>
         printf Cxx.newline ;>
         printf ("── 测试 4: 寄存器读写验证 ──" ++ Cxx.newline)) ;;
   wb_write fuel ADDR_DIVIDE 0x1234 ;;
   div <- wb_read fuel ADDR_DIVIDE ;;
   exec (check "DIVIDER 寄存器" 0x1234 div 0xFFFF) ;;
   wb_write fuel ADDR_SS 0xAB ;;
   ss <- wb_read fuel ADDR_SS ;;
   exec (check "SS 寄存器" 0xAB ss 0xFF ;>
         printf Cxx.newline ;>
         repeat_stmt 20 tick ;>
         printf banner) ;;
   np <- gets test_pass ;;
   nf <- gets test_fail ;;
   exec (printf ("  测试结果: " ++ Cxx.fmt_d np ++ " 通过, " ++ Cxx.fmt_d nf
                   ++ " 失败" ++ Cxx.newline) ;>
         printf ("  波形文件: build/opencores_spi.vcd" ++ Cxx.newline) ;>
         printf banner) ;;
   gets exit_status)%prog%string.

Definition main (fuel : nat) : option (Z * state) := main_body fuel initial_state.

End Testbench.

Arguments dut_pins {mdl} _.
Arguments dut_model {mdl} _.
Arguments tfp {mdl} _.
Arguments sim_time {mdl} _.
Arguments test_pass {mdl} _.
Arguments test_fail {mdl} _.
Arguments stdout {mdl} _.
Arguments at_time {mdl} _.
Arguments seen_pins {mdl} _.
Arguments seen_model {mdl} _.
Arguments tick mdl s : simpl never.

End SpiTop.

(** ** [sim_qspi_psram.cpp]: QSPI master with a PSRAM slave behind DPI-C *)

Module QspiPsram.

Definition MAX_CYCLES : Z := 500000.

(** Input ports of [VQSPIPSRAMTop] that the testbench assigns. *)
Record pins : Type := Pins {
  clock : Z; reset : Z; psel : Z; penable : Z; pwrite : Z;
  pstrb : Z; paddr : Z; pwdata : Z }.

Definition set_clock (v : Z) (p : pins) : pins :=
  Pins v (reset p) (psel p) (penable p) (pwrite p) (pstrb p) (paddr p) (pwdata p).
Definition set_reset (v : Z) (p : pins) : pins :=
  Pins (clock p) v (psel p) (penable p) (pwrite p) (pstrb p) (paddr p) (pwdata p).
Definition set_psel (v : Z) (p : pins) : pins :=
  Pins (clock p) (reset p) v (penable p) (pwrite p) (pstrb p) (paddr p) (pwdata p).
Definition set_penable (v : Z) (p : pins) : pins :=
  Pins (clock p) (reset p) (psel p) v (pwrite p) (pstrb p) (paddr p) (pwdata p).
Definition set_pwrite (v : Z) (p : pins) : pins :=
  Pins (clock p) (reset p) (psel p) (penable p) v (pstrb p) (paddr p) (pwdata p).
Definition set_pstrb (v : Z) (p : pins) : pins :=
  Pins (clock p) (reset p) (psel p) (penable p) (pwrite p) v (paddr p) (pwdata p).
Definition set_paddr (v : Z) (p : pins) : pins :=
  Pins (clock p) (reset p) (psel p) (penable p) (pwrite p) (pstrb p) v (pwdata p).
Definition set_pwdata (v : Z) (p : pins) : pins :=
  Pins (clock p) (reset p) (psel p) (penable p) (pwrite p) (pstrb p) (paddr p) v.

(** What one [eval()] of the model does with the two DPI-C imports: any
    finite interleaving of [psram_read] and [psram_write] calls, ending in
    the model's next hidden state. *)
Inductive dpi (A : Type) : Type :=
| DpiRet (a : A)
| DpiRead (addr : Z) (k : Z -> dpi A)
| DpiWrite (addr data : Z) (k : dpi A).
Arguments DpiRet {A} a.
Arguments DpiRead {A} addr k.
Arguments DpiWrite {A} addr data k.

(** The Verilated model [VQSPIPSRAMTop]. *)
Record Model : Type := {
  mstate : Type;
  power_on : mstate;
  power_on_pins : pins;
  eval : pins -> mstate -> dpi mstate;
  pready : mstate -> Z;
  prdata : mstate -> Z }.

Section Testbench.
Context (mdl : Model).

Record sample : Type := Sample {
  at_time : Z; seen_pins : pins; seen_model : mstate mdl }.

(** [psram_mem] is the 1 MB array: a cell that was never written reads 0. *)
Record state : Type := State {
  psram_mem : gmap Z Z;
  dut_pins : pins;
  dut_model : mstate mdl;
  tfp : option (list sample);
  sim_time : Z;
  test_pass : Z;
  test_fail : Z;
  stdout : list string }.

Definition mem_get (s : state) (a : Z) : Z := default 0 (psram_mem s !! a).

Definition mem_set (a v : Z) (s : state) : state :=
  State (<[a := v]> (psram_mem s)) (dut_pins s) (dut_model s) (tfp s)
        (sim_time s) (test_pass s) (test_fail s) (stdout s).

(** [memset(psram_mem, 0, sizeof(psram_mem))] *)
Definition mem_clear (s : state) : state :=
  State ∅ (dut_pins s) (dut_model s) (tfp s)
        (sim_time s) (test_pass s) (test_fail s) (stdout s).

Definition drive (f : pins -> pins) (s : state) : state :=
  State (psram_mem s) (f (dut_pins s)) (dut_model s) (tfp s) (sim_time s)
        (test_pass s) (test_fail s) (stdout s).

Definition set_model (m : mstate mdl) (s : state) : state :=
  State (psram_mem s) (dut_pins s) m (tfp s) (sim_time s)
        (test_pass s) (test_fail s) (stdout s).

Definition dump (s : state) : state :=
  State (psram_mem s) (dut_pins s) (dut_model s)
        (match tfp s with
         | Some tr => Some (tr ++ [Sample (sim_time s) (dut_pins s) (dut_model s)])
         | None => None
         end)
        (match tfp s with
         | Some _ => Cxx.to_uint64 (sim_time s + 1)
         | None => sim_time s
         end)
        (test_pass s) (test_fail s) (stdout s).

Definition printf (line : string) (s : state) : state :=
  State (psram_mem s) (dut_pins s) (dut_model s) (tfp s) (sim_time s)
        (test_pass s) (test_fail s) (stdout s ++ [line]).

Definition incr_test_pass (s : state) : state :=
  State (psram_mem s) (dut_pins s) (dut_model s) (tfp s) (sim_time s)
        (test_pass s + 1) (test_fail s) (stdout s).
Definition incr_test_fail (s : state) : state :=
  State (psram_mem s) (dut_pins s) (dut_model s) (tfp s) (sim_time s)
        (test_pass s) (test_fail s + 1) (stdout s).

(** [psram_read(int addr, char *data)]: the result is what is stored to
    [*data]. *)
Definition psram_read (addr : Z) (s : state) : Z :=
  let a := Z.land (Cxx.to_uint32 addr) 0xFFFFF in
  Cxx.to_char (mem_get s a).

(** [psram_write(int addr, char data)] *)
Definition psram_write (addr data : Z) : state -> state :=
  let a := Z.land (Cxx.to_uint32 addr) 0xFFFFF in
  mem_set a (Cxx.to_uint8 data) ;>
  (fun s => printf ("write@0x" ++ Cxx.fmt_X 3 a ++ ": "
                      ++ Cxx.fmt_X 2 (mem_get s a) ++ Cxx.newline)%string s).

Fixpoint run_dpi (p : dpi (mstate mdl)) (s : state) : state :=
  match p with
  | DpiRet m => set_model m s
  | DpiRead addr k => run_dpi (k (psram_read addr s)) s
  | DpiWrite addr data k => run_dpi k (psram_write addr data s)
  end.

(** [dut->eval()] *)
Definition dut_eval (s : state) : state :=
  run_dpi (eval mdl (dut_pins s) (dut_model s)) s.

Definition tick : state -> state :=
  drive (set_clock 1) ;> dut_eval ;> dump ;>
  drive (set_clock 0) ;> dut_eval ;> dump.

Definition do_reset : state -> state :=
  drive (set_reset 0) ;>
  drive (set_clock 0) ;>
  drive (set_psel 0) ;>
  drive (set_penable 0) ;>
  drive (set_pwrite 0) ;>
  drive (set_pstrb 0) ;>
  drive (set_paddr 0) ;>
  drive (set_pwdata 0) ;>
  dut_eval ;>
  drive (set_reset 1) ;>
  repeat_stmt 10 tick ;>
  drive (set_reset 0) ;>
  tick.

(** The wait loop of [apb_write] and [apb_read]:
    [do { tick(); if (++cycles > MAX_CYCLES) { printf(msg); leave; } }
     while (!dut->pready);]
    The result is [true] when the loop was left through the ceiling. *)
Fixpoint wait_pready (fuel : nat) (msg : string) (cycles : Z) (s : state)
    : option (bool * state) :=
  match fuel with
  | O => None
  | S f =>
      let s' := tick s in
      let cycles := cycles + 1 in
      if cycles >? MAX_CYCLES then Some (true, printf msg s')
      else if pready mdl (dut_model s') =? 0 then wait_pready f msg cycles s'
      else Some (false, s')
  end.

(** [strb] defaults to [0xF]. *)
Definition apb_write (fuel : nat) (addr data strb : Z)
    : state -> option (unit * state) :=
  (* SETUP phase *)
  (exec (drive (set_paddr addr) ;>
         drive (set_pwdata data) ;>
         drive (set_pstrb strb) ;>
         drive (set_pwrite 1) ;>
         drive (set_psel 1) ;>
         drive (set_penable 0) ;>
         tick ;>
  (* ACCESS phase *)
         drive (set_penable 1)) ;;
   (* on the ceiling: [break] *)
   wait_pready fuel ("  TIMEOUT: apb_write(0x" ++ Cxx.fmt_X 8 addr
                       ++ ") did not complete" ++ Cxx.newline)%string 0 ;;
  (* pready sampled high; hold penable one more cycle for done->idle *)
   exec (tick ;>
  (* IDLE phase *)
         drive (set_psel 0) ;>
         drive (set_penable 0) ;>
         drive (set_pwrite 0) ;>
         tick))%prog.

Definition apb_read (fuel : nat) (addr : Z) : state -> option (Z * state) :=
  (exec (drive (set_paddr addr) ;>
         drive (set_pwrite 0) ;>
         drive (set_pstrb 0xF) ;>
         drive (set_psel 1) ;>
         drive (set_penable 0) ;>
         tick ;>
         drive (set_penable 1)) ;;
   timed_out <- wait_pready fuel ("  TIMEOUT: apb_read(0x" ++ Cxx.fmt_X 8 addr
                                    ++ ") did not complete" ++ Cxx.newline)%string 0 ;;
   if timed_out : bool then
     (* on the ceiling: [return 0xDEADBEEF] *)
     ret 0xDEADBEEF
   else
     (val <- gets (fun s => prdata mdl (dut_model s)) ;;
      exec (tick ;>
            drive (set_psel 0) ;>
            drive (set_penable 0) ;>
            tick) ;;
      ret val))%prog.

(** [mask] defaults to [0xFFFFFFFF]. *)
Definition check (name : string) (expected actual mask : Z) : state -> state :=
  let actual := Z.land actual mask in
  let expected := Z.land expected mask in
  if actual =? expected then
    printf ("  PASS " ++ name ++ ": expected 0x" ++ Cxx.fmt_X 8 expected
              ++ ", got 0x" ++ Cxx.fmt_X 8 actual ++ Cxx.newline)%string ;>
    incr_test_pass
  else
    printf ("  FAIL " ++ name ++ ": expected 0x" ++ Cxx.fmt_X 8 expected
              ++ ", got 0x" ++ Cxx.fmt_X 8 actual ++ Cxx.newline)%string ;>
    incr_test_fail.

(** [for (int i = 0; i < n; i++) body(i);] with a body that may not return. *)
Fixpoint for_upto (n : nat) (i : Z) (body : Z -> state -> option (unit * state))
    : state -> option (unit * state) :=
  match n with
  | O => ret tt
  | S k => (body i ;; for_upto k (i + 1) body)%prog
  end.

Definition initial_state : state :=
  State ∅ (power_on_pins mdl) (power_on mdl) (Some []) 0 0 0 [].

Definition banner : string :=
  "====================================================" ++ Cxx.newline.

Definition exit_status (s : state) : Z :=
  if test_fail s >? 0 then 1 else 0.

Definition addrs : list Z := [0x400; 0x404; 0x408; 0x40C].
Definition vals : list Z := [0xDEADBEEF; 0xCAFEBABE; 0x12345678; 0xA5A5A5A5].
Definition at_index (l : list Z) (i : Z) : Z := nth (Z.to_nat i) l 0.

Definition main_body (fuel : nat) : state -> option (Z * state) :=
  (exec (mem_clear ;>
         printf banner ;>
         printf ("  QSPI Master + PSRAM Slave Simulation" ++ Cxx.newline) ;>
         printf ("  Memory-mapped transparent flash controller test" ++ Cxx.newline) ;>
         printf (banner ++ Cxx.newline) ;>
         do_reset) ;;
   t <- gets sim_time ;;
   exec (printf ("[time " ++ Cxx.fmt_lu 5 t ++ "] reset done" ++ Cxx.newline ++ Cxx.newline) ;>
   (* Test 1: Single byte writes + word read *)
         printf ("-- Test 1: Write individual bytes, read back as word --" ++ Cxx.newline)) ;;
   let base := 0x100 in
   apb_write fuel base 0x000000AA 0x1 ;;
   apb_write fuel base 0x0000BB00 0x2 ;;
   apb_write fuel base 0x00CC0000 0x4 ;;
   apb_write fuel base 0xDD000000 0x8 ;;
   exec (fun s => printf ("@0x" ++ Cxx.fmt_X 3 base ++ ": "
                   ++ Cxx.fmt_X 2 (mem_get s base) ++ " "
                   ++ Cxx.fmt_X 2 (mem_get s (base + 1)) ++ " "
                   ++ Cxx.fmt_X 2 (mem_get s (base + 2)) ++ " "
                   ++ Cxx.fmt_X 2 (mem_get s (base + 3)) ++ Cxx.newline) s) ;;
   rd <- apb_read fuel base ;;
   exec (check "byte writes → word read" 0xDDCCBBAA rd 0xFFFFFFFF ;>
         printf Cxx.newline ;>
   (* Test 2: Full word write + read *)
         printf ("-- Test 2: Full word write + read --" ++ Cxx.newline)) ;;
   let base := 0x200 in
   apb_write fuel base 0x04030201 0xF ;;
   rd <- apb_read fuel base ;;
   exec (check "word write/read" 0x04030201 rd 0xFFFFFFFF ;>
         printf Cxx.newline ;>
   (* Test 3: Half-word writes + word read *)
         printf ("-- Test 3: Half-word writes + word read --" ++ Cxx.newline)) ;;
   let base := 0x300 in
   apb_write fuel base 0x00002211 0x3 ;;
   apb_write fuel base 0x44330000 0xC ;;
   rd <- apb_read fuel base ;;
   exec (check "half-word writes -> word read" 0x44332211 rd 0xFFFFFFFF ;>
         printf Cxx.newline ;>
   (* Test 4: Multiple words write + read *)
         printf ("-- Test 4: Multiple word write/read at different addresses --"
                   ++ Cxx.newline)) ;;
   for_upto 4 0 (fun i => apb_write fuel (at_index addrs i) (at_index vals i) 0xF) ;;
   for_upto 4 0 (fun i =>
     rd <- apb_read fuel (at_index addrs i) ;;
     let name := Cxx.snprintf 64 ("multi-word[" ++ Cxx.fmt_d i ++ "] @0x"
                                    ++ Cxx.fmt_X 3 (at_index addrs i)) in
     exec (check name (at_index vals i) rd 0xFFFFFFFF)) ;;
   exec (printf Cxx.newline ;>
   (* Test 5: Overwrite and re-read *)
         printf ("-- Test 5: Overwrite existing data --" ++ Cxx.newline)) ;;
   let base := 0x200 in
   apb_write fuel base 0xFEDCBA98 0xF ;;
   rd <- apb_read fuel base ;;
   exec (check "overwrite word" 0xFEDCBA98 rd 0xFFFFFFFF ;>
         printf Cxx.newline ;>
   (* Test 6: Zero and all-ones *)
         printf ("-- Test 6: Edge cases (zero and all-ones) --" ++ Cxx.newline)) ;;
   let base := 0x500 in
   apb_write fuel base 0x00000000 0xF ;;
   rd0 <- apb_read fuel base ;;
   exec (check "write zero" 0x00000000 rd0 0xFFFFFFFF) ;;
   apb_write fuel base 0xFFFFFFFF 0xF ;;
   rd1 <- apb_read fuel base ;;
   exec (check "write all-ones" 0xFFFFFFFF rd1 0xFFFFFFFF ;>
         printf Cxx.newline ;>
   (* Cool-down *)
         repeat_stmt 20 tick ;>
         printf banner) ;;
   np <- gets test_pass ;;
   nf <- gets test_fail ;;
   exec (printf ("  Results: " ++ Cxx.fmt_d np ++ " passed, " ++ Cxx.fmt_d nf
                   ++ " failed" ++ Cxx.newline) ;>
         printf ("  Waveform: build/qspi_psram.vcd" ++ Cxx.newline) ;>
         printf banner) ;;
   gets exit_status)%prog%string.

Definition main (fuel : nat) : option (Z * state) := main_body fuel initial_state.

End Testbench.

Arguments psram_mem {mdl} _.
Arguments dut_pins {mdl} _.
Arguments dut_model {mdl} _.
Arguments tfp {mdl} _.
Arguments sim_time {mdl} _.
Arguments test_pass {mdl} _.
Arguments test_fail {mdl} _.
Arguments stdout {mdl} _.
Arguments at_time {mdl} _.
Arguments seen_pins {mdl} _.
Arguments seen_model {mdl} _.
Arguments tick mdl s : simpl never.

End QspiPsram.

(** ** Concrete device models

    Small executable stand-ins for the Verilated models, used to run the
    testbenches on concrete inputs. *)

Module Models.

(** A device that never raises [pready]. *)
Definition chisel_stuck : ChiselSpi.Model :=
  {| ChiselSpi.mstate := unit;
     ChiselSpi.power_on := tt;
     ChiselSpi.power_on_pins := ChiselSpi.Pins 0 0 0 0 0 0 0 0 0;
     ChiselSpi.eval := fun _ m => m;
     ChiselSpi.pready := fun _ => 0;
     ChiselSpi.prdata := fun _ => 0;
     ChiselSpi.mosiPadO := fun _ => 0 |}.

(** A device that is always ready and echoes the write data bus. *)
Definition chisel_echo : ChiselSpi.Model :=
  {| ChiselSpi.mstate := Z;
     ChiselSpi.power_on := 0;
     ChiselSpi.power_on_pins := ChiselSpi.Pins 0 0 0 0 0 0 0 0 0;
     ChiselSpi.eval := fun p _ => ChiselSpi.pwdata p;
     ChiselSpi.pready := fun _ => 1;
     ChiselSpi.prdata := fun m => m;
     ChiselSpi.mosiPadO := fun _ => 0 |}.

(** A device that never raises [pready]. *)
Definition bitrev_stuck : BitrevSpi.Model :=
  {| BitrevSpi.mstate := unit;
     BitrevSpi.power_on := tt;
     BitrevSpi.power_on_pins := BitrevSpi.Pins 0 0 0 0 0 0 0 0;
     BitrevSpi.eval := fun _ m => m;
     BitrevSpi.pready := fun _ => 0;
     BitrevSpi.prdata := fun _ => 0 |}.

(** A device that is always ready and echoes the write data bus. *)
Definition bitrev_echo : BitrevSpi.Model :=
  {| BitrevSpi.mstate := Z;
     BitrevSpi.power_on := 0;
     BitrevSpi.power_on_pins := BitrevSpi.Pins 0 0 0 0 0 0 0 0;
     BitrevSpi.eval := fun p _ => BitrevSpi.pwdata p;
     BitrevSpi.pready := fun _ => 1;
     BitrevSpi.prdata := fun m => m |}.

(** A Wishbone device that never acknowledges. *)
Definition spitop_stuck : SpiTop.Model :=
  {| SpiTop.mstate := unit;
     SpiTop.power_on := tt;
     SpiTop.power_on_pins := SpiTop.Pins 0 0 0 0 0 0 0 0 0;
     SpiTop.eval := fun _ m => m;
     SpiTop.wb_ack_o := fun _ => 0;
     SpiTop.wb_dat_o := fun _ => 0;
     SpiTop.mosi_pad_o := fun _ => 0 |}.

(** A Wishbone device that acknowledges at once and shows the GO bit set
    on its first [busy] reads, clear afterwards.  The hidden state is the
    number of reads served and the data bus. *)
Definition spitop_busy_eval (busy : Z) (p : SpiTop.pins) (m : Z * Z) : Z * Z :=
  if (SpiTop.wb_clk_i p =? 1) && (SpiTop.wb_cyc_i p =? 1)
     && (SpiTop.wb_stb_i p =? 1) && (SpiTop.wb_we_i p =? 0)
  then (fst m + 1, if fst m <? busy then SpiTop.CTRL_GO else 0)
  else m.

Definition spitop_busy (busy : Z) : SpiTop.Model :=
  {| SpiTop.mstate := Z * Z;
     SpiTop.power_on := (0, 0);
     SpiTop.power_on_pins := SpiTop.Pins 0 0 0 0 0 0 0 0 0;
     SpiTop.eval := spitop_busy_eval busy;
     SpiTop.wb_ack_o := fun _ => 1;
     SpiTop.wb_dat_o := snd;
     SpiTop.mosi_pad_o := fun _ => 0 |}.

(** A Wishbone device that acknowledges at once and always shows the GO
    bit set. *)
Definition spitop_always_busy : SpiTop.Model :=
  {| SpiTop.mstate := unit;
     SpiTop.power_on := tt;
     SpiTop.power_on_pins := SpiTop.Pins 0 0 0 0 0 0 0 0 0;
     SpiTop.eval := fun _ m => m;
     SpiTop.wb_ack_o := fun _ => 1;
     SpiTop.wb_dat_o := fun _ => SpiTop.CTRL_GO;
     SpiTop.mosi_pad_o := fun _ => 0 |}.

(** A QSPI device that never raises [pready]. *)
Definition qspi_stuck : QspiPsram.Model :=
  {| QspiPsram.mstate := unit;
     QspiPsram.power_on := tt;
     QspiPsram.power_on_pins := QspiPsram.Pins 0 0 0 0 0 0 0 0;
     QspiPsram.eval := fun _ m => QspiPsram.DpiRet m;
     QspiPsram.pready := fun _ => 0;
     QspiPsram.prdata := fun _ => 0 |}.

(** A zero-wait-state memory controller: on a rising edge of an access
    phase it stores the enabled byte lanes through [psram_write], or
    fetches the four bytes of the word through [psram_read] and latches
    them as read data. *)
Definition lane (word : Z) (i : Z) : Z := Z.land (Z.shiftr word (8 * i)) 0xFF.

Definition qspi_store_lane (p : QspiPsram.pins) (i : Z)
    (k : QspiPsram.dpi Z) : QspiPsram.dpi Z :=
  if Z.testbit (QspiPsram.pstrb p) i
  then QspiPsram.DpiWrite (QspiPsram.paddr p + i) (lane (QspiPsram.pwdata p) i) k
  else k.

Definition qspi_ideal_eval (p : QspiPsram.pins) (m : Z) : QspiPsram.dpi Z :=
  if (QspiPsram.clock p =? 1) && (QspiPsram.psel p =? 1)
     && (QspiPsram.penable p =? 1)
  then
    if QspiPsram.pwrite p =? 1
    then qspi_store_lane p 0 (qspi_store_lane p 1 (qspi_store_lane p 2
           (qspi_store_lane p 3 (QspiPsram.DpiRet m))))
    else
      let a := QspiPsram.paddr p in
      QspiPsram.DpiRead a (fun b0 =>
      QspiPsram.DpiRead (a + 1) (fun b1 =>
      QspiPsram.DpiRead (a + 2) (fun b2 =>
      QspiPsram.DpiRead (a + 3) (fun b3 =>
      QspiPsram.DpiRet
        (Cxx.to_uint8 b0 + Z.shiftl (Cxx.to_uint8 b1) 8
           + Z.shiftl (Cxx.to_uint8 b2) 16 + Z.shiftl (Cxx.to_uint8 b3) 24)))))
  else QspiPsram.DpiRet m.

Definition qspi_ideal : QspiPsram.Model :=
  {| QspiPsram.mstate := Z;
     QspiPsram.power_on := 0;
     QspiPsram.power_on_pins := QspiPsram.Pins 0 0 0 0 0 0 0 0;
     QspiPsram.eval := qspi_ideal_eval;
     QspiPsram.pready := fun _ => 1;
     QspiPsram.prdata := fun m => m |}.

(** The state of the testbench on [qspi_ideal] once the first word of
    test 4 has been written. *)
Definition qspi_ideal_written : QspiPsram.state qspi_ideal :=
  match QspiPsram.apb_write qspi_ideal 3 0x400 0xDEADBEEF 0xF
          (QspiPsram.initial_state qspi_ideal) with
  | Some (_, s) => s
  | None => QspiPsram.initial_state qspi_ideal
  end.

(** Devices whose latency depends on the direction: a write is answered
    after [latw] wait states and a read after [latr].  The hidden state is
    the number of rising edges seen in the current access phase and the
    ready (acknowledge) output. *)
Definition skewed_step (latw latr : Z) (active released write : bool)
    (m : Z * Z) : Z * Z :=
  if active then
    (fst m + 1, if (if write then latw else latr) <? fst m + 1 then 1 else 0)
  else if released then (0, 0)
  else m.

Definition chisel_skewed (latw latr : Z) : ChiselSpi.Model :=
  {| ChiselSpi.mstate := Z * Z;
     ChiselSpi.power_on := (0, 0);
     ChiselSpi.power_on_pins := ChiselSpi.Pins 0 0 0 0 0 0 0 0 0;
     ChiselSpi.eval := fun p =>
       skewed_step latw latr
         ((ChiselSpi.clock p =? 1) && (ChiselSpi.psel p =? 1)
          && (ChiselSpi.penable p =? 1))
         (ChiselSpi.penable p =? 0) (ChiselSpi.pwrite p =? 1);
     ChiselSpi.pready := snd;
     ChiselSpi.prdata := fun _ => 0;
     ChiselSpi.mosiPadO := fun _ => 0 |}.

Definition spitop_skewed (latw latr : Z) : SpiTop.Model :=
  {| SpiTop.mstate := Z * Z;
     SpiTop.power_on := (0, 0);
     SpiTop.power_on_pins := SpiTop.Pins 0 0 0 0 0 0 0 0 0;
     SpiTop.eval := fun p =>
       skewed_step latw latr
         ((SpiTop.wb_clk_i p =? 1) && (SpiTop.wb_cyc_i p =? 1)
          && (SpiTop.wb_stb_i p =? 1))
         (SpiTop.wb_stb_i p =? 0) (SpiTop.wb_we_i p =? 1);
     SpiTop.wb_ack_o := snd;
     SpiTop.wb_dat_o := fun _ => 0;
     SpiTop.mosi_pad_o := fun _ => 0 |}.

Definition qspi_skewed (latw latr : Z) : QspiPsram.Model :=
  {| QspiPsram.mstate := Z * Z;
     QspiPsram.power_on := (0, 0);
     QspiPsram.power_on_pins := QspiPsram.Pins 0 0 0 0 0 0 0 0;
     QspiPsram.eval := fun p m =>
       QspiPsram.DpiRet
         (skewed_step latw latr
            ((QspiPsram.clock p =? 1) && (QspiPsram.psel p =? 1)
             && (QspiPsram.penable p =? 1))
            (QspiPsram.penable p =? 0) (QspiPsram.pwrite p =? 1) m);
     QspiPsram.pready := snd;
     QspiPsram.prdata := fun _ => 0 |}.

End Models.


(** * Properties *)

(** ** Sequencing *)

Section Sequencing.
Context {S : Type}.

Lemma repeat_stmt_succ (n : nat) (body : S -> S) (s : S) :
  repeat_stmt (Datatypes.S n) body s = body (repeat_stmt n body s).
Proof.
  revert s. induction n as [|n IH]; intros s; [reflexivity|].
  change (repeat_stmt (Datatypes.S (Datatypes.S n)) body s)
    with (repeat_stmt (Datatypes.S n) body (body s)).
  rewrite IH. reflexivity.
Qed.

Lemma repeat_stmt_keeps (P : S -> Prop) (body : S -> S) :
  (forall s, P s -> P (body s)) ->
  forall n s, P s -> P (repeat_stmt n body s).
Proof.
  intros Hb n. induction n as [|n IH]; intros s Hs; simpl; auto.
Qed.

(** Partial correctness of a statement that may not return. *)
Definition hoare {A : Type} (P : S -> Prop) (c : S -> option (A * S))
    (Q : A -> S -> Prop) : Prop :=
  forall s a s', P s -> c s = Some (a, s') -> Q a s'.

Lemma hoare_bind {A B : Type} (P : S -> Prop) (Q : A -> S -> Prop)
    (R : B -> S -> Prop) c k :
  hoare P c Q -> (forall a, hoare (Q a) (k a) R) -> hoare P (bind c k) R.
Proof.
  intros Hc Hk s b s' HP. unfold bind.
  destruct (c s) as [[a s1]|] eqn:E; [|discriminate].
  intros Hrun. exact (Hk a s1 b s' (Hc s a s1 HP E) Hrun).
Qed.

Lemma hoare_ret {A : Type} (P : S -> Prop) (a : A) :
  hoare P (ret a) (fun r s => r = a /\ P s).
Proof. intros s r s' HP [= <- <-]. auto. Qed.

Lemma hoare_gets {A : Type} (P : S -> Prop) (f : S -> A) :
  hoare P (gets f) (fun r s => r = f s /\ P s).
Proof. intros s r s' HP [= <- <-]. auto. Qed.

Lemma hoare_exec (P Q : S -> Prop) (f : S -> S) :
  (forall s, P s -> Q (f s)) -> hoare P (exec f) (fun _ => Q).
Proof.
  intros Hf s r s' HP E. unfold exec in E. inversion E; subst. auto.
Qed.

Lemma hoare_run (P Q : S -> Prop) (c : S -> option S) :
  (forall s s', P s -> c s = Some s' -> Q s') -> hoare P (run c) (fun _ => Q).
Proof.
  intros Hc s r s' HP. unfold run.
  destruct (c s) as [s1|] eqn:E; [|discriminate].
  intros E'. inversion E'; subst. eauto.
Qed.

Lemma hoare_post {A : Type} (P : S -> Prop) (Q Q' : A -> S -> Prop) c :
  hoare P c Q -> (forall a s, Q a s -> Q' a s) -> hoare P c Q'.
Proof. intros Hc Hq s a s' HP E. eauto. Qed.

End Sequencing.

(** ** Facts about [sim_chisel_spi.cpp] *)

Module ChiselSpiFacts.
Import ChiselSpi.

Section Facts.
Context (mdl : Model).
Abbreviation state := (state mdl).
Abbreviation sample := (sample mdl).
Abbreviation tick := (tick mdl).

(** The two half periods of one [tick], spelled out. *)
Definition rising_pins (s : state) : pins :=
  set_misoPadI (mosiPadO mdl (dut_model s)) (set_clock 1 (dut_pins s)).
Definition after_rising (s : state) : mstate mdl :=
  eval mdl (rising_pins s) (dut_model s).
Definition falling_pins (s : state) : pins :=
  set_misoPadI (mosiPadO mdl (after_rising s)) (set_clock 0 (rising_pins s)).
Definition after_falling (s : state) : mstate mdl :=
  eval mdl (falling_pins s) (after_rising s).

Lemma chisel_tick_attached (s : state) (tr : list sample) :
  tfp s = Some tr ->
  tick s =
    State mdl (falling_pins s) (after_falling s)
      (Some ((tr ++ [Sample mdl (sim_time s) (rising_pins s) (after_rising s)])
               ++ [Sample mdl (Cxx.to_uint64 (sim_time s + 1))
                     (falling_pins s) (after_falling s)]))
      (Cxx.to_uint64 (Cxx.to_uint64 (sim_time s + 1) + 1))
      (test_pass s) (test_fail s) (stdout s).
Proof.
  destruct s as [p m t time np nf out]. cbn [tfp]. intros ->. reflexivity.
Qed.

Lemma chisel_tick_detached (s : state) :
  tfp s = None ->
  tick s =
    State mdl (falling_pins s) (after_falling s) None (sim_time s)
      (test_pass s) (test_fail s) (stdout s).
Proof.
  destruct s as [p m t time np nf out]. cbn [tfp]. intros ->. reflexivity.
Qed.

(** Two pin records agree on everything the bus master drives. *)
Definition same_bus (p q : pins) : Prop :=
  set_misoPadI 0 (set_clock 0 p) = set_misoPadI 0 (set_clock 0 q).

Lemma same_bus_refl p : same_bus p p.
Proof. reflexivity. Qed.

Lemma chisel_same_bus_trans p q r : same_bus p q -> same_bus q r -> same_bus p r.
Proof. unfold same_bus. congruence. Qed.

Lemma chisel_same_bus_fields p q :
  same_bus p q ->
  reset p = reset q /\ psel p = psel q /\ penable p = penable q /\
  pwrite p = pwrite q /\ pstrb p = pstrb q /\ paddr p = paddr q /\
  pwdata p = pwdata q.
Proof.
  unfold same_bus, set_misoPadI, set_clock. simpl. intros [= -> -> -> -> -> -> ->].
  repeat split.
Qed.

Lemma tick_counters (s : state) :
  test_pass (tick s) = test_pass s /\ test_fail (tick s) = test_fail s /\
  stdout (tick s) = stdout s.
Proof.
  destruct (tfp s) as [tr|] eqn:E.
  - rewrite (chisel_tick_attached s tr E). simpl. auto.
  - rewrite (chisel_tick_detached s E). simpl. auto.
Qed.

Lemma chisel_tick_bus (s : state) : same_bus (dut_pins (tick s)) (dut_pins s).
Proof.
  destruct (tfp s) as [tr|] eqn:E.
  - rewrite (chisel_tick_attached s tr E). reflexivity.
  - rewrite (chisel_tick_detached s E). reflexivity.
Qed.

Lemma chisel_tick_trace (s : state) (tr : list sample) :
  tfp s = Some tr ->
  exists a b,
    tfp (tick s) = Some (tr ++ [a; b]) /\
    same_bus (seen_pins a) (dut_pins s) /\ same_bus (seen_pins b) (dut_pins s).
Proof.
  intros E. rewrite (chisel_tick_attached s tr E). simpl.
  eexists _, _. rewrite <- app_assoc. simpl. split; [reflexivity|].
  split; reflexivity.
Qed.

Lemma chisel_ticks_bus (k : nat) (s : state) :
  same_bus (dut_pins (repeat_stmt k tick s)) (dut_pins s).
Proof.
  induction k as [|k IH]; [reflexivity|].
  rewrite repeat_stmt_succ.
  eapply chisel_same_bus_trans; [apply chisel_tick_bus | exact IH].
Qed.

Lemma chisel_ticks_trace (k : nat) (s : state) (tr : list sample) :
  tfp s = Some tr ->
  exists l,
    tfp (repeat_stmt k tick s) = Some (tr ++ l) /\
    List.length l = (2 * k)%nat /\
    Forall (fun x => same_bus (seen_pins x) (dut_pins s)) l.
Proof.
  intros E. induction k as [|k IH].
  - exists []. simpl. rewrite app_nil_r. auto.
  - destruct IH as (l & Hl & Hlen & Hall).
    rewrite repeat_stmt_succ.
    destruct (chisel_tick_trace _ _ Hl) as (a & b & Ht & Ha & Hb).
    exists (l ++ [a; b]). rewrite Ht, <- app_assoc. split; [reflexivity|].
    split.
    + rewrite length_app. simpl. lia.
    + apply Forall_app. split; [exact Hall|].
      pose proof (chisel_ticks_bus k s) as Hk.
      repeat constructor; eapply chisel_same_bus_trans; eauto.
Qed.

(** The wait loop leaves on the first edge after which [pready] reads
    nonzero. *)
Lemma chisel_wait_pready_first (n fuel : nat) (s : state) :
  (forall j, (1 <= j <= n)%nat ->
             pready mdl (dut_model (repeat_stmt j tick s)) = 0) ->
  pready mdl (dut_model (repeat_stmt (Datatypes.S n) tick s)) <> 0 ->
  (n < fuel)%nat ->
  wait_pready mdl fuel s = Some (repeat_stmt (Datatypes.S n) tick s).
Proof.
  revert fuel s. induction n as [|n IH]; intros fuel s Hlow Hhigh Hfuel.
  - destruct fuel as [|f]; [lia|]. cbn [wait_pready repeat_stmt] in *.
    destruct (Z.eqb_spec (pready mdl (dut_model (tick s))) 0); [contradiction|].
    reflexivity.
  - destruct fuel as [|f]; [lia|].
    cbn [wait_pready].
    pose proof (Hlow 1%nat ltac:(lia)) as H1. cbn [repeat_stmt] in H1. rewrite H1.
    rewrite Z.eqb_refl.
    change (repeat_stmt (Datatypes.S (Datatypes.S n)) tick s)
      with (repeat_stmt (Datatypes.S n) tick (tick s)).
    apply IH; [|exact Hhigh|lia].
    intros j Hj. apply (Hlow (Datatypes.S j)). lia.
Qed.

(** A device that never raises [pready] keeps the loop going for ever. *)
Lemma chisel_wait_pready_stuck (fuel : nat) (s : state) :
  (forall m, pready mdl m = 0) -> wait_pready mdl fuel s = None.
Proof.
  intros Hstuck. revert s. induction fuel as [|f IH]; intros s; [reflexivity|].
  cbn [wait_pready]. rewrite Hstuck, Z.eqb_refl. apply IH.
Qed.


(** *** The phases of an APB transfer *)

(** Pins as assigned in the SETUP phase of [apb_write] and [apb_read]. *)
Definition write_setup (addr data : Z) : state -> state :=
  drive mdl (set_paddr addr) ;> drive mdl (set_pwdata data) ;> drive mdl (set_pstrb 0xF) ;>
  drive mdl (set_pwrite 1) ;> drive mdl (set_psel 1) ;> drive mdl (set_penable 0).
Definition read_setup (addr : Z) : state -> state :=
  drive mdl (set_paddr addr) ;> drive mdl (set_pwrite 0) ;> drive mdl (set_pstrb 0xF) ;>
  drive mdl (set_psel 1) ;> drive mdl (set_penable 0).

(** State on entry of the wait loop: the setup edge is done and [penable]
    has been raised. *)
Definition access_entry (setup : state -> state) (s : state) : state :=
  drive mdl (set_penable 1) (tick (setup s)).

(** Pins as assigned in the IDLE phase. *)
Definition write_idle : state -> state :=
  drive mdl (set_psel 0) ;> drive mdl (set_penable 0) ;> drive mdl (set_pwrite 0).
Definition read_idle : state -> state :=
  drive mdl (set_psel 0) ;> drive mdl (set_penable 0).

Lemma chisel_apb_write_unfold fuel addr data (s : state) :
  apb_write mdl fuel addr data s =
    match wait_pready mdl fuel (access_entry (write_setup addr data) s) with
    | Some s2 => Some (tt, tick (write_idle s2))
    | None => None
    end.
Proof.
  unfold apb_write, bind, exec, run, access_entry, write_setup, write_idle, seq.
  destruct (wait_pready mdl fuel _); reflexivity.
Qed.

Lemma chisel_apb_read_unfold fuel addr (s : state) :
  apb_read mdl fuel addr s =
    match wait_pready mdl fuel (access_entry (read_setup addr) s) with
    | Some s2 => Some (prdata mdl (dut_model s2), tick (read_idle s2))
    | None => None
    end.
Proof.
  unfold apb_read, bind, exec, run, gets, ret, access_entry, read_setup,
    read_idle, seq.
  destruct (wait_pready mdl fuel _); reflexivity.
Qed.

(** What a trace sample shows on the request lines. *)
Definition bus_is (sel en : Z) (x : sample) : Prop :=
  psel (seen_pins x) = sel /\ penable (seen_pins x) = en.


(** *** [check] *)

Definition check_line (name : string) (expected actual mask : Z) : string :=
  ((if (Z.land actual mask =? Z.land expected mask)%Z then "  PASS " else "  FAIL ")
     ++ name ++ ": expected 0x" ++ Cxx.fmt_X 0 (Z.land expected mask)
     ++ ", got 0x" ++ Cxx.fmt_X 0 (Z.land actual mask) ++ Cxx.newline)%string.

Lemma chisel_check_effect name expected actual mask (s : state) :
  check mdl name expected actual mask s =
    State mdl (dut_pins s) (dut_model s) (tfp s) (sim_time s)
      (if Z.land actual mask =? Z.land expected mask
       then test_pass s + 1 else test_pass s)
      (if Z.land actual mask =? Z.land expected mask
       then test_fail s else test_fail s + 1)
      (stdout s ++ [check_line name expected actual mask]).
Proof.
  unfold check, check_line.
  destruct (Z.land actual mask =? Z.land expected mask); reflexivity.
Qed.

(** *** The fail counter never goes below zero *)

Definition fail_nonneg (s : state) : Prop := 0 <= test_fail s.

Lemma chisel_tick_fail_nonneg s : fail_nonneg s -> fail_nonneg (tick s).
Proof.
  unfold fail_nonneg. destruct (tick_counters s) as (_ & -> & _). auto.
Qed.

Lemma chisel_drive_fail_nonneg f s : fail_nonneg s -> fail_nonneg (drive mdl f s).
Proof. auto. Qed.

Lemma chisel_printf_fail_nonneg line s : fail_nonneg s -> fail_nonneg (printf mdl line s).
Proof. auto. Qed.

Lemma chisel_check_fail_nonneg name e a m s :
  fail_nonneg s -> fail_nonneg (check mdl name e a m s).
Proof.
  unfold fail_nonneg. rewrite chisel_check_effect. simpl.
  destruct (Z.land a m =? Z.land e m); lia.
Qed.

Lemma chisel_seq_fail_nonneg (f g : state -> state) :
  (forall s, fail_nonneg s -> fail_nonneg (f s)) ->
  (forall s, fail_nonneg s -> fail_nonneg (g s)) ->
  forall s, fail_nonneg s -> fail_nonneg ((f ;> g) s).
Proof. unfold seq. auto. Qed.

Lemma chisel_ticks_fail_nonneg n s : fail_nonneg s -> fail_nonneg (repeat_stmt n tick s).
Proof. apply repeat_stmt_keeps. exact chisel_tick_fail_nonneg. Qed.

Ltac keeps_fail_leaf :=
  first [ exact chisel_tick_fail_nonneg
        | exact (chisel_ticks_fail_nonneg _)
        | exact (chisel_drive_fail_nonneg _)
        | exact (chisel_printf_fail_nonneg _)
        | exact (chisel_check_fail_nonneg _ _ _ _) ].

Ltac keeps_fail_with leaf :=
  first [ leaf | apply chisel_seq_fail_nonneg; keeps_fail_with leaf ].

Lemma chisel_do_reset_fail_nonneg s : fail_nonneg s -> fail_nonneg (do_reset mdl s).
Proof. revert s. unfold do_reset. keeps_fail_with keeps_fail_leaf. Qed.

Lemma chisel_wait_pready_fail_nonneg fuel s s' :
  fail_nonneg s -> wait_pready mdl fuel s = Some s' -> fail_nonneg s'.
Proof.
  revert s. induction fuel as [|f IH]; intros s Hs; [discriminate|].
  cbn [wait_pready]. destruct (pready mdl (dut_model (tick s)) =? 0).
  - apply IH. apply chisel_tick_fail_nonneg. exact Hs.
  - intros [= <-]. apply chisel_tick_fail_nonneg. exact Hs.
Qed.

Lemma chisel_apb_write_fail_nonneg fuel addr data :
  hoare fail_nonneg (apb_write mdl fuel addr data) (fun _ => fail_nonneg).
Proof.
  intros s [] s' Hs. rewrite chisel_apb_write_unfold.
  destruct (wait_pready mdl fuel _) as [s2|] eqn:E; [|discriminate].
  intros [= <-]. apply chisel_tick_fail_nonneg.
  refine (chisel_wait_pready_fail_nonneg _ _ _ _ E).
  unfold access_entry. apply chisel_drive_fail_nonneg, chisel_tick_fail_nonneg. exact Hs.
Qed.

Lemma chisel_apb_read_fail_nonneg fuel addr :
  hoare fail_nonneg (apb_read mdl fuel addr) (fun _ => fail_nonneg).
Proof.
  intros s v s' Hs. rewrite chisel_apb_read_unfold.
  destruct (wait_pready mdl fuel _) as [s2|] eqn:E; [|discriminate].
  intros [= _ <-]. apply chisel_tick_fail_nonneg.
  refine (chisel_wait_pready_fail_nonneg _ _ _ _ E).
  unfold access_entry. apply chisel_drive_fail_nonneg, chisel_tick_fail_nonneg. exact Hs.
Qed.

Lemma spi_transfer_fail_nonneg fuel tx len div :
  hoare fail_nonneg (spi_transfer mdl fuel tx len div) (fun _ => fail_nonneg).
Proof.
  unfold spi_transfer.
  repeat (eapply hoare_bind; [apply chisel_apb_write_fail_nonneg | intros ?; cbv beta]).
  apply chisel_apb_read_fail_nonneg.
Qed.


Lemma chisel_gets_fail_nonneg {A : Type} (f : state -> A) :
  hoare fail_nonneg (gets f) (fun _ => fail_nonneg).
Proof. eapply hoare_post; [apply hoare_gets|]. intros a s [_ H]. exact H. Qed.

Ltac keeps_fail :=
  keeps_fail_with ltac:(first [ keeps_fail_leaf | exact chisel_do_reset_fail_nonneg ]).

Ltac main_step :=
  eapply hoare_bind;
  [ first [ apply (hoare_exec fail_nonneg fail_nonneg); keeps_fail
          | apply chisel_gets_fail_nonneg
          | apply spi_transfer_fail_nonneg
          | apply chisel_apb_write_fail_nonneg
          | apply chisel_apb_read_fail_nonneg ]
  | intros ?; cbv beta ].

(** [main] returns what [exit_status] computes from the final counters. *)
Lemma chisel_main_body_exit fuel :
  hoare fail_nonneg (main_body mdl fuel)
        (fun code s => code = exit_status mdl s /\ fail_nonneg s).
Proof.
  unfold main_body. cbv zeta.
  repeat main_step.
  apply hoare_gets.
Qed.

Lemma chisel_main_exit fuel code (s : state) :
  main mdl fuel = Some (code, s) ->
  code = exit_status mdl s /\ 0 <= test_fail s.
Proof.
  intros H. apply (chisel_main_body_exit fuel (initial_state mdl) code s); [|exact H].
  unfold fail_nonneg, initial_state. simpl. lia.
Qed.

(** *** With a device that is always ready every statement returns *)

Definition returns {A : Type} (c : state -> option (A * state)) : Prop :=
  forall s, exists r, c s = Some r.

Lemma chisel_returns_bind {A B : Type} (c : state -> option (A * state))
    (k : A -> state -> option (B * state)) :
  returns c -> (forall a, returns (k a)) -> returns (bind c k).
Proof.
  intros Hc Hk s. unfold bind. destruct (Hc s) as [[a s1] ->]. apply Hk.
Qed.

Lemma chisel_returns_exec (f : state -> state) : returns (exec f).
Proof. intros s. eexists. reflexivity. Qed.

Lemma chisel_returns_gets {A : Type} (f : state -> A) : returns (gets f).
Proof. intros s. eexists. reflexivity. Qed.

Lemma wait_pready_ready (fuel : nat) (s : state) :
  (forall m, pready mdl m <> 0) -> (0 < fuel)%nat ->
  wait_pready mdl fuel s = Some (tick s).
Proof.
  intros Hr Hf. destruct fuel as [|f]; [lia|]. cbn [wait_pready].
  destruct (Z.eqb_spec (pready mdl (dut_model (tick s))) 0) as [E|E];
    [exfalso; exact (Hr _ E)|reflexivity].
Qed.

Lemma chisel_apb_write_returns fuel addr data :
  (forall m, pready mdl m <> 0) -> (0 < fuel)%nat ->
  returns (apb_write mdl fuel addr data).
Proof.
  intros Hr Hf s. rewrite chisel_apb_write_unfold, wait_pready_ready by assumption.
  eauto.
Qed.

Lemma chisel_apb_read_returns fuel addr :
  (forall m, pready mdl m <> 0) -> (0 < fuel)%nat ->
  returns (apb_read mdl fuel addr).
Proof.
  intros Hr Hf s. rewrite chisel_apb_read_unfold, wait_pready_ready by assumption.
  eauto.
Qed.

Lemma chisel_main_returns fuel :
  (forall m, pready mdl m <> 0) -> (0 < fuel)%nat ->
  exists code s, main mdl fuel = Some (code, s).
Proof.
  intros Hr Hf.
  assert (H : returns (main_body mdl fuel)).
  { unfold main_body, spi_transfer. cbv zeta.
    repeat lazymatch goal with
      | |- returns (bind _ _) => apply chisel_returns_bind; [| intros ?]
      | |- returns (exec _) => apply chisel_returns_exec
      | |- returns (gets _) => apply chisel_returns_gets
      | |- returns (apb_write _ _ _ _) => apply chisel_apb_write_returns; assumption
      | |- returns (apb_read _ _ _) => apply chisel_apb_read_returns; assumption
      end. }
  destruct (H (initial_state mdl)) as [[code s] E]. exists code, s. exact E.
Qed.

End Facts.
End ChiselSpiFacts.

(** ** Facts about [sim_bitrev_spi.cpp] *)

Module BitrevSpiFacts.
Import BitrevSpi.

Section Facts.
Context (mdl : Model).
Abbreviation state := (state mdl).
Abbreviation sample := (sample mdl).
Abbreviation tick := (tick mdl).

Definition after_rising (s : state) : mstate mdl :=
  eval mdl (set_clock 1 (dut_pins s)) (dut_model s).
Definition after_falling (s : state) : mstate mdl :=
  eval mdl (set_clock 0 (dut_pins s)) (after_rising s).

Lemma bitrev_tick_attached (s : state) (tr : list sample) :
  tfp s = Some tr ->
  tick s =
    State mdl (set_clock 0 (dut_pins s)) (after_falling s)
      (Some ((tr ++ [Sample mdl (sim_time s) (set_clock 1 (dut_pins s))
                       (after_rising s)])
               ++ [Sample mdl (Cxx.to_uint64 (sim_time s + 1))
                     (set_clock 0 (dut_pins s)) (after_falling s)]))
      (Cxx.to_uint64 (Cxx.to_uint64 (sim_time s + 1) + 1))
      (test_pass s) (test_fail s) (stdout s).
Proof.
  destruct s as [p m t time np nf out]. cbn [tfp]. intros ->. reflexivity.
Qed.

Lemma bitrev_tick_detached (s : state) :
  tfp s = None ->
  tick s =
    State mdl (set_clock 0 (dut_pins s)) (after_falling s) None (sim_time s)
      (test_pass s) (test_fail s) (stdout s).
Proof.
  destruct s as [p m t time np nf out]. cbn [tfp]. intros ->. reflexivity.
Qed.

(** Two pin records agree on everything but the clock. *)
Definition same_bus (p q : pins) : Prop := set_clock 0 p = set_clock 0 q.

Lemma bitrev_same_bus_trans p q r : same_bus p q -> same_bus q r -> same_bus p r.
Proof. unfold same_bus. congruence. Qed.

Lemma bitrev_same_bus_fields p q :
  same_bus p q ->
  reset p = reset q /\ psel p = psel q /\ penable p = penable q /\
  pwrite p = pwrite q /\ pstrb p = pstrb q /\ paddr p = paddr q /\
  pwdata p = pwdata q.
Proof.
  unfold same_bus, set_clock. intros [= -> -> -> -> -> -> ->]. repeat split.
Qed.

Lemma bitrev_tick_bus (s : state) : same_bus (dut_pins (tick s)) (dut_pins s).
Proof.
  destruct (tfp s) as [tr|] eqn:E.
  - rewrite (bitrev_tick_attached s tr E). reflexivity.
  - rewrite (bitrev_tick_detached s E). reflexivity.
Qed.

Lemma bitrev_tick_trace (s : state) (tr : list sample) :
  tfp s = Some tr ->
  exists a b,
    tfp (tick s) = Some (tr ++ [a; b]) /\
    same_bus (seen_pins a) (dut_pins s) /\ same_bus (seen_pins b) (dut_pins s).
Proof.
  intros E. rewrite (bitrev_tick_attached s tr E). simpl.
  eexists _, _. rewrite <- app_assoc. simpl. split; [reflexivity|].
  split; reflexivity.
Qed.

Lemma bitrev_ticks_bus (k : nat) (s : state) :
  same_bus (dut_pins (repeat_stmt k tick s)) (dut_pins s).
Proof.
  induction k as [|k IH]; [reflexivity|].
  rewrite repeat_stmt_succ.
  eapply bitrev_same_bus_trans; [apply bitrev_tick_bus | exact IH].
Qed.

Lemma bitrev_ticks_trace (k : nat) (s : state) (tr : list sample) :
  tfp s = Some tr ->
  exists l,
    tfp (repeat_stmt k tick s) = Some (tr ++ l) /\
    List.length l = (2 * k)%nat /\
    Forall (fun x => same_bus (seen_pins x) (dut_pins s)) l.
Proof.
  intros E. induction k as [|k IH].
  - exists []. simpl. rewrite app_nil_r. auto.
  - destruct IH as (l & Hl & Hlen & Hall).
    rewrite repeat_stmt_succ.
    destruct (bitrev_tick_trace _ _ Hl) as (a & b & Ht & Ha & Hb).
    exists (l ++ [a; b]). rewrite Ht, <- app_assoc. split; [reflexivity|].
    split.
    + rewrite length_app. simpl. lia.
    + apply Forall_app. split; [exact Hall|].
      pose proof (bitrev_ticks_bus k s) as Hk.
      repeat constructor; eapply bitrev_same_bus_trans; eauto.
Qed.

(** A device that never raises [pready] keeps the loop going for ever. *)
Lemma bitrev_wait_pready_stuck (fuel : nat) (s : state) :
  (forall m, pready mdl m = 0) -> wait_pready mdl fuel s = None.
Proof.
  intros Hstuck. revert s. induction fuel as [|f IH]; intros s; [reflexivity|].
  cbn [wait_pready]. rewrite Hstuck, Z.eqb_refl. apply IH.
Qed.


Lemma bitrev_apb_read_stuck fuel addr (s : state) :
  (forall m, pready mdl m = 0) -> apb_read mdl fuel addr s = None.
Proof.
  intros Hstuck. unfold apb_read, bind, exec, run.
  rewrite bitrev_wait_pready_stuck by exact Hstuck. reflexivity.
Qed.

Definition check_line (name : string) (expected actual mask : Z) : string :=
  ((if (Z.land actual mask =? Z.land expected mask)%Z then "  PASS " else "  FAIL ")
     ++ name ++ ": expected 0x" ++ Cxx.fmt_X 2 (Z.land expected mask)
     ++ ", got 0x" ++ Cxx.fmt_X 2 (Z.land actual mask) ++ Cxx.newline)%string.

Lemma bitrev_check_effect name expected actual mask (s : state) :
  check mdl name expected actual mask s =
    State mdl (dut_pins s) (dut_model s) (tfp s) (sim_time s)
      (if Z.land actual mask =? Z.land expected mask
       then test_pass s + 1 else test_pass s)
      (if Z.land actual mask =? Z.land expected mask
       then test_fail s else test_fail s + 1)
      (stdout s ++ [check_line name expected actual mask]).
Proof.
  unfold check, check_line.
  destruct (Z.land actual mask =? Z.land expected mask); reflexivity.
Qed.

(** *** Reset *)

(** Pins as assigned at the top of [do_reset]. *)
Definition reset_drive : state -> state :=
  drive mdl (set_reset 1) ;> drive mdl (set_psel 0) ;> drive mdl (set_penable 0) ;>
  drive mdl (set_pwrite 0) ;> drive mdl (set_pstrb 0) ;> drive mdl (set_paddr 0) ;>
  drive mdl (set_pwdata 0).

(** What a sample shows when the request fields are clear and [reset] is
    at level [rst]. *)
Definition quiet_bus (rst : Z) (x : sample) : Prop :=
  let p := seen_pins x in
  reset p = rst /\ psel p = 0 /\ penable p = 0 /\ pwrite p = 0 /\
  pstrb p = 0 /\ paddr p = 0 /\ pwdata p = 0.

Lemma bitrev_same_bus_quiet rst c (x : sample) :
  same_bus (seen_pins x) (Pins c rst 0 0 0 0 0 0) -> quiet_bus rst x.
Proof.
  intros H. apply bitrev_same_bus_fields in H. simpl in H. exact H.
Qed.

Lemma do_reset_shape (s : state) (tr : list sample) :
  tfp s = Some tr ->
  do_reset mdl s =
    tick (drive mdl (set_reset 0) (repeat_stmt 10 tick (reset_drive s))) /\
  exists held released,
    tfp (do_reset mdl s) = Some (tr ++ held ++ released) /\
    List.length held = 20%nat /\ Forall (quiet_bus 1) held /\
    List.length released = 2%nat /\ Forall (quiet_bus 0) released /\
    same_bus (dut_pins (do_reset mdl s)) (Pins 0 0 0 0 0 0 0 0).
Proof.
  intros Htr.
  assert (Hdef : do_reset mdl s =
            tick (drive mdl (set_reset 0) (repeat_stmt 10 tick (reset_drive s))))
    by reflexivity.
  split; [exact Hdef|]. rewrite Hdef. clear Hdef.
  assert (H0 : tfp (reset_drive s) = Some tr) by exact Htr.
  destruct (bitrev_ticks_trace 10 _ _ H0) as (held & Hh & Hlen & Hall).
  pose proof (bitrev_ticks_bus 10 (reset_drive s)) as Hbus.
  revert Hh Hbus. generalize (repeat_stmt 10 tick (reset_drive s)).
  intros s1 Hh Hbus.
  assert (H1 : tfp (drive mdl (set_reset 0) s1) = Some (tr ++ held)) by exact Hh.
  destruct (bitrev_tick_trace _ _ H1) as (a & b & Ht & Ha & Hb).
  assert (Hrel : same_bus (dut_pins (drive mdl (set_reset 0) s1))
                          (Pins 0 0 0 0 0 0 0 0)).
  { destruct (bitrev_same_bus_fields _ _ Hbus) as (_ & Hps & Hpe & Hpw & Hst & Hpa & Hpd).
    cbn in Hps, Hpe, Hpw, Hst, Hpa, Hpd.
    unfold same_bus, drive, set_reset, set_clock.
    cbn [dut_pins clock reset psel penable pwrite pstrb paddr pwdata].
    congruence. }
  exists held, [a; b]. split; [rewrite Ht, <- app_assoc; reflexivity|].
  split; [exact Hlen|]. split.
  { eapply Forall_impl; [|exact Hall]. intros x Hx.
    eapply bitrev_same_bus_quiet with (c := clock (dut_pins s)). exact Hx. }
  split; [reflexivity|]. split.
  { repeat constructor; eapply bitrev_same_bus_quiet;
      eapply bitrev_same_bus_trans; eauto. }
  eapply bitrev_same_bus_trans; [apply bitrev_tick_bus | exact Hrel].
Qed.

End Facts.
End BitrevSpiFacts.

(** ** Facts about [sim_spi_top.cpp] *)

Module SpiTopFacts.
Import SpiTop.

Section Facts.
Context (mdl : Model).
Abbreviation state := (state mdl).
Abbreviation sample := (sample mdl).
Abbreviation tick := (tick mdl).

(** The two half periods of one [tick]: the clock goes low first. *)
Definition falling_pins (s : state) : pins :=
  set_miso_pad_i (mosi_pad_o mdl (dut_model s)) (set_wb_clk_i 0 (dut_pins s)).
Definition after_falling (s : state) : mstate mdl :=
  eval mdl (falling_pins s) (dut_model s).
Definition rising_pins (s : state) : pins :=
  set_miso_pad_i (mosi_pad_o mdl (after_falling s)) (set_wb_clk_i 1 (falling_pins s)).
Definition after_rising (s : state) : mstate mdl :=
  eval mdl (rising_pins s) (after_falling s).

Lemma spitop_tick_attached (s : state) (tr : list sample) :
  tfp s = Some tr ->
  tick s =
    State mdl (rising_pins s) (after_rising s)
      (Some ((tr ++ [Sample mdl (sim_time s) (falling_pins s) (after_falling s)])
               ++ [Sample mdl (Cxx.to_uint64 (sim_time s + 1))
                     (rising_pins s) (after_rising s)]))
      (Cxx.to_uint64 (Cxx.to_uint64 (sim_time s + 1) + 1))
      (test_pass s) (test_fail s) (stdout s).
Proof.
  destruct s as [p m t time np nf out]. cbn [tfp]. intros ->. reflexivity.
Qed.

Lemma spitop_tick_detached (s : state) :
  tfp s = None ->
  tick s =
    State mdl (rising_pins s) (after_rising s) None (sim_time s)
      (test_pass s) (test_fail s) (stdout s).
Proof.
  destruct s as [p m t time np nf out]. cbn [tfp]. intros ->. reflexivity.
Qed.

(** Two pin records agree on everything the bus master drives. *)
Definition same_bus (p q : pins) : Prop :=
  set_miso_pad_i 0 (set_wb_clk_i 0 p) = set_miso_pad_i 0 (set_wb_clk_i 0 q).

Lemma spitop_same_bus_trans p q r : same_bus p q -> same_bus q r -> same_bus p r.
Proof. unfold same_bus. congruence. Qed.

Lemma spitop_same_bus_fields p q :
  same_bus p q ->
  wb_rst_i p = wb_rst_i q /\ wb_cyc_i p = wb_cyc_i q /\ wb_stb_i p = wb_stb_i q /\
  wb_we_i p = wb_we_i q /\ wb_sel_i p = wb_sel_i q /\ wb_adr_i p = wb_adr_i q /\
  wb_dat_i p = wb_dat_i q.
Proof.
  unfold same_bus, set_miso_pad_i, set_wb_clk_i. simpl.
  intros [= -> -> -> -> -> -> ->]. repeat split.
Qed.

Lemma spitop_tick_bus (s : state) : same_bus (dut_pins (tick s)) (dut_pins s).
Proof.
  destruct (tfp s) as [tr|] eqn:E.
  - rewrite (spitop_tick_attached s tr E). reflexivity.
  - rewrite (spitop_tick_detached s E). reflexivity.
Qed.

Lemma tick_stdout (s : state) : stdout (tick s) = stdout s.
Proof.
  destruct (tfp s) as [tr|] eqn:E.
  - rewrite (spitop_tick_attached s tr E). reflexivity.
  - rewrite (spitop_tick_detached s E). reflexivity.
Qed.

Lemma spitop_tick_trace (s : state) (tr : list sample) :
  tfp s = Some tr ->
  exists a b,
    tfp (tick s) = Some (tr ++ [a; b]) /\
    same_bus (seen_pins a) (dut_pins s) /\ same_bus (seen_pins b) (dut_pins s).
Proof.
  intros E. rewrite (spitop_tick_attached s tr E). simpl.
  eexists _, _. rewrite <- app_assoc. simpl. split; [reflexivity|].
  split; reflexivity.
Qed.

Lemma spitop_ticks_bus (k : nat) (s : state) :
  same_bus (dut_pins (repeat_stmt k tick s)) (dut_pins s).
Proof.
  induction k as [|k IH]; [reflexivity|].
  rewrite repeat_stmt_succ.
  eapply spitop_same_bus_trans; [apply spitop_tick_bus | exact IH].
Qed.

Lemma spitop_ticks_trace (k : nat) (s : state) (tr : list sample) :
  tfp s = Some tr ->
  exists l,
    tfp (repeat_stmt k tick s) = Some (tr ++ l) /\
    List.length l = (2 * k)%nat /\
    Forall (fun x => same_bus (seen_pins x) (dut_pins s)) l.
Proof.
  intros E. induction k as [|k IH].
  - exists []. simpl. rewrite app_nil_r. auto.
  - destruct IH as (l & Hl & Hlen & Hall).
    rewrite repeat_stmt_succ.
    destruct (spitop_tick_trace _ _ Hl) as (a & b & Ht & Ha & Hb).
    exists (l ++ [a; b]). rewrite Ht, <- app_assoc. split; [reflexivity|].
    split.
    + rewrite length_app. simpl. lia.
    + apply Forall_app. split; [exact Hall|].
      pose proof (spitop_ticks_bus k s) as Hk.
      repeat constructor; eapply spitop_same_bus_trans; eauto.
Qed.

(** A device that never acknowledges keeps the loop going for ever. *)
Lemma wait_ack_stuck (fuel : nat) (s : state) :
  (forall m, wb_ack_o mdl m = 0) -> wait_ack mdl fuel s = None.
Proof.
  intros Hstuck. revert s. induction fuel as [|f IH]; intros s; [reflexivity|].
  cbn [wait_ack]. rewrite Hstuck, Z.eqb_refl. apply IH.
Qed.

Lemma wb_read_stuck fuel addr (s : state) :
  (forall m, wb_ack_o mdl m = 0) -> wb_read mdl fuel addr s = None.
Proof.
  intros Hstuck. unfold wb_read, bind, exec, run.
  rewrite wait_ack_stuck by exact Hstuck. reflexivity.
Qed.

Lemma wb_write_stuck fuel addr data (s : state) :
  (forall m, wb_ack_o mdl m = 0) -> wb_write mdl fuel addr data s = None.
Proof.
  intros Hstuck. unfold wb_write, bind, exec, run.
  rewrite wait_ack_stuck by exact Hstuck. reflexivity.
Qed.

(** A device that always acknowledges ends the wait on the first edge. *)
Lemma wb_read_acked fuel addr (s : state) :
  (forall m, wb_ack_o mdl m <> 0) -> (0 < fuel)%nat ->
  wb_read mdl fuel addr s <> None.
Proof.
  intros Hack Hfuel. destruct fuel as [|f]; [lia|].
  unfold wb_read, bind, exec, run. cbn [wait_ack].
  destruct (Z.eqb_spec (wb_ack_o mdl (dut_model (tick
    ((drive mdl (set_wb_adr_i addr) ;> drive mdl (set_wb_sel_i 0xF) ;>
      drive mdl (set_wb_we_i 0) ;> drive mdl (set_wb_stb_i 1) ;>
      drive mdl (set_wb_cyc_i 1)) s)))) 0) as [E|E].
  - exfalso. exact (Hack _ E).
  - discriminate.
Qed.

(** *** Reset *)

Definition reset_drive : state -> state :=
  drive mdl (set_wb_rst_i 1) ;> drive mdl (set_wb_cyc_i 0) ;>
  drive mdl (set_wb_stb_i 0) ;> drive mdl (set_wb_we_i 0) ;>
  drive mdl (set_wb_sel_i 0) ;> drive mdl (set_wb_adr_i 0) ;>
  drive mdl (set_wb_dat_i 0) ;> drive mdl (set_miso_pad_i 0).

Definition quiet_bus (rst : Z) (x : sample) : Prop :=
  let p := seen_pins x in
  wb_rst_i p = rst /\ wb_cyc_i p = 0 /\ wb_stb_i p = 0 /\ wb_we_i p = 0 /\
  wb_sel_i p = 0 /\ wb_adr_i p = 0 /\ wb_dat_i p = 0.

Lemma spitop_same_bus_quiet rst c m (x : sample) :
  same_bus (seen_pins x) (Pins c rst 0 0 0 0 0 0 m) -> quiet_bus rst x.
Proof.
  intros H. apply spitop_same_bus_fields in H. simpl in H. exact H.
Qed.

Lemma reset_shape (s : state) (tr : list sample) :
  tfp s = Some tr ->
  reset mdl s =
    tick (drive mdl (set_wb_rst_i 0) (repeat_stmt 10 tick (reset_drive s))) /\
  exists held released,
    tfp (reset mdl s) = Some (tr ++ held ++ released) /\
    List.length held = 20%nat /\ Forall (quiet_bus 1) held /\
    List.length released = 2%nat /\ Forall (quiet_bus 0) released /\
    same_bus (dut_pins (reset mdl s)) (Pins 0 0 0 0 0 0 0 0 0).
Proof.
  intros Htr.
  assert (Hdef : reset mdl s =
            tick (drive mdl (set_wb_rst_i 0) (repeat_stmt 10 tick (reset_drive s))))
    by reflexivity.
  split; [exact Hdef|]. rewrite Hdef. clear Hdef.
  assert (H0 : tfp (reset_drive s) = Some tr) by exact Htr.
  destruct (spitop_ticks_trace 10 _ _ H0) as (held & Hh & Hlen & Hall).
  pose proof (spitop_ticks_bus 10 (reset_drive s)) as Hbus.
  revert Hh Hbus. generalize (repeat_stmt 10 tick (reset_drive s)).
  intros s1 Hh Hbus.
  assert (H1 : tfp (drive mdl (set_wb_rst_i 0) s1) = Some (tr ++ held)) by exact Hh.
  destruct (spitop_tick_trace _ _ H1) as (a & b & Ht & Ha & Hb).
  assert (Hrel : same_bus (dut_pins (drive mdl (set_wb_rst_i 0) s1))
                          (Pins 0 0 0 0 0 0 0 0 0)).
  { destruct (spitop_same_bus_fields _ _ Hbus) as (_ & Hcy & Hsb & Hwe & Hse & Had & Hda).
    cbn in Hcy, Hsb, Hwe, Hse, Had, Hda.
    unfold same_bus, drive, set_wb_rst_i, set_wb_clk_i, set_miso_pad_i.
    cbn [dut_pins wb_clk_i wb_rst_i wb_cyc_i wb_stb_i wb_we_i wb_sel_i wb_adr_i
         wb_dat_i miso_pad_i].
    congruence. }
  exists held, [a; b]. split; [rewrite Ht, <- app_assoc; reflexivity|].
  split; [exact Hlen|]. split.
  { eapply Forall_impl; [|exact Hall]. intros x Hx.
    eapply spitop_same_bus_quiet with (c := wb_clk_i (dut_pins s)) (m := 0). exact Hx. }
  split; [reflexivity|]. split.
  { repeat constructor; eapply spitop_same_bus_quiet;
      eapply spitop_same_bus_trans; eauto. }
  eapply spitop_same_bus_trans; [apply spitop_tick_bus | exact Hrel].
Qed.

(** *** Polling the GO bit *)

(** [n] successive [wb_read(ADDR_CTRL)] calls and the words they return. *)
Fixpoint polls (fuel n : nat) : state -> option (list Z * state) :=
  match n with
  | O => ret []
  | Datatypes.S k =>
      (v <- wb_read mdl fuel ADDR_CTRL ;;
       vs <- polls fuel k ;;
       ret (v :: vs))%prog
  end.

Definition go_set (ctrl : Z) : Prop := Z.land ctrl CTRL_GO <> 0.
Definition go_clear (ctrl : Z) : Prop := Z.land ctrl CTRL_GO = 0.

Definition timeout_line : string := ("  ERROR: 传输超时!" ++ Cxx.newline)%string.

End Facts.
End SpiTopFacts.

(** ** Facts about [sim_qspi_psram.cpp] *)

Module QspiPsramFacts.
Import QspiPsram.

Section Facts.
Context (mdl : Model).
Abbreviation state := (state mdl).
Abbreviation sample := (sample mdl).
Abbreviation tick := (tick mdl).

(** *** What the DPI-C calls of an [eval()] leave alone *)

(** Everything of the testbench state that the model cannot reach. *)
Definition frame (s : state) : pins * option (list sample) * Z * Z * Z :=
  (dut_pins s, tfp s, sim_time s, test_pass s, test_fail s).

Lemma psram_write_frame addr data (s : state) :
  frame (psram_write mdl addr data s) = frame s.
Proof. reflexivity. Qed.

Lemma run_dpi_frame (p : dpi (mstate mdl)) (s : state) :
  frame (run_dpi mdl p s) = frame s.
Proof.
  revert s. induction p as [m | addr k IH | addr data k IH]; intros s; simpl.
  - reflexivity.
  - apply IH.
  - rewrite IH. apply psram_write_frame.
Qed.

Lemma dut_eval_frame (s : state) : frame (dut_eval mdl s) = frame s.
Proof. apply run_dpi_frame. Qed.

Lemma frame_eq (s : state) p t n a f :
  frame s = (p, t, n, a, f) ->
  dut_pins s = p /\ tfp s = t /\ sim_time s = n /\
  test_pass s = a /\ test_fail s = f.
Proof. unfold frame. intros [= ? ? ? ? ?]. auto. Qed.

(** One half period: drive the clock, evaluate, dump. *)
Definition half (lvl : Z) : state -> state :=
  drive mdl (set_clock lvl) ;> dut_eval mdl ;> dump mdl.

Lemma tick_halves (s : state) : tick s = half 0 (half 1 s).
Proof. reflexivity. Qed.

Lemma half_frame_attached lvl (s : state) (tr : list sample) :
  tfp s = Some tr ->
  frame (half lvl s) =
    (set_clock lvl (dut_pins s),
     Some (tr ++ [Sample mdl (sim_time s) (set_clock lvl (dut_pins s))
                    (dut_model (half lvl s))]),
     Cxx.to_uint64 (sim_time s + 1), test_pass s, test_fail s).
Proof.
  intros H. unfold half, seq.
  destruct (frame_eq _ _ _ _ _ _ (dut_eval_frame (drive mdl (set_clock lvl) s)))
    as (Fp & Ft & Fs & Fa & Ff).
  cbn [drive dut_pins tfp sim_time test_pass test_fail] in Fp, Ft, Fs, Fa, Ff.
  unfold frame, dump.
  cbn [dut_pins dut_model tfp sim_time test_pass test_fail].
  rewrite Fp, Ft, Fs, Fa, Ff, H. reflexivity.
Qed.

Lemma half_frame_detached lvl (s : state) :
  tfp s = None ->
  frame (half lvl s) =
    (set_clock lvl (dut_pins s), None, sim_time s, test_pass s, test_fail s).
Proof.
  intros H. unfold half, seq.
  destruct (frame_eq _ _ _ _ _ _ (dut_eval_frame (drive mdl (set_clock lvl) s)))
    as (Fp & Ft & Fs & Fa & Ff).
  cbn [drive dut_pins tfp sim_time test_pass test_fail] in Fp, Ft, Fs, Fa, Ff.
  unfold frame, dump.
  cbn [dut_pins dut_model tfp sim_time test_pass test_fail].
  rewrite Fp, Ft, Fs, Fa, Ff, H. reflexivity.
Qed.

(** Two pin records agree on everything but the clock. *)
Definition same_bus (p q : pins) : Prop := set_clock 0 p = set_clock 0 q.

Lemma qspi_same_bus_trans p q r : same_bus p q -> same_bus q r -> same_bus p r.
Proof. unfold same_bus. congruence. Qed.

Lemma qspi_same_bus_fields p q :
  same_bus p q ->
  reset p = reset q /\ psel p = psel q /\ penable p = penable q /\
  pwrite p = pwrite q /\ pstrb p = pstrb q /\ paddr p = paddr q /\
  pwdata p = pwdata q.
Proof.
  unfold same_bus, set_clock. intros [= -> -> -> -> -> -> ->]. repeat split.
Qed.

Lemma qspi_tick_attached (s : state) (tr : list sample) :
  tfp s = Some tr ->
  frame (tick s) =
    (set_clock 0 (dut_pins s),
     Some (tr ++ [Sample mdl (sim_time s) (set_clock 1 (dut_pins s))
                    (dut_model (half 1 s));
                  Sample mdl (Cxx.to_uint64 (sim_time s + 1))
                    (set_clock 0 (dut_pins s)) (dut_model (tick s))]),
     Cxx.to_uint64 (Cxx.to_uint64 (sim_time s + 1) + 1),
     test_pass s, test_fail s).
Proof.
  intros H. rewrite tick_halves.
  destruct (frame_eq _ _ _ _ _ _ (half_frame_attached 1 s tr H))
    as (Fp & Ft & Fs & Fa & Ff).
  rewrite (half_frame_attached 0 (half 1 s) _ Ft).
  rewrite Fp, Fs, Fa, Ff, <- app_assoc. reflexivity.
Qed.

Lemma qspi_tick_detached (s : state) :
  tfp s = None ->
  frame (tick s) =
    (set_clock 0 (dut_pins s), None, sim_time s, test_pass s, test_fail s).
Proof.
  intros H. rewrite tick_halves.
  destruct (frame_eq _ _ _ _ _ _ (half_frame_detached 1 s H))
    as (Fp & Ft & Fs & Fa & Ff).
  rewrite (half_frame_detached 0 (half 1 s) Ft).
  rewrite Fp, Fs, Fa, Ff. reflexivity.
Qed.

Lemma qspi_tick_bus (s : state) : same_bus (dut_pins (tick s)) (dut_pins s).
Proof.
  destruct (tfp s) as [tr|] eqn:E.
  - destruct (frame_eq _ _ _ _ _ _ (qspi_tick_attached s tr E)) as (-> & _).
    reflexivity.
  - destruct (frame_eq _ _ _ _ _ _ (qspi_tick_detached s E)) as (-> & _).
    reflexivity.
Qed.

Lemma tick_test_fail (s : state) : test_fail (tick s) = test_fail s.
Proof.
  destruct (tfp s) as [tr|] eqn:E.
  - destruct (frame_eq _ _ _ _ _ _ (qspi_tick_attached s tr E)) as (_ & _ & _ & _ & ->).
    reflexivity.
  - destruct (frame_eq _ _ _ _ _ _ (qspi_tick_detached s E)) as (_ & _ & _ & _ & ->).
    reflexivity.
Qed.

Lemma qspi_tick_trace (s : state) (tr : list sample) :
  tfp s = Some tr ->
  exists a b,
    tfp (tick s) = Some (tr ++ [a; b]) /\
    same_bus (seen_pins a) (dut_pins s) /\ same_bus (seen_pins b) (dut_pins s).
Proof.
  intros E.
  destruct (frame_eq _ _ _ _ _ _ (qspi_tick_attached s tr E)) as (_ & Ft & _).
  rewrite Ft.
  eexists _, _. split; [reflexivity|]. split; reflexivity.
Qed.

Lemma qspi_ticks_bus (k : nat) (s : state) :
  same_bus (dut_pins (repeat_stmt k tick s)) (dut_pins s).
Proof.
  induction k as [|k IH]; [reflexivity|].
  rewrite repeat_stmt_succ.
  eapply qspi_same_bus_trans; [apply qspi_tick_bus | exact IH].
Qed.

Lemma qspi_ticks_trace (k : nat) (s : state) (tr : list sample) :
  tfp s = Some tr ->
  exists l,
    tfp (repeat_stmt k tick s) = Some (tr ++ l) /\
    List.length l = (2 * k)%nat /\
    Forall (fun x => same_bus (seen_pins x) (dut_pins s)) l.
Proof.
  intros E. induction k as [|k IH].
  - exists []. simpl. rewrite app_nil_r. auto.
  - destruct IH as (l & Hl & Hlen & Hall).
    rewrite repeat_stmt_succ.
    destruct (qspi_tick_trace _ _ Hl) as (a & b & Ht & Ha & Hb).
    exists (l ++ [a; b]). rewrite Ht, <- app_assoc. split; [reflexivity|].
    split.
    + rewrite length_app. simpl. lia.
    + apply Forall_app. split; [exact Hall|].
      pose proof (qspi_ticks_bus k s) as Hk.
      repeat constructor; eapply qspi_same_bus_trans; eauto.
Qed.

(** *** The wait loop and its ceiling *)

(** With enough fuel for the ceiling the loop always ends. *)
Lemma wait_pready_returns (fuel : nat) (msg : string) (cycles : Z) (s : state) :
  (Z.to_nat (MAX_CYCLES + 1 - cycles) <= fuel)%nat -> cycles <= MAX_CYCLES ->
  exists r, wait_pready mdl fuel msg cycles s = Some r.
Proof.
  revert cycles s. induction fuel as [|f IH]; intros cycles s Hf Hc; [lia|].
  cbn [wait_pready].
  destruct (Z.gtb_spec (cycles + 1) MAX_CYCLES) as [Hgt|Hle]; [eauto|].
  destruct (pready mdl (dut_model (tick s)) =? 0); [|eauto].
  apply IH; lia.
Qed.

(** The loop leaves on the first edge after which [pready] reads nonzero,
    if that edge comes within the ceiling. *)
Lemma qspi_wait_pready_first (n fuel : nat) (msg : string) (cycles : Z) (s : state) :
  (forall j, (1 <= j <= n)%nat ->
             pready mdl (dut_model (repeat_stmt j tick s)) = 0) ->
  pready mdl (dut_model (repeat_stmt (Datatypes.S n) tick s)) <> 0 ->
  cycles + Z.of_nat (Datatypes.S n) <= MAX_CYCLES ->
  (n < fuel)%nat ->
  wait_pready mdl fuel msg cycles s
    = Some (false, repeat_stmt (Datatypes.S n) tick s).
Proof.
  revert fuel cycles s. induction n as [|n IH]; intros fuel cycles s Hlow Hhigh Hc Hfuel.
  - destruct fuel as [|f]; [lia|]. cbn [wait_pready]. cbn [repeat_stmt] in Hhigh.
    destruct (Z.gtb_spec (cycles + 1) MAX_CYCLES) as [Hgt|Hle]; [lia|].
    destruct (Z.eqb_spec (pready mdl (dut_model (tick s))) 0); [contradiction|].
    reflexivity.
  - destruct fuel as [|f]; [lia|]. cbn [wait_pready].
    destruct (Z.gtb_spec (cycles + 1) MAX_CYCLES) as [Hgt|Hle]; [lia|].
    pose proof (Hlow 1%nat ltac:(lia)) as H1. cbn [repeat_stmt] in H1. rewrite H1.
    rewrite Z.eqb_refl.
    change (repeat_stmt (Datatypes.S (Datatypes.S n)) tick s)
      with (repeat_stmt (Datatypes.S n) tick (tick s)).
    apply IH; [|exact Hhigh|lia|lia].
    intros j Hj. apply (Hlow (Datatypes.S j)). lia.
Qed.

(** A device that never raises [pready] is given up on the edge that takes
    [cycles] past [MAX_CYCLES]. *)
Lemma qspi_wait_pready_stuck (fuel : nat) (msg : string) (cycles : Z) (s : state) :
  (forall m, pready mdl m = 0) ->
  cycles <= MAX_CYCLES ->
  (Z.to_nat (MAX_CYCLES + 1 - cycles) <= fuel)%nat ->
  wait_pready mdl fuel msg cycles s
    = Some (true, printf mdl msg
                    (repeat_stmt (Z.to_nat (MAX_CYCLES + 1 - cycles)) tick s)).
Proof.
  intros Hstuck. revert cycles s.
  induction fuel as [|f IH]; intros cycles s Hc Hf; [lia|].
  cbn [wait_pready].
  destruct (Z.gtb_spec (cycles + 1) MAX_CYCLES) as [Hgt|Hle].
  - assert (cycles = MAX_CYCLES) as -> by lia.
    replace (MAX_CYCLES + 1 - MAX_CYCLES) with 1 by lia. reflexivity.
  - rewrite Hstuck. rewrite Z.eqb_refl.
    rewrite IH by lia.
    replace (Z.to_nat (MAX_CYCLES + 1 - cycles))
      with (Datatypes.S (Z.to_nat (MAX_CYCLES + 1 - (cycles + 1)))) by lia.
    reflexivity.
Qed.


(** *** The phases of an APB transfer *)

Definition write_setup (addr data strb : Z) : state -> state :=
  drive mdl (set_paddr addr) ;> drive mdl (set_pwdata data) ;>
  drive mdl (set_pstrb strb) ;> drive mdl (set_pwrite 1) ;>
  drive mdl (set_psel 1) ;> drive mdl (set_penable 0).
Definition read_setup (addr : Z) : state -> state :=
  drive mdl (set_paddr addr) ;> drive mdl (set_pwrite 0) ;>
  drive mdl (set_pstrb 0xF) ;> drive mdl (set_psel 1) ;>
  drive mdl (set_penable 0).

(** State on entry of the wait loop. *)
Definition access_entry (setup : state -> state) (s : state) : state :=
  drive mdl (set_penable 1) (tick (setup s)).

Definition write_idle : state -> state :=
  drive mdl (set_psel 0) ;> drive mdl (set_penable 0) ;> drive mdl (set_pwrite 0).
Definition read_idle : state -> state :=
  drive mdl (set_psel 0) ;> drive mdl (set_penable 0).

Definition write_timeout_line (addr : Z) : string :=
  ("  TIMEOUT: apb_write(0x" ++ Cxx.fmt_X 8 addr ++ ") did not complete"
     ++ Cxx.newline)%string.
Definition read_timeout_line (addr : Z) : string :=
  ("  TIMEOUT: apb_read(0x" ++ Cxx.fmt_X 8 addr ++ ") did not complete"
     ++ Cxx.newline)%string.

Lemma qspi_apb_write_unfold fuel addr data strb (s : state) :
  apb_write mdl fuel addr data strb s =
    match wait_pready mdl fuel (write_timeout_line addr) 0
            (access_entry (write_setup addr data strb) s) with
    | Some (_, s2) => Some (tt, tick (write_idle (tick s2)))
    | None => None
    end.
Proof.
  unfold apb_write, bind, exec, access_entry, write_setup, write_idle, seq,
    write_timeout_line.
  destruct (wait_pready mdl fuel _ 0 _) as [[b s2]|]; reflexivity.
Qed.

Lemma qspi_apb_read_unfold fuel addr (s : state) :
  apb_read mdl fuel addr s =
    match wait_pready mdl fuel (read_timeout_line addr) 0
            (access_entry (read_setup addr) s) with
    | Some (true, s2) => Some (0xDEADBEEF, s2)
    | Some (false, s2) =>
        Some (prdata mdl (dut_model s2), tick (read_idle (tick s2)))
    | None => None
    end.
Proof.
  unfold apb_read, bind, exec, gets, ret, access_entry, read_setup, read_idle,
    seq, read_timeout_line.
  destruct (wait_pready mdl fuel _ 0 _) as [[[] s2]|]; reflexivity.
Qed.

Definition bus_is (sel en : Z) (x : sample) : Prop :=
  psel (seen_pins x) = sel /\ penable (seen_pins x) = en.

(** The shape of a transfer that sees [pready] after [n] wait states:
    setup edge, [n + 1] access edges, one hold edge with the request still
    up, idle edge. *)
Lemma qspi_transfer_shape (setup idle : state -> state) (n fuel : nat) (msg : string)
    (s : state) (tr : list sample) :
  tfp (setup s) = Some tr ->
  psel (dut_pins (setup s)) = 1 -> penable (dut_pins (setup s)) = 0 ->
  (forall s2, tfp (idle s2) = tfp s2) ->
  (forall s2, psel (dut_pins (idle s2)) = 0 /\ penable (dut_pins (idle s2)) = 0) ->
  (forall j, (1 <= j <= n)%nat ->
     pready mdl (dut_model (repeat_stmt j tick (access_entry setup s))) = 0) ->
  pready mdl (dut_model (repeat_stmt (Datatypes.S n) tick (access_entry setup s))) <> 0 ->
  Z.of_nat (Datatypes.S n) <= MAX_CYCLES ->
  (n < fuel)%nat ->
  let s2 := repeat_stmt (Datatypes.S n) tick (access_entry setup s) in
  wait_pready mdl fuel msg 0 (access_entry setup s) = Some (false, s2) /\
  exists ph_setup ph_access ph_hold ph_idle,
    tfp (tick (idle (tick s2)))
      = Some (tr ++ ph_setup ++ ph_access ++ ph_hold ++ ph_idle) /\
    List.length ph_setup = 2%nat /\ Forall (bus_is 1 0) ph_setup /\
    List.length ph_access = (2 * Datatypes.S n)%nat /\ Forall (bus_is 1 1) ph_access /\
    List.length ph_hold = 2%nat /\ Forall (bus_is 1 1) ph_hold /\
    List.length ph_idle = 2%nat /\ Forall (bus_is 0 0) ph_idle /\
    psel (dut_pins (tick (idle (tick s2)))) = 0 /\
    penable (dut_pins (tick (idle (tick s2)))) = 0.
Proof.
  intros Htr Hsel Hen Hidle_tfp Hidle_pins Hlow Hhigh Hmax Hfuel s2.
  split; [apply qspi_wait_pready_first; auto; lia|].
  destruct (qspi_tick_trace (setup s) tr Htr) as (a & b & Ht1 & Ha & Hb).
  assert (Hs1 : tfp (access_entry setup s) = Some (tr ++ [a; b])) by exact Ht1.
  destruct (qspi_ticks_trace (Datatypes.S n) _ _ Hs1) as (l & Hl & Hlen & Hall).
  fold s2 in Hl.
  destruct (qspi_tick_trace _ _ Hl) as (h1 & h2 & Hth & Hh1 & Hh2).
  assert (Hi : tfp (idle (tick s2)) = Some (((tr ++ [a; b]) ++ l) ++ [h1; h2]))
    by (rewrite Hidle_tfp; exact Hth).
  destruct (qspi_tick_trace _ _ Hi) as (c & d & Ht3 & Hc & Hd).
  assert (Hacc : psel (dut_pins (access_entry setup s)) = 1 /\
                 penable (dut_pins (access_entry setup s)) = 1).
  { destruct (qspi_same_bus_fields _ _ (qspi_tick_bus (setup s))) as (_ & Hp & _).
    unfold access_entry, drive. cbn [dut_pins]. unfold set_penable.
    cbn [psel penable]. rewrite Hp. auto. }
  assert (Hs2 : psel (dut_pins s2) = 1 /\ penable (dut_pins s2) = 1).
  { destruct (qspi_same_bus_fields _ _ (qspi_ticks_bus (Datatypes.S n) (access_entry setup s)))
      as (_ & Hp & He & _).
    fold s2 in Hp, He. destruct Hacc. split; congruence. }
  exists [a; b], l, [h1; h2], [c; d]. split.
  { rewrite Ht3. rewrite <- !app_assoc. reflexivity. }
  split; [reflexivity|]. split.
  { repeat constructor.
    - destruct (qspi_same_bus_fields _ _ Ha) as (_ & Hp & He & _). congruence.
    - destruct (qspi_same_bus_fields _ _ Ha) as (_ & Hp & He & _). congruence.
    - destruct (qspi_same_bus_fields _ _ Hb) as (_ & Hp & He & _). congruence.
    - destruct (qspi_same_bus_fields _ _ Hb) as (_ & Hp & He & _). congruence. }
  split; [exact Hlen|]. split.
  { eapply Forall_impl; [|exact Hall]. intros x Hx.
    destruct (qspi_same_bus_fields _ _ Hx) as (_ & Hp & He & _).
    unfold bus_is. destruct Hacc. split; congruence. }
  split; [reflexivity|]. split.
  { destruct Hs2.
    repeat constructor.
    - destruct (qspi_same_bus_fields _ _ Hh1) as (_ & Hp & He & _). congruence.
    - destruct (qspi_same_bus_fields _ _ Hh1) as (_ & Hp & He & _). congruence.
    - destruct (qspi_same_bus_fields _ _ Hh2) as (_ & Hp & He & _). congruence.
    - destruct (qspi_same_bus_fields _ _ Hh2) as (_ & Hp & He & _). congruence. }
  split; [reflexivity|].
  destruct (Hidle_pins (tick s2)) as [Hip Hie]. split.
  { repeat constructor.
    - destruct (qspi_same_bus_fields _ _ Hc) as (_ & Hp & He & _). congruence.
    - destruct (qspi_same_bus_fields _ _ Hc) as (_ & Hp & He & _). congruence.
    - destruct (qspi_same_bus_fields _ _ Hd) as (_ & Hp & He & _). congruence.
    - destruct (qspi_same_bus_fields _ _ Hd) as (_ & Hp & He & _). congruence. }
  destruct (qspi_same_bus_fields _ _ (qspi_tick_bus (idle (tick s2)))) as (_ & Hp & He & _).
  split; congruence.
Qed.

(** With a device that is always ready the wait ends on the first edge. *)
Lemma apb_write_ready fuel addr data strb (s : state) :
  (forall m, pready mdl m <> 0) -> (0 < fuel)%nat ->
  apb_write mdl fuel addr data strb s <> None.
Proof.
  intros Hr Hf. rewrite qspi_apb_write_unfold.
  rewrite (qspi_wait_pready_first 0 fuel); [discriminate| | | |].
  - intros j Hj. lia.
  - apply Hr.
  - unfold MAX_CYCLES. lia.
  - exact Hf.
Qed.



(** *** A read that is given up *)

(** How the wait loop of [apb_read] ended ([true]: through the ceiling) and
    the word [apb_read] hands back.  Only the latter reaches the caller. *)
Definition read_timed_out (fuel : nat) (addr : Z) (s : state) : option bool :=
  option_map fst
    (wait_pready mdl fuel (read_timeout_line addr) 0
       (access_entry (read_setup addr) s)).
Definition read_value (fuel : nat) (addr : Z) (s : state) : option Z :=
  option_map fst (apb_read mdl fuel addr s).

Lemma MAX_CYCLES_succ :
  Z.to_nat (MAX_CYCLES + 1 - 0) = Datatypes.S (Z.to_nat MAX_CYCLES).
Proof. unfold MAX_CYCLES. lia. Qed.

Lemma qspi_apb_read_stuck fuel addr (s : state) :
  (forall m, pready mdl m = 0) ->
  (Z.to_nat MAX_CYCLES < fuel)%nat ->
  wait_pready mdl fuel (read_timeout_line addr) 0 (access_entry (read_setup addr) s)
    = Some (true, printf mdl (read_timeout_line addr)
                    (repeat_stmt (Datatypes.S (Z.to_nat MAX_CYCLES)) tick
                       (access_entry (read_setup addr) s))) /\
  apb_read mdl fuel addr s
    = Some (0xDEADBEEF,
            printf mdl (read_timeout_line addr)
              (repeat_stmt (Datatypes.S (Z.to_nat MAX_CYCLES)) tick
                 (access_entry (read_setup addr) s))).
Proof.
  intros Hstuck Hfuel.
  assert (Hw : wait_pready mdl fuel (read_timeout_line addr) 0
                 (access_entry (read_setup addr) s)
               = Some (true, printf mdl (read_timeout_line addr)
                    (repeat_stmt (Datatypes.S (Z.to_nat MAX_CYCLES)) tick
                       (access_entry (read_setup addr) s)))).
  { rewrite <- MAX_CYCLES_succ. apply qspi_wait_pready_stuck; [exact Hstuck| |].
    - unfold MAX_CYCLES. lia.
    - rewrite MAX_CYCLES_succ. lia. }
  split; [exact Hw|]. rewrite qspi_apb_read_unfold, Hw. reflexivity.
Qed.


(** *** The storage behind the DPI-C imports *)

Lemma psram_index_wraps (a : Z) :
  Z.land (Cxx.to_uint32 a) 0xFFFFF = a mod 2 ^ 20.
Proof.
  unfold Cxx.to_uint32, Cxx.wrap.
  change 0xFFFFF with (Z.ones 20). rewrite Z.land_ones by lia.
  apply Z.mod_mod_divide. exists (2 ^ 12). reflexivity.
Qed.

Lemma psram_read_after_write (a d : Z) (s : state) :
  psram_read mdl a (psram_write mdl a d s) = Cxx.to_char d.
Proof.
  unfold psram_read, psram_write, seq, mem_set, mem_get, printf. simpl.
  rewrite lookup_insert_eq. simpl.
  unfold Cxx.to_char, Cxx.to_signed, Cxx.to_uint8, Cxx.wrap.
  rewrite Z.mod_mod by lia. reflexivity.
Qed.

Lemma to_char_in_range (d : Z) : -128 <= d <= 127 -> Cxx.to_char d = d.
Proof.
  intros H. unfold Cxx.to_char, Cxx.to_signed, Cxx.wrap.
  change (2 ^ 8) with 256. change (2 ^ (8 - 1)) with 128.
  destruct (Z.ltb_spec (d mod 256) 128) as [Hlt|Hge].
  - destruct (Z_lt_le_dec d 0) as [Hn|Hp].
    + replace d with ((d + 256) + (-1) * 256) in Hlt by lia.
      rewrite Z.mod_add, Z.mod_small in Hlt by lia. lia.
    + apply Z.mod_small. lia.
  - destruct (Z_lt_le_dec d 0) as [Hn|Hp].
    + replace d with ((d + 256) + (-1) * 256) at 1 by lia.
      rewrite Z.mod_add, Z.mod_small by lia. lia.
    + rewrite Z.mod_small in Hge by lia. lia.
Qed.

Lemma psram_alias_index (a : Z) :
  Z.land (Cxx.to_uint32 (a + 2 ^ 20)) 0xFFFFF = Z.land (Cxx.to_uint32 a) 0xFFFFF.
Proof.
  rewrite !psram_index_wraps.
  replace (a + 2 ^ 20) with (a + 1 * 2 ^ 20) by lia.
  apply Z.mod_add. lia.
Qed.


(** *** [check] and the fail counter *)

Definition check_line (name : string) (expected actual mask : Z) : string :=
  ((if (Z.land actual mask =? Z.land expected mask)%Z then "  PASS " else "  FAIL ")
     ++ name ++ ": expected 0x" ++ Cxx.fmt_X 8 (Z.land expected mask)
     ++ ", got 0x" ++ Cxx.fmt_X 8 (Z.land actual mask) ++ Cxx.newline)%string.

Lemma qspi_check_effect name expected actual mask (s : state) :
  check mdl name expected actual mask s =
    State mdl (psram_mem s) (dut_pins s) (dut_model s) (tfp s) (sim_time s)
      (if Z.land actual mask =? Z.land expected mask
       then test_pass s + 1 else test_pass s)
      (if Z.land actual mask =? Z.land expected mask
       then test_fail s else test_fail s + 1)
      (stdout s ++ [check_line name expected actual mask]).
Proof.
  unfold check, check_line.
  destruct (Z.land actual mask =? Z.land expected mask); reflexivity.
Qed.

Definition fail_nonneg (s : state) : Prop := 0 <= test_fail s.

Lemma qspi_tick_fail_nonneg s : fail_nonneg s -> fail_nonneg (tick s).
Proof. unfold fail_nonneg. rewrite tick_test_fail. auto. Qed.

Lemma dut_eval_fail_nonneg s : fail_nonneg s -> fail_nonneg (dut_eval mdl s).
Proof.
  unfold fail_nonneg.
  destruct (frame_eq _ _ _ _ _ _ (dut_eval_frame s)) as (_ & _ & _ & _ & ->).
  auto.
Qed.

Lemma qspi_drive_fail_nonneg f s : fail_nonneg s -> fail_nonneg (drive mdl f s).
Proof. auto. Qed.

Lemma qspi_printf_fail_nonneg line s : fail_nonneg s -> fail_nonneg (printf mdl line s).
Proof. auto. Qed.

Lemma mem_clear_fail_nonneg s : fail_nonneg s -> fail_nonneg (mem_clear mdl s).
Proof. auto. Qed.

Lemma qspi_check_fail_nonneg name e a m s :
  fail_nonneg s -> fail_nonneg (check mdl name e a m s).
Proof.
  unfold fail_nonneg. rewrite qspi_check_effect. simpl.
  destruct (Z.land a m =? Z.land e m); lia.
Qed.

Lemma qspi_seq_fail_nonneg (f g : state -> state) :
  (forall s, fail_nonneg s -> fail_nonneg (f s)) ->
  (forall s, fail_nonneg s -> fail_nonneg (g s)) ->
  forall s, fail_nonneg s -> fail_nonneg ((f ;> g) s).
Proof. unfold seq. auto. Qed.

Lemma qspi_ticks_fail_nonneg n s : fail_nonneg s -> fail_nonneg (repeat_stmt n tick s).
Proof. apply repeat_stmt_keeps. exact qspi_tick_fail_nonneg. Qed.

Ltac keeps_fail_leaf :=
  first [ exact qspi_tick_fail_nonneg
        | exact (qspi_ticks_fail_nonneg _)
        | exact (qspi_drive_fail_nonneg _)
        | exact (qspi_printf_fail_nonneg _)
        | exact (qspi_check_fail_nonneg _ _ _ _)
        | exact dut_eval_fail_nonneg
        | exact mem_clear_fail_nonneg ].

Ltac keeps_fail_with leaf :=
  first [ leaf | apply qspi_seq_fail_nonneg; keeps_fail_with leaf ].

Lemma qspi_do_reset_fail_nonneg s : fail_nonneg s -> fail_nonneg (do_reset mdl s).
Proof. revert s. unfold do_reset. keeps_fail_with keeps_fail_leaf. Qed.

Lemma qspi_wait_pready_fail_nonneg fuel msg cycles s r s' :
  fail_nonneg s -> wait_pready mdl fuel msg cycles s = Some (r, s') ->
  fail_nonneg s'.
Proof.
  revert cycles s. induction fuel as [|f IH]; intros cycles s Hs; [discriminate|].
  cbn [wait_pready]. destruct (cycles + 1 >? MAX_CYCLES).
  - intros [= _ <-]. apply qspi_printf_fail_nonneg, qspi_tick_fail_nonneg, Hs.
  - destruct (pready mdl (dut_model (tick s)) =? 0).
    + apply IH. apply qspi_tick_fail_nonneg. exact Hs.
    + intros [= _ <-]. apply qspi_tick_fail_nonneg. exact Hs.
Qed.

Lemma qspi_apb_write_fail_nonneg fuel addr data strb :
  hoare fail_nonneg (apb_write mdl fuel addr data strb) (fun _ => fail_nonneg).
Proof.
  intros s [] s' Hs. rewrite qspi_apb_write_unfold.
  destruct (wait_pready mdl fuel _ 0 _) as [[b s2]|] eqn:E; [|discriminate].
  assert (H1 : fail_nonneg (access_entry (write_setup addr data strb) s)).
  { unfold access_entry. apply qspi_drive_fail_nonneg, qspi_tick_fail_nonneg. exact Hs. }
  intros [= <-]. apply qspi_tick_fail_nonneg.
  change (fail_nonneg (tick s2)). apply qspi_tick_fail_nonneg.
  exact (qspi_wait_pready_fail_nonneg _ _ _ _ _ _ H1 E).
Qed.

Lemma qspi_apb_read_fail_nonneg fuel addr :
  hoare fail_nonneg (apb_read mdl fuel addr) (fun _ => fail_nonneg).
Proof.
  intros s v s' Hs. rewrite qspi_apb_read_unfold.
  assert (H1 : fail_nonneg (access_entry (read_setup addr) s)).
  { unfold access_entry. apply qspi_drive_fail_nonneg, qspi_tick_fail_nonneg. exact Hs. }
  destruct (wait_pready mdl fuel _ 0 _) as [[[] s2]|] eqn:E; [| |discriminate].
  - intros [= _ <-]. exact (qspi_wait_pready_fail_nonneg _ _ _ _ _ _ H1 E).
  - intros [= _ <-]. apply qspi_tick_fail_nonneg.
    change (fail_nonneg (tick s2)). apply qspi_tick_fail_nonneg.
    exact (qspi_wait_pready_fail_nonneg _ _ _ _ _ _ H1 E).
Qed.

Lemma for_upto_fail_nonneg n i body :
  (forall j, hoare fail_nonneg (body j) (fun _ => fail_nonneg)) ->
  hoare fail_nonneg (for_upto mdl n i body) (fun _ => fail_nonneg).
Proof.
  intros Hb. revert i. induction n as [|n IH]; intros i; simpl.
  - eapply hoare_post; [apply hoare_ret|]. intros a s [_ H]. exact H.
  - eapply hoare_bind; [apply Hb|]. intros ?. cbv beta. apply IH.
Qed.

Lemma qspi_gets_fail_nonneg {A : Type} (f : state -> A) :
  hoare fail_nonneg (gets f) (fun _ => fail_nonneg).
Proof. eapply hoare_post; [apply hoare_gets|]. intros a s [_ H]. exact H. Qed.

Ltac keeps_fail :=
  keeps_fail_with ltac:(first [ keeps_fail_leaf | exact qspi_do_reset_fail_nonneg ]).

Ltac prog_inv :=
  lazymatch goal with
  | |- hoare _ (bind _ _) _ =>
      eapply hoare_bind; [ prog_inv | intros ?; cbv beta; prog_inv ]
  | |- hoare _ (exec _) _ =>
      apply (hoare_exec fail_nonneg fail_nonneg); keeps_fail
  | |- hoare _ (gets _) _ => first [ apply qspi_gets_fail_nonneg | apply hoare_gets ]
  | |- hoare _ (apb_write _ _ _ _ _) _ => apply qspi_apb_write_fail_nonneg
  | |- hoare _ (apb_read _ _ _) _ => apply qspi_apb_read_fail_nonneg
  | |- hoare _ (for_upto _ _ _ _) _ =>
      apply for_upto_fail_nonneg; intros ?; prog_inv
  end.

Lemma qspi_main_body_exit fuel :
  hoare fail_nonneg (main_body mdl fuel)
        (fun code s => code = exit_status mdl s /\ fail_nonneg s).
Proof. unfold main_body. cbv zeta. prog_inv. Qed.

Lemma qspi_main_exit fuel code (s : state) :
  main mdl fuel = Some (code, s) ->
  code = exit_status mdl s /\ 0 <= test_fail s.
Proof.
  intros H. apply (qspi_main_body_exit fuel (initial_state mdl) code s); [|exact H].
  unfold fail_nonneg, initial_state. simpl. lia.
Qed.

(** *** Every statement of this testbench returns *)

Definition returns {A : Type} (c : state -> option (A * state)) : Prop :=
  forall s, exists r, c s = Some r.

Lemma qspi_returns_bind {A B : Type} (c : state -> option (A * state))
    (k : A -> state -> option (B * state)) :
  returns c -> (forall a, returns (k a)) -> returns (bind c k).
Proof.
  intros Hc Hk s. unfold bind. destruct (Hc s) as [[a s1] ->]. apply Hk.
Qed.

Lemma qspi_returns_exec (f : state -> state) : returns (exec f).
Proof. intros s. eexists. reflexivity. Qed.

Lemma qspi_returns_gets {A : Type} (f : state -> A) : returns (gets f).
Proof. intros s. eexists. reflexivity. Qed.

Lemma returns_ret {A : Type} (a : A) : returns (ret a : state -> _).
Proof. intros s. eexists. reflexivity. Qed.

Lemma qspi_apb_write_returns fuel addr data strb :
  (Z.to_nat MAX_CYCLES < fuel)%nat -> returns (apb_write mdl fuel addr data strb).
Proof.
  intros Hf s. rewrite qspi_apb_write_unfold.
  destruct (wait_pready_returns fuel (write_timeout_line addr) 0
              (access_entry (write_setup addr data strb) s)) as [[b s2] ->].
  - unfold MAX_CYCLES in *. lia.
  - unfold MAX_CYCLES. lia.
  - eauto.
Qed.

Lemma qspi_apb_read_returns fuel addr :
  (Z.to_nat MAX_CYCLES < fuel)%nat -> returns (apb_read mdl fuel addr).
Proof.
  intros Hf s. rewrite qspi_apb_read_unfold.
  destruct (wait_pready_returns fuel (read_timeout_line addr) 0
              (access_entry (read_setup addr) s)) as [[[] s2] ->].
  - unfold MAX_CYCLES in *. lia.
  - unfold MAX_CYCLES. lia.
  - eauto.
  - eauto.
Qed.

Lemma for_upto_returns n i body :
  (forall j, returns (body j)) -> returns (for_upto mdl n i body).
Proof.
  intros Hb. revert i. induction n as [|n IH]; intros i; simpl.
  - apply returns_ret.
  - apply qspi_returns_bind; [apply Hb|]. intros ?. apply IH.
Qed.

(** The whole run ends, whatever the device does. *)
Lemma qspi_main_returns fuel :
  (Z.to_nat MAX_CYCLES < fuel)%nat -> exists code s, main mdl fuel = Some (code, s).
Proof.
  intros Hf.
  assert (H : returns (main_body mdl fuel)).
  { unfold main_body. cbv zeta.
    repeat lazymatch goal with
      | |- returns (bind _ _) => apply qspi_returns_bind; [| intros ?]
      | |- returns (exec _) => apply qspi_returns_exec
      | |- returns (gets _) => apply qspi_returns_gets
      | |- returns (apb_write _ _ _ _ _) => apply qspi_apb_write_returns; exact Hf
      | |- returns (apb_read _ _ _) => apply qspi_apb_read_returns; exact Hf
      | |- returns (for_upto _ _ _ _) => apply for_upto_returns; intros ?
      end. }
  destruct (H (initial_state mdl)) as [[code s] E]. exists code, s. exact E.
Qed.

End Facts.
End QspiPsramFacts.

(** ** More facts, on the parts of the testbenches around the bus drivers *)

(** A statement returned with value [c] exactly when its first projection
    says so. *)
Lemma returned_with {S A : Type} (x : option (A * S)) (c : A) :
  option_map fst x = Some c -> exists s, x = Some (c, s).
Proof.
  destruct x as [[a s]|]; simpl; [|discriminate].
  intros [= ->]. exists s. reflexivity.
Qed.

(** Time stamps of the trace: the sample of index [i] is stamped [i],
    wrapped as [uint64_t]. *)
Definition stamp (i : nat) : Z := Cxx.to_uint64 (Z.of_nat i).

Lemma stamp_next (n : nat) : Cxx.to_uint64 (stamp n + 1) = stamp (S n).
Proof.
  unfold stamp, Cxx.to_uint64, Cxx.wrap. rewrite Nat2Z.inj_succ.
  rewrite Z.add_mod_idemp_l by lia. f_equal; lia.
Qed.

Lemma stamps_two_more (times : list Z) (n : nat) :
  times = List.map stamp (List.seq 0 n) ->
  (times ++ [stamp n]) ++ [Cxx.to_uint64 (stamp n + 1)]
    = List.map stamp (List.seq 0 (S (S n))).
Proof.
  intros ->. rewrite stamp_next. rewrite !List.seq_S. rewrite !List.map_app.
  reflexivity.
Qed.

(** ** [sim_chisel_spi.cpp] *)

Module ChiselSpiMore.
Import ChiselSpi.

Section Facts.
Context (mdl : Model).
Abbreviation state := (state mdl).
Abbreviation sample := (sample mdl).
Abbreviation tick := (tick mdl).

(** What only [check] and [printf] may touch. *)
Definition ledger (s : state) : Z * Z * list string :=
  (test_pass s, test_fail s, stdout s).

Lemma chisel_tick_ledger (s : state) : ledger (tick s) = ledger s.
Proof.
  unfold ledger. destruct (ChiselSpiFacts.tick_counters mdl s) as (-> & -> & ->).
  reflexivity.
Qed.

Lemma chisel_ticks_ledger (n : nat) (s : state) :
  ledger (repeat_stmt n tick s) = ledger s.
Proof.
  induction n as [|n IH]; [reflexivity|].
  rewrite repeat_stmt_succ, chisel_tick_ledger. exact IH.
Qed.

Lemma chisel_wait_ledger (fuel : nat) (s s' : state) :
  wait_pready mdl fuel s = Some s' -> ledger s' = ledger s.
Proof.
  revert s. induction fuel as [|f IH]; intros s; [discriminate|].
  cbn [wait_pready]. destruct (pready mdl (dut_model (tick s)) =? 0).
  - intros H. rewrite (IH _ H). apply chisel_tick_ledger.
  - intros [= <-]. apply chisel_tick_ledger.
Qed.

Lemma chisel_entry_ledger (setup : state -> state) (s : state) :
  (forall x, ledger (setup x) = ledger x) ->
  ledger (ChiselSpiFacts.access_entry mdl setup s) = ledger s.
Proof.
  intros Hs. unfold ChiselSpiFacts.access_entry.
  change (ledger (tick (setup s)) = ledger s).
  rewrite chisel_tick_ledger. apply Hs.
Qed.

Lemma chisel_apb_write_ledger fuel addr data (s : state) r (s' : state) :
  apb_write mdl fuel addr data s = Some (r, s') -> ledger s' = ledger s.
Proof.
  rewrite ChiselSpiFacts.chisel_apb_write_unfold.
  destruct (wait_pready mdl fuel _) as [s2|] eqn:E; [|discriminate].
  intros [= _ <-]. rewrite chisel_tick_ledger.
  change (ledger s2 = ledger s). rewrite (chisel_wait_ledger _ _ _ E).
  apply chisel_entry_ledger. reflexivity.
Qed.

Lemma chisel_apb_read_ledger fuel addr (s : state) r (s' : state) :
  apb_read mdl fuel addr s = Some (r, s') -> ledger s' = ledger s.
Proof.
  rewrite ChiselSpiFacts.chisel_apb_read_unfold.
  destruct (wait_pready mdl fuel _) as [s2|] eqn:E; [|discriminate].
  intros [= _ <-]. rewrite chisel_tick_ledger.
  change (ledger s2 = ledger s). rewrite (chisel_wait_ledger _ _ _ E).
  apply chisel_entry_ledger. reflexivity.
Qed.

(** A statement that leaves the ledger alone. *)
Definition quiet {A : Type} (c : state -> option (A * state)) : Prop :=
  forall s r s', c s = Some (r, s') -> ledger s' = ledger s.

Lemma chisel_quiet_bind {A B : Type} (c : state -> option (A * state))
    (k : A -> state -> option (B * state)) :
  quiet c -> (forall a, quiet (k a)) -> quiet (bind c k).
Proof.
  intros Hc Hk s r s'. unfold bind.
  destruct (c s) as [[a s1]|] eqn:E; [|discriminate].
  intros H. rewrite (Hk a _ _ _ H). exact (Hc _ _ _ E).
Qed.

Lemma chisel_spi_transfer_ledger fuel tx len div : quiet (spi_transfer mdl fuel tx len div).
Proof.
  unfold spi_transfer.
  repeat (apply chisel_quiet_bind;
          [intros s r s'; apply chisel_apb_write_ledger | intros ?]).
  intros s r s'. apply chisel_apb_read_ledger.
Qed.

Lemma chisel_drive_ledger f (s : state) : ledger (drive mdl f s) = ledger s.
Proof. reflexivity. Qed.

Lemma chisel_seq_ledger (f g : state -> state) :
  (forall s, ledger (f s) = ledger s) ->
  (forall s, ledger (g s) = ledger s) ->
  forall s, ledger ((f ;> g) s) = ledger s.
Proof. intros Hf Hg s. unfold seq. rewrite Hg. apply Hf. Qed.

Ltac keeps_ledger :=
  first [ exact chisel_tick_ledger
        | exact (chisel_ticks_ledger _)
        | exact (chisel_drive_ledger _)
        | apply chisel_seq_ledger; keeps_ledger ].

Lemma chisel_do_reset_ledger (s : state) : ledger (do_reset mdl s) = ledger s.
Proof. revert s. unfold do_reset. keeps_ledger. Qed.

(** *** The virtual clock over a transfer *)

Lemma chisel_tick_time (s : state) (tr : list sample) :
  tfp s = Some tr -> 0 <= sim_time s -> sim_time s + 2 < 2 ^ 64 ->
  sim_time (tick s) = sim_time s + 2.
Proof.
  intros E H0 H1. rewrite (ChiselSpiFacts.chisel_tick_attached mdl s tr E).
  cbn [sim_time]. unfold Cxx.to_uint64, Cxx.wrap.
  rewrite (Z.mod_small (sim_time s + 1)) by lia.
  rewrite Z.mod_small by lia. lia.
Qed.

Lemma chisel_ticks_time (k : nat) (s : state) (tr : list sample) :
  tfp s = Some tr -> 0 <= sim_time s -> sim_time s + 2 * Z.of_nat k < 2 ^ 64 ->
  sim_time (repeat_stmt k tick s) = sim_time s + 2 * Z.of_nat k.
Proof.
  intros E H0. induction k as [|k IH]; intros H1.
  - simpl. lia.
  - rewrite repeat_stmt_succ.
    destruct (ChiselSpiFacts.chisel_ticks_trace mdl k s tr E) as (l & Hl & _).
    rewrite (chisel_tick_time _ _ Hl); rewrite IH; lia.
Qed.

(** A transfer holds what its setup phase drove through the access phase,
    and costs one edge per phase plus one per wait state. *)
Lemma chisel_transfer_held (setup idle : state -> state) (n : nat)
    (s : state) (tr : list sample) :
  tfp (setup s) = Some tr -> sim_time (setup s) = sim_time s ->
  (forall s2, tfp (idle s2) = tfp s2) ->
  (forall s2, sim_time (idle s2) = sim_time s2) ->
  0 <= sim_time s -> sim_time s + 2 * (Z.of_nat n + 3) < 2 ^ 64 ->
  let s1 := ChiselSpiFacts.access_entry mdl setup s in
  let s2 := repeat_stmt (Datatypes.S n) tick s1 in
  exists ph_setup ph_access ph_idle,
    tfp (tick (idle s2)) = Some (tr ++ ph_setup ++ ph_access ++ ph_idle) /\
    List.length ph_setup = 2%nat /\
    Forall (fun x => ChiselSpiFacts.same_bus (seen_pins x) (dut_pins (setup s)))
           ph_setup /\
    List.length ph_access = (2 * Datatypes.S n)%nat /\
    Forall (fun x => ChiselSpiFacts.same_bus (seen_pins x) (dut_pins s1)) ph_access /\
    List.length ph_idle = 2%nat /\
    sim_time (tick (idle s2)) = sim_time s + 2 * (Z.of_nat n + 3).
Proof.
  intros Htr Htime Hidle_tfp Hidle_time H0 H1 s1 s2.
  destruct (ChiselSpiFacts.chisel_tick_trace mdl (setup s) tr Htr)
    as (a & b & Ht1 & Ha & Hb).
  assert (Hs1 : tfp s1 = Some (tr ++ [a; b])) by exact Ht1.
  assert (Hc1 : sim_time s1 = sim_time s + 2).
  { change (sim_time (tick (setup s)) = sim_time s + 2).
    rewrite (chisel_tick_time _ _ Htr); lia. }
  destruct (ChiselSpiFacts.chisel_ticks_trace mdl (Datatypes.S n) _ _ Hs1)
    as (l & Hl & Hlen & Hall).
  fold s2 in Hl.
  assert (Hc2 : sim_time s2 = sim_time s + 2 + 2 * Z.of_nat (Datatypes.S n)).
  { unfold s2. rewrite (chisel_ticks_time _ _ _ Hs1); lia. }
  assert (Hi : tfp (idle s2) = Some ((tr ++ [a; b]) ++ l))
    by (rewrite Hidle_tfp; exact Hl).
  destruct (ChiselSpiFacts.chisel_tick_trace mdl _ _ Hi) as (c & d & Ht3 & _).
  exists [a; b], l, [c; d]. split.
  { rewrite Ht3. rewrite <- !app_assoc. reflexivity. }
  split; [reflexivity|]. split; [repeat constructor; assumption|].
  split; [exact Hlen|]. split; [exact Hall|]. split; [reflexivity|].
  rewrite (chisel_tick_time _ _ Hi); rewrite Hidle_time; lia.
Qed.

(** *** How many checks have been made *)

Definition counted (k : Z) (s : state) : Prop :=
  0 <= test_pass s /\ 0 <= test_fail s /\ test_pass s + test_fail s = k.

Definition steps (k k' : Z) (f : state -> state) : Prop :=
  forall s, counted k s -> counted k' (f s).

Lemma chisel_ledger_counted k (s s' : state) :
  ledger s' = ledger s -> counted k s -> counted k s'.
Proof. unfold ledger, counted. intros [= -> -> _]. auto. Qed.

Lemma chisel_steps_seq k k1 k2 (f g : state -> state) :
  steps k k1 f -> steps k1 k2 g -> steps k k2 (f ;> g).
Proof. unfold steps, seq. auto. Qed.

Lemma chisel_steps_printf k line : steps k k (printf mdl line).
Proof. intros s H. exact H. Qed.

Lemma chisel_steps_quiet k (f : state -> state) :
  (forall s, ledger (f s) = ledger s) -> steps k k f.
Proof. intros Hf s. apply chisel_ledger_counted, Hf. Qed.

Lemma chisel_steps_check k name e a m : steps k (k + 1) (check mdl name e a m).
Proof.
  intros s (Hp & Hf & Hk). unfold counted.
  rewrite ChiselSpiFacts.chisel_check_effect. cbn [test_pass test_fail].
  destruct (Z.land a m =? Z.land e m); lia.
Qed.

Lemma chisel_quiet_counted {A : Type} k (c : state -> option (A * state)) :
  quiet c -> hoare (counted k) c (fun _ => counted k).
Proof.
  intros Hq s a s' Hs E. exact (chisel_ledger_counted _ _ _ (Hq _ _ _ E) Hs).
Qed.

Lemma chisel_gets_counted {A : Type} k (f : state -> A) :
  hoare (counted k) (gets f) (fun _ => counted k).
Proof. eapply hoare_post; [apply hoare_gets|]. intros a s [_ H]. exact H. Qed.

Lemma chisel_exec_counted k k' (f : state -> state) :
  steps k k' f -> hoare (counted k) (exec f) (fun _ => counted k').
Proof. intros Hf. apply hoare_exec. exact Hf. Qed.

Ltac count_steps :=
  lazymatch goal with
  | |- steps _ _ (_ ;> _) => eapply chisel_steps_seq; [count_steps | count_steps]
  | |- steps _ _ (check _ _ _ _ _) => apply chisel_steps_check
  | |- steps _ _ (printf _ _) => apply chisel_steps_printf
  | |- steps _ _ (do_reset _) =>
      apply chisel_steps_quiet; exact chisel_do_reset_ledger
  | |- steps _ _ (repeat_stmt _ _) =>
      apply chisel_steps_quiet; exact (chisel_ticks_ledger _)
  end.

Ltac count_main :=
  lazymatch goal with
  | |- hoare _ (bind _ _) _ =>
      eapply hoare_bind; [count_main | intros ?; cbv beta; count_main]
  | |- hoare _ (exec _) _ => eapply chisel_exec_counted; count_steps
  | |- hoare _ (gets (exit_status _)) _ => apply hoare_gets
  | |- hoare _ (gets _) _ => apply chisel_gets_counted
  | |- hoare _ (spi_transfer _ _ _ _ _) _ =>
      apply chisel_quiet_counted, chisel_spi_transfer_ledger
  | |- hoare _ (apb_write _ _ _ _) _ =>
      apply chisel_quiet_counted; intros ? ? ?; apply chisel_apb_write_ledger
  | |- hoare _ (apb_read _ _ _) _ =>
      apply chisel_quiet_counted; intros ? ? ?; apply chisel_apb_read_ledger
  end.

(** [main] makes five checks, each counted once. *)
Lemma chisel_main_counts fuel :
  hoare (counted 0) (main_body mdl fuel)
        (fun code s => code = exit_status mdl s /\ counted 5 s).
Proof.
  eapply hoare_post.
  - unfold main_body. cbv zeta. count_main.
  - cbv beta. intros code s [Hc Hk]. split; [exact Hc|exact Hk].
Qed.

(** *** What the request lines carry *)

Definition request_of (p : pins) : Z * Z * Z * Z * Z :=
  (psel p, pwrite p, pstrb p, paddr p, pwdata p).

Lemma chisel_same_bus_request p q :
  ChiselSpiFacts.same_bus p q -> request_of p = request_of q.
Proof.
  intros H. destruct (ChiselSpiFacts.chisel_same_bus_fields _ _ H)
    as (_ & Hs & _ & Hw & Hb & Ha & Hd).
  unfold request_of. congruence.
Qed.

Lemma chisel_entry_request (setup : state -> state) (s : state) :
  request_of (dut_pins (ChiselSpiFacts.access_entry mdl setup s))
    = request_of (dut_pins (setup s)).
Proof.
  rewrite <- (chisel_same_bus_request _ _ (ChiselSpiFacts.chisel_tick_bus mdl (setup s))).
  unfold ChiselSpiFacts.access_entry. generalize (tick (setup s)). intros x.
  reflexivity.
Qed.

(** Setup and access phase together show one unchanged request. *)
Lemma chisel_request_held (setup idle : state -> state) (n : nat)
    (s : state) (tr : list sample) :
  tfp (setup s) = Some tr -> sim_time (setup s) = sim_time s ->
  (forall s2, tfp (idle s2) = tfp s2) ->
  (forall s2, sim_time (idle s2) = sim_time s2) ->
  0 <= sim_time s -> sim_time s + 2 * (Z.of_nat n + 3) < 2 ^ 64 ->
  exists ph_request ph_idle,
    tfp (tick (idle (repeat_stmt (Datatypes.S n) tick
                       (ChiselSpiFacts.access_entry mdl setup s))))
      = Some (tr ++ ph_request ++ ph_idle) /\
    List.length ph_request = (2 * (n + 2))%nat /\
    Forall (fun x => request_of (seen_pins x) = request_of (dut_pins (setup s)))
           ph_request /\
    List.length ph_idle = 2%nat /\
    sim_time (tick (idle (repeat_stmt (Datatypes.S n) tick
                            (ChiselSpiFacts.access_entry mdl setup s))))
      = sim_time s + 2 * (Z.of_nat n + 3).
Proof.
  intros Htr Htime Hit His H0 H1.
  destruct (chisel_transfer_held setup idle n s tr Htr Htime Hit His H0 H1)
    as (ps & pa & pi & Ht & L1 & F1 & L2 & F2 & L3 & Hc).
  exists (ps ++ pa), pi. rewrite <- app_assoc.
  split; [exact Ht|]. split; [rewrite length_app; lia|]. split.
  { apply Forall_app. split.
    - eapply Forall_impl; [|exact F1]. intros x Hx.
      apply chisel_same_bus_request. exact Hx.
    - eapply Forall_impl; [|exact F2]. intros x Hx.
      rewrite (chisel_same_bus_request _ _ Hx). apply chisel_entry_request. }
  split; [exact L3|exact Hc].
Qed.

(** *** Reset *)

Definition reset_drive : state -> state :=
  drive mdl (set_reset 1) ;> drive mdl (set_psel 0) ;> drive mdl (set_penable 0) ;>
  drive mdl (set_pwrite 0) ;> drive mdl (set_pstrb 0) ;> drive mdl (set_paddr 0) ;>
  drive mdl (set_pwdata 0) ;> drive mdl (set_misoPadI 0).

Definition quiet_bus (rst : Z) (x : sample) : Prop :=
  let p := seen_pins x in
  reset p = rst /\ psel p = 0 /\ penable p = 0 /\ pwrite p = 0 /\
  pstrb p = 0 /\ paddr p = 0 /\ pwdata p = 0.

Lemma chisel_same_bus_quiet rst c m (x : sample) :
  ChiselSpiFacts.same_bus (seen_pins x) (Pins c rst 0 0 0 0 0 0 m) -> quiet_bus rst x.
Proof.
  intros H. apply ChiselSpiFacts.chisel_same_bus_fields in H. simpl in H. exact H.
Qed.

Lemma chisel_do_reset_shape (s : state) (tr : list sample) :
  tfp s = Some tr -> 0 <= sim_time s -> sim_time s + 22 < 2 ^ 64 ->
  exists held released,
    tfp (do_reset mdl s) = Some (tr ++ held ++ released) /\
    List.length held = 20%nat /\ Forall (quiet_bus 1) held /\
    List.length released = 2%nat /\ Forall (quiet_bus 0) released /\
    ChiselSpiFacts.same_bus (dut_pins (do_reset mdl s)) (Pins 0 0 0 0 0 0 0 0 0) /\
    sim_time (do_reset mdl s) = sim_time s + 22.
Proof.
  intros Htr Ht0 Ht1.
  assert (Hdef : do_reset mdl s =
            tick (drive mdl (set_reset 0) (repeat_stmt 10 tick (reset_drive s))))
    by reflexivity.
  rewrite Hdef. clear Hdef.
  assert (H0 : tfp (reset_drive s) = Some tr) by exact Htr.
  assert (Hc0 : sim_time (reset_drive s) = sim_time s) by reflexivity.
  destruct (ChiselSpiFacts.chisel_ticks_trace mdl 10 _ _ H0) as (held & Hh & Hlen & Hall).
  pose proof (ChiselSpiFacts.chisel_ticks_bus mdl 10 (reset_drive s)) as Hbus.
  assert (Hc : sim_time (repeat_stmt 10 tick (reset_drive s)) = sim_time s + 20).
  { rewrite (chisel_ticks_time 10 _ _ H0); rewrite Hc0; lia. }
  revert Hh Hbus Hc. generalize (repeat_stmt 10 tick (reset_drive s)).
  intros s1 Hh Hbus Hc.
  assert (H1 : tfp (drive mdl (set_reset 0) s1) = Some (tr ++ held)) by exact Hh.
  assert (Hc1 : sim_time (drive mdl (set_reset 0) s1) = sim_time s + 20) by exact Hc.
  destruct (ChiselSpiFacts.chisel_tick_trace mdl _ _ H1) as (a & b & Ht & Ha & Hb).
  assert (Hrel : ChiselSpiFacts.same_bus (dut_pins (drive mdl (set_reset 0) s1))
                          (Pins 0 0 0 0 0 0 0 0 0)).
  { destruct (ChiselSpiFacts.chisel_same_bus_fields _ _ Hbus)
      as (_ & Hps & Hpe & Hpw & Hst & Hpa & Hpd).
    cbn in Hps, Hpe, Hpw, Hst, Hpa, Hpd.
    unfold ChiselSpiFacts.same_bus, drive, set_reset, set_clock, set_misoPadI.
    cbn [dut_pins clock reset psel penable pwrite pstrb paddr pwdata misoPadI].
    congruence. }
  exists held, [a; b]. split; [rewrite Ht, <- app_assoc; reflexivity|].
  split; [exact Hlen|]. split.
  { eapply Forall_impl; [|exact Hall]. intros x Hx.
    eapply chisel_same_bus_quiet with (c := clock (dut_pins s)) (m := 0). exact Hx. }
  split; [reflexivity|]. split.
  { repeat constructor; eapply chisel_same_bus_quiet;
      eapply ChiselSpiFacts.chisel_same_bus_trans; eauto. }
  split.
  { eapply ChiselSpiFacts.chisel_same_bus_trans;
      [apply ChiselSpiFacts.chisel_tick_bus | exact Hrel]. }
  rewrite (chisel_tick_time _ _ H1); rewrite Hc1; lia.
Qed.

Lemma chisel_write_setup_request addr data (s : state) :
  request_of (dut_pins (ChiselSpiFacts.write_setup mdl addr data s))
    = (1, 1, 0xF, addr, data).
Proof. reflexivity. Qed.

Lemma chisel_read_setup_request addr (s : state) :
  request_of (dut_pins (ChiselSpiFacts.read_setup mdl addr s))
    = (1, 0, 0xF, addr, pwdata (dut_pins s)).
Proof. reflexivity. Qed.

(** *** The trace is stamped by sample index *)

(** A sink is attached, the virtual clock is the number of samples dumped
    so far, and sample [i] carries the stamp [i] (both as [uint64_t]). *)
Definition stamped (s : state) : Prop :=
  exists tr,
    tfp s = Some tr /\
    sim_time s = stamp (List.length tr) /\
    List.map at_time tr = List.map stamp (List.seq 0 (List.length tr)).

Definition keeps_stamped (f : state -> state) : Prop :=
  forall s, stamped s -> stamped (f s).

Lemma chisel_tick_stamped : keeps_stamped tick.
Proof.
  intros s (tr & E & Ht & Hm).
  rewrite (ChiselSpiFacts.chisel_tick_attached mdl s tr E).
  eexists. split; [reflexivity|]. cbn [sim_time].
  rewrite !length_app. cbn [List.length].
  replace (List.length tr + 1 + 1)%nat with (S (S (List.length tr))) by lia.
  rewrite Ht. split.
  - rewrite !stamp_next. reflexivity.
  - rewrite !List.map_app. cbn [List.map at_time]. apply stamps_two_more. exact Hm.
Qed.

Lemma chisel_ticks_stamped n : keeps_stamped (repeat_stmt n tick).
Proof. intros s. apply repeat_stmt_keeps. exact chisel_tick_stamped. Qed.

Lemma chisel_untimed_stamped (f : state -> state) :
  (forall s, tfp (f s) = tfp s /\ sim_time (f s) = sim_time s) -> keeps_stamped f.
Proof.
  intros Hf s (tr & E & Ht & Hm). destruct (Hf s) as [Hf1 Hf2].
  exists tr. rewrite Hf1, Hf2. auto.
Qed.

Lemma chisel_seq_stamped (f g : state -> state) :
  keeps_stamped f -> keeps_stamped g -> keeps_stamped (f ;> g).
Proof. unfold keeps_stamped, seq. auto. Qed.

Lemma chisel_check_stamped name e a m : keeps_stamped (check mdl name e a m).
Proof.
  apply chisel_untimed_stamped. intros s. unfold check.
  destruct (Z.land a m =? Z.land e m); split; reflexivity.
Qed.

Ltac stamp_steps_with leaf :=
  lazymatch goal with
  | |- keeps_stamped (_ ;> _) =>
      apply chisel_seq_stamped; [stamp_steps_with leaf | stamp_steps_with leaf]
  | |- keeps_stamped (repeat_stmt _ _) => apply chisel_ticks_stamped
  | |- keeps_stamped (check _ _ _ _ _) => apply chisel_check_stamped
  | |- _ => first [ exact chisel_tick_stamped | leaf
                  | apply chisel_untimed_stamped; intros ?; split; reflexivity ]
  end.

Lemma chisel_exec_stamped (f : state -> state) :
  keeps_stamped f -> hoare stamped (exec f) (fun _ => stamped).
Proof. intros Hf. apply hoare_exec. exact Hf. Qed.

Lemma chisel_gets_stamped {A : Type} (f : state -> A) :
  hoare stamped (gets f) (fun _ => stamped).
Proof. eapply hoare_post; [apply hoare_gets|]. intros a s [_ H]. exact H. Qed.

Lemma chisel_ret_stamped {A : Type} (a : A) :
  hoare stamped (ret a) (fun _ => stamped).
Proof. eapply hoare_post; [apply hoare_ret|]. intros r s [_ H]. exact H. Qed.

Ltac stamp_steps := stamp_steps_with fail.

Lemma chisel_do_reset_stamped : keeps_stamped (do_reset mdl).
Proof. unfold do_reset. stamp_steps. Qed.

Lemma chisel_wait_stamped (fuel : nat) (s s' : state) :
  stamped s -> wait_pready mdl fuel s = Some s' -> stamped s'.
Proof.
  revert s. induction fuel as [|f IH]; intros s Hs; [discriminate|].
  cbn [wait_pready]. destruct (pready mdl (dut_model (tick s)) =? 0).
  - apply IH. apply chisel_tick_stamped. exact Hs.
  - intros [= <-]. apply chisel_tick_stamped. exact Hs.
Qed.

Ltac stamp_prog :=
  lazymatch goal with
  | |- hoare _ (bind _ _) _ =>
      eapply hoare_bind; [stamp_prog | intros ?; cbv beta zeta; stamp_prog]
  | |- hoare _ (exec _) _ =>
      apply chisel_exec_stamped;
      stamp_steps_with ltac:(exact chisel_do_reset_stamped)
  | |- hoare _ (run (wait_pready _ _)) _ =>
      apply (hoare_run stamped stamped); exact (chisel_wait_stamped _)
  | |- hoare _ (gets _) _ => apply chisel_gets_stamped
  | |- hoare _ (ret _) _ => apply chisel_ret_stamped
  end.

Lemma chisel_apb_write_stamped fuel addr data :
  hoare stamped (apb_write mdl fuel addr data) (fun _ => stamped).
Proof. unfold apb_write. stamp_prog. Qed.

Lemma chisel_apb_read_stamped fuel addr :
  hoare stamped (apb_read mdl fuel addr) (fun _ => stamped).
Proof. unfold apb_read. stamp_prog. Qed.

Ltac stamp_main :=
  lazymatch goal with
  | |- hoare _ (bind _ _) _ =>
      eapply hoare_bind; [stamp_main | intros ?; cbv beta zeta; stamp_main]
  | |- hoare _ (apb_write _ _ _ _) _ => apply chisel_apb_write_stamped
  | |- hoare _ (apb_read _ _ _) _ => apply chisel_apb_read_stamped
  | |- _ => stamp_prog
  end.

Lemma chisel_spi_transfer_stamped fuel tx len div :
  hoare stamped (spi_transfer mdl fuel tx len div) (fun _ => stamped).
Proof. unfold spi_transfer. cbv zeta. stamp_main. Qed.

Lemma chisel_main_stamped fuel code (s : state) :
  main mdl fuel = Some (code, s) -> stamped s.
Proof.
  intros H.
  assert (Hb : hoare stamped (main_body mdl fuel) (fun _ => stamped)).
  { unfold main_body. cbv zeta.
    repeat lazymatch goal with
    | |- hoare _ (bind _ _) _ => eapply hoare_bind; [| intros ?; cbv beta zeta]
    | |- hoare _ (spi_transfer _ _ _ _ _) _ => apply chisel_spi_transfer_stamped
    | |- _ => stamp_main
    end. }
  apply (Hb (initial_state mdl) code s); [|exact H].
  exists []. repeat split.
Qed.

(** *** Without a trace sink *)

Lemma chisel_ticks_detached (k : nat) (s : state) :
  tfp s = None ->
  tfp (repeat_stmt k tick s) = None /\
  sim_time (repeat_stmt k tick s) = sim_time s.
Proof.
  intros E. induction k as [|k IH]; [auto|].
  destruct IH as [IH1 IH2]. rewrite repeat_stmt_succ.
  rewrite (ChiselSpiFacts.chisel_tick_detached mdl _ IH1). cbn [tfp sim_time]. auto.
Qed.

End Facts.
End ChiselSpiMore.

(** ** [sim_bitrev_spi.cpp] *)

Module BitrevSpiMore.
Import BitrevSpi.

(** *** [bit_reverse] *)

Definition bit_reverse_ok (b : Z) : bool :=
  let r := bit_reverse b in
  (0 <=? r) && (r <? 256) && (bit_reverse r =? b)
  && forallb (fun i => Bool.eqb (Z.testbit r i) (Z.testbit b (7 - i)))
             [0; 1; 2; 3; 4; 5; 6; 7].

Lemma bit_reverse_all_bytes :
  forallb bit_reverse_ok (List.map Z.of_nat (List.seq 0 256)) = true.
Proof. vm_compute. reflexivity. Qed.

Lemma bit_reverse_byte (b : Z) : 0 <= b < 256 -> bit_reverse_ok b = true.
Proof.
  intros Hb.
  pose proof (proj1 (forallb_forall _ _) bit_reverse_all_bytes) as H.
  apply H. apply in_map_iff. exists (Z.to_nat b). split; [lia|].
  apply in_seq. lia.
Qed.

Lemma bit_reverse_range (b : Z) :
  0 <= b < 256 -> 0 <= bit_reverse b < 256.
Proof.
  intros Hb. pose proof (bit_reverse_byte b Hb) as H.
  unfold bit_reverse_ok in H. cbv zeta in H.
  apply andb_prop in H. destruct H as [H _].
  apply andb_prop in H. destruct H as [H _].
  apply andb_prop in H. lia.
Qed.

Section Facts.
Context (mdl : Model).
Abbreviation state := (state mdl).
Abbreviation sample := (sample mdl).
Abbreviation tick := (tick mdl).

(** What only [check] and [printf] may touch. *)
Definition ledger (s : state) : Z * Z * list string :=
  (test_pass s, test_fail s, stdout s).

Lemma bitrev_tick_ledger (s : state) : ledger (tick s) = ledger s.
Proof.
  destruct (tfp s) as [tr|] eqn:E.
  - rewrite (BitrevSpiFacts.bitrev_tick_attached mdl s tr E). reflexivity.
  - rewrite (BitrevSpiFacts.bitrev_tick_detached mdl s E). reflexivity.
Qed.

Lemma bitrev_ticks_ledger (n : nat) (s : state) :
  ledger (repeat_stmt n tick s) = ledger s.
Proof.
  induction n as [|n IH]; [reflexivity|].
  rewrite repeat_stmt_succ, bitrev_tick_ledger. exact IH.
Qed.

Lemma bitrev_drive_ledger f (s : state) : ledger (drive mdl f s) = ledger s.
Proof. reflexivity. Qed.

Lemma bitrev_seq_ledger (f g : state -> state) :
  (forall s, ledger (f s) = ledger s) ->
  (forall s, ledger (g s) = ledger s) ->
  forall s, ledger ((f ;> g) s) = ledger s.
Proof. intros Hf Hg s. unfold seq. rewrite Hg. apply Hf. Qed.

Ltac keeps_ledger :=
  first [ exact bitrev_tick_ledger
        | exact (bitrev_ticks_ledger _)
        | exact (bitrev_drive_ledger _)
        | apply bitrev_seq_ledger; keeps_ledger ].

Lemma bitrev_do_reset_ledger (s : state) : ledger (do_reset mdl s) = ledger s.
Proof. revert s. unfold do_reset. keeps_ledger. Qed.

Lemma bitrev_wait_ledger (fuel : nat) (s s' : state) :
  wait_pready mdl fuel s = Some s' -> ledger s' = ledger s.
Proof.
  revert s. induction fuel as [|f IH]; intros s; [discriminate|].
  cbn [wait_pready]. destruct (pready mdl (dut_model (tick s)) =? 0).
  - intros H. rewrite (IH _ H). apply bitrev_tick_ledger.
  - intros [= <-]. apply bitrev_tick_ledger.
Qed.

(** A statement that leaves the ledger alone. *)
Definition quiet {A : Type} (c : state -> option (A * state)) : Prop :=
  forall s r s', c s = Some (r, s') -> ledger s' = ledger s.

Lemma bitrev_quiet_bind {A B : Type} (c : state -> option (A * state))
    (k : A -> state -> option (B * state)) :
  quiet c -> (forall a, quiet (k a)) -> quiet (bind c k).
Proof.
  intros Hc Hk s r s'. unfold bind.
  destruct (c s) as [[a s1]|] eqn:E; [|discriminate].
  intros H. rewrite (Hk a _ _ _ H). exact (Hc _ _ _ E).
Qed.

Lemma bitrev_quiet_exec (f : state -> state) :
  (forall s, ledger (f s) = ledger s) -> quiet (exec f).
Proof. intros Hf s r s' E. unfold exec in E. inversion E; subst. apply Hf. Qed.

Lemma bitrev_quiet_run (c : state -> option state) :
  (forall s s', c s = Some s' -> ledger s' = ledger s) -> quiet (run c).
Proof.
  intros Hc s r s'. unfold run. destruct (c s) as [s1|] eqn:E; [|discriminate].
  intros E'. inversion E'; subst. exact (Hc _ _ E).
Qed.

Lemma bitrev_quiet_gets {A : Type} (f : state -> A) : quiet (gets f).
Proof. intros s r s' E. unfold gets in E. inversion E; subst. reflexivity. Qed.

Lemma bitrev_quiet_ret {A : Type} (a : A) : quiet (ret a : state -> _).
Proof. intros s r s' E. unfold ret in E. inversion E; subst. reflexivity. Qed.

Ltac keeps_quiet :=
  lazymatch goal with
  | |- quiet (bind _ _) =>
      apply bitrev_quiet_bind; [keeps_quiet | intros ?; cbv beta; keeps_quiet]
  | |- quiet (exec _) => apply bitrev_quiet_exec; keeps_ledger
  | |- quiet (run (wait_pready _ _)) =>
      apply bitrev_quiet_run; exact (bitrev_wait_ledger _)
  | |- quiet (gets _) => apply bitrev_quiet_gets
  | |- quiet (ret _) => apply bitrev_quiet_ret
  end.

Lemma bitrev_apb_write_quiet fuel addr data : quiet (apb_write mdl fuel addr data).
Proof. unfold apb_write. keeps_quiet. Qed.

Lemma bitrev_apb_read_quiet fuel addr : quiet (apb_read mdl fuel addr).
Proof. unfold apb_read. keeps_quiet. Qed.

Lemma bitrev_transfer_quiet fuel tx div : quiet (bitrev_transfer mdl fuel tx div).
Proof.
  unfold bitrev_transfer. cbv zeta.
  repeat (apply bitrev_quiet_bind; [apply bitrev_apb_write_quiet | intros ?]).
  apply bitrev_quiet_bind; [apply bitrev_apb_read_quiet | intros ?].
  apply bitrev_quiet_ret.
Qed.

(** The value handed back by [bitrev_transfer] is a byte. *)
Lemma bitrev_transfer_byte fuel tx div (s : state) rx (s' : state) :
  bitrev_transfer mdl fuel tx div s = Some (rx, s') -> 0 <= rx < 256.
Proof.
  unfold bitrev_transfer. cbv zeta.
  repeat (unfold bind at 1;
          destruct (apb_write mdl fuel _ _ _) as [[[] ?]|]; [|discriminate]).
  unfold bind at 1.
  destruct (apb_read mdl fuel _ _) as [[v ?]|]; [|discriminate].
  unfold ret. intros [= <- _].
  unfold Cxx.to_uint8, Cxx.wrap. apply Z.mod_pos_bound. reflexivity.
Qed.

(** *** How many checks have been made *)

Definition counted (k : Z) (s : state) : Prop :=
  0 <= test_pass s /\ 0 <= test_fail s /\ test_pass s + test_fail s = k.

Definition steps (k k' : Z) (f : state -> state) : Prop :=
  forall s, counted k s -> counted k' (f s).

Lemma bitrev_ledger_counted k (s s' : state) :
  ledger s' = ledger s -> counted k s -> counted k s'.
Proof. unfold ledger, counted. intros [= -> -> _]. auto. Qed.

Lemma bitrev_steps_seq k k1 k2 (f g : state -> state) :
  steps k k1 f -> steps k1 k2 g -> steps k k2 (f ;> g).
Proof. unfold steps, seq. auto. Qed.

Lemma bitrev_steps_printf k line : steps k k (printf mdl line).
Proof. intros s H. exact H. Qed.

Lemma bitrev_steps_quiet k (f : state -> state) :
  (forall s, ledger (f s) = ledger s) -> steps k k f.
Proof. intros Hf s. apply bitrev_ledger_counted, Hf. Qed.

Lemma bitrev_steps_check k name e a m : steps k (k + 1) (check mdl name e a m).
Proof.
  intros s (Hp & Hf & Hk). unfold counted.
  rewrite BitrevSpiFacts.bitrev_check_effect. cbn [test_pass test_fail].
  destruct (Z.land a m =? Z.land e m); lia.
Qed.

Lemma bitrev_quiet_counted {A : Type} k (c : state -> option (A * state)) :
  quiet c -> hoare (counted k) c (fun _ => counted k).
Proof.
  intros Hq s a s' Hs E. exact (bitrev_ledger_counted _ _ _ (Hq _ _ _ E) Hs).
Qed.

Lemma bitrev_gets_counted {A : Type} k (f : state -> A) :
  hoare (counted k) (gets f) (fun _ => counted k).
Proof. eapply hoare_post; [apply hoare_gets|]. intros a s [_ H]. exact H. Qed.

Lemma bitrev_exec_counted k k' (f : state -> state) :
  steps k k' f -> hoare (counted k) (exec f) (fun _ => counted k').
Proof. intros Hf. apply hoare_exec. exact Hf. Qed.

(** A loop whose body makes one check per element makes as many checks as
    there are elements. *)
Lemma bitrev_for_each_counted {A : Type} (l : list A)
    (body : A -> state -> option (unit * state)) :
  (forall x j, hoare (counted j) (body x) (fun _ => counted (j + 1))) ->
  forall k, hoare (counted k) (for_each mdl l body)
                  (fun _ => counted (k + Z.of_nat (List.length l))).
Proof.
  intros Hb. induction l as [|x l IH]; intros k.
  - cbn [for_each]. intros s r s' Hs E. unfold ret in E. inversion E; subst.
    cbn [List.length]. replace (k + Z.of_nat 0) with k by lia. exact Hs.
  - cbn [for_each]. eapply hoare_bind; [apply Hb|]. intros u. cbv beta.
    eapply hoare_post; [apply IH|]. cbv beta. intros u' s Hs.
    cbn [List.length]. replace (k + Z.of_nat (S (List.length l)))
      with (k + 1 + Z.of_nat (List.length l)) by lia.
    exact Hs.
Qed.

Ltac count_steps :=
  lazymatch goal with
  | |- steps _ _ (_ ;> _) => eapply bitrev_steps_seq; [count_steps | count_steps]
  | |- steps _ _ (check _ _ _ _ _) => apply bitrev_steps_check
  | |- steps _ _ (printf _ _) => apply bitrev_steps_printf
  | |- steps _ _ (do_reset _) =>
      apply bitrev_steps_quiet; exact bitrev_do_reset_ledger
  | |- steps _ _ (repeat_stmt _ _) =>
      apply bitrev_steps_quiet; exact (bitrev_ticks_ledger _)
  end.

Ltac count_main :=
  lazymatch goal with
  | |- hoare _ (bind _ _) _ =>
      eapply hoare_bind; [count_main | intros ?; cbv beta zeta; count_main]
  | |- hoare _ (exec _) _ => eapply bitrev_exec_counted; count_steps
  | |- hoare _ (gets (exit_status _)) _ => apply hoare_gets
  | |- hoare _ (gets _) _ => apply bitrev_gets_counted
  | |- hoare _ (bitrev_transfer _ _ _ _) _ =>
      apply bitrev_quiet_counted, bitrev_transfer_quiet
  | |- hoare _ (for_each _ _ _) _ =>
      apply bitrev_for_each_counted; intros ? ?; cbv beta zeta; count_main
  end.

(** [main] makes the warm-up check and one check per entry of [tests]. *)
Lemma bitrev_main_counts fuel :
  hoare (counted 0) (main_body mdl fuel)
        (fun code s => code = exit_status mdl s /\ counted 9 s).
Proof.
  eapply hoare_post.
  - unfold main_body. cbv zeta. count_main.
  - cbv beta. intros code s [Hc Hk]. split; [exact Hc|exact Hk].
Qed.

(** *** The trace is stamped by sample index *)

(** A sink is attached, the virtual clock is the number of samples dumped
    so far, and sample [i] carries the stamp [i] (both as [uint64_t]). *)
Definition stamped (s : state) : Prop :=
  exists tr,
    tfp s = Some tr /\
    sim_time s = stamp (List.length tr) /\
    List.map at_time tr = List.map stamp (List.seq 0 (List.length tr)).

Definition keeps_stamped (f : state -> state) : Prop :=
  forall s, stamped s -> stamped (f s).

Lemma bitrev_tick_stamped : keeps_stamped tick.
Proof.
  intros s (tr & E & Ht & Hm).
  rewrite (BitrevSpiFacts.bitrev_tick_attached mdl s tr E).
  eexists. split; [reflexivity|]. cbn [sim_time].
  rewrite !length_app. cbn [List.length].
  replace (List.length tr + 1 + 1)%nat with (S (S (List.length tr))) by lia.
  rewrite Ht. split.
  - rewrite !stamp_next. reflexivity.
  - rewrite !List.map_app. cbn [List.map at_time]. apply stamps_two_more. exact Hm.
Qed.

Lemma bitrev_ticks_stamped n : keeps_stamped (repeat_stmt n tick).
Proof. intros s. apply repeat_stmt_keeps. exact bitrev_tick_stamped. Qed.

Lemma bitrev_untimed_stamped (f : state -> state) :
  (forall s, tfp (f s) = tfp s /\ sim_time (f s) = sim_time s) -> keeps_stamped f.
Proof.
  intros Hf s (tr & E & Ht & Hm). destruct (Hf s) as [Hf1 Hf2].
  exists tr. rewrite Hf1, Hf2. auto.
Qed.

Lemma bitrev_seq_stamped (f g : state -> state) :
  keeps_stamped f -> keeps_stamped g -> keeps_stamped (f ;> g).
Proof. unfold keeps_stamped, seq. auto. Qed.

Lemma bitrev_check_stamped name e a m : keeps_stamped (check mdl name e a m).
Proof.
  apply bitrev_untimed_stamped. intros s. unfold check.
  destruct (Z.land a m =? Z.land e m); split; reflexivity.
Qed.

Ltac stamp_steps_with leaf :=
  lazymatch goal with
  | |- keeps_stamped (_ ;> _) =>
      apply bitrev_seq_stamped; [stamp_steps_with leaf | stamp_steps_with leaf]
  | |- keeps_stamped (repeat_stmt _ _) => apply bitrev_ticks_stamped
  | |- keeps_stamped (check _ _ _ _ _) => apply bitrev_check_stamped
  | |- _ => first [ exact bitrev_tick_stamped | leaf
                  | apply bitrev_untimed_stamped; intros ?; split; reflexivity ]
  end.

Lemma bitrev_exec_stamped (f : state -> state) :
  keeps_stamped f -> hoare stamped (exec f) (fun _ => stamped).
Proof. intros Hf. apply hoare_exec. exact Hf. Qed.

Lemma bitrev_gets_stamped {A : Type} (f : state -> A) :
  hoare stamped (gets f) (fun _ => stamped).
Proof. eapply hoare_post; [apply hoare_gets|]. intros a s [_ H]. exact H. Qed.

Lemma bitrev_ret_stamped {A : Type} (a : A) :
  hoare stamped (ret a) (fun _ => stamped).
Proof. eapply hoare_post; [apply hoare_ret|]. intros r s [_ H]. exact H. Qed.

Lemma bitrev_do_reset_stamped : keeps_stamped (do_reset mdl).
Proof. unfold do_reset. stamp_steps_with fail. Qed.

Lemma bitrev_wait_stamped (fuel : nat) (s s' : state) :
  stamped s -> wait_pready mdl fuel s = Some s' -> stamped s'.
Proof.
  revert s. induction fuel as [|f IH]; intros s Hs; [discriminate|].
  cbn [wait_pready]. destruct (pready mdl (dut_model (tick s)) =? 0).
  - apply IH. apply bitrev_tick_stamped. exact Hs.
  - intros [= <-]. apply bitrev_tick_stamped. exact Hs.
Qed.

Ltac stamp_prog :=
  lazymatch goal with
  | |- hoare _ (bind _ _) _ =>
      eapply hoare_bind; [stamp_prog | intros ?; cbv beta zeta; stamp_prog]
  | |- hoare _ (exec _) _ =>
      apply bitrev_exec_stamped;
      stamp_steps_with ltac:(exact bitrev_do_reset_stamped)
  | |- hoare _ (run (wait_pready _ _)) _ =>
      apply (hoare_run stamped stamped); exact (bitrev_wait_stamped _)
  | |- hoare _ (gets _) _ => apply bitrev_gets_stamped
  | |- hoare _ (ret _) _ => apply bitrev_ret_stamped
  end.

Lemma bitrev_apb_write_stamped fuel addr data :
  hoare stamped (apb_write mdl fuel addr data) (fun _ => stamped).
Proof. unfold apb_write. stamp_prog. Qed.

Lemma bitrev_apb_read_stamped fuel addr :
  hoare stamped (apb_read mdl fuel addr) (fun _ => stamped).
Proof. unfold apb_read. stamp_prog. Qed.

Ltac stamp_main :=
  lazymatch goal with
  | |- hoare _ (bind _ _) _ =>
      eapply hoare_bind; [stamp_main | intros ?; cbv beta zeta; stamp_main]
  | |- hoare _ (apb_write _ _ _ _) _ => apply bitrev_apb_write_stamped
  | |- hoare _ (apb_read _ _ _) _ => apply bitrev_apb_read_stamped
  | |- _ => stamp_prog
  end.

Lemma bitrev_transfer_stamped fuel tx div :
  hoare stamped (bitrev_transfer mdl fuel tx div) (fun _ => stamped).
Proof. unfold bitrev_transfer. cbv zeta. stamp_main. Qed.

Lemma bitrev_for_each_stamped {A : Type} (l : list A)
    (body : A -> state -> option (unit * state)) :
  (forall x, hoare stamped (body x) (fun _ => stamped)) ->
  hoare stamped (for_each mdl l body) (fun _ => stamped).
Proof.
  intros Hb. induction l as [|x l IH]; cbn [for_each].
  - apply bitrev_ret_stamped.
  - eapply hoare_bind; [apply Hb|]. intros u. exact IH.
Qed.

Lemma bitrev_main_stamped fuel code (s : state) :
  main mdl fuel = Some (code, s) -> stamped s.
Proof.
  intros H.
  assert (Hb : hoare stamped (main_body mdl fuel) (fun _ => stamped)).
  { unfold main_body. cbv zeta.
    repeat lazymatch goal with
    | |- hoare _ (bind _ _) _ => eapply hoare_bind; [| intros ?; cbv beta zeta]
    | |- hoare _ (bitrev_transfer _ _ _ _) _ => apply bitrev_transfer_stamped
    | |- hoare _ (for_each _ _ _) _ =>
        apply bitrev_for_each_stamped; intros ?; cbv beta zeta
    | |- _ => stamp_main
    end. }
  apply (Hb (initial_state mdl) code s); [|exact H].
  exists []. repeat split.
Qed.

(** *** Without a trace sink *)

Lemma bitrev_ticks_detached (k : nat) (s : state) :
  tfp s = None ->
  tfp (repeat_stmt k tick s) = None /\
  sim_time (repeat_stmt k tick s) = sim_time s.
Proof.
  intros E. induction k as [|k IH]; [auto|].
  destruct IH as [IH1 IH2]. rewrite repeat_stmt_succ.
  rewrite (BitrevSpiFacts.bitrev_tick_detached mdl _ IH1). cbn [tfp sim_time]. auto.
Qed.

End Facts.
End BitrevSpiMore.

(** ** [sim_spi_top.cpp] *)

Module SpiTopMore.
Import SpiTop.

Section Facts.
Context (mdl : Model).
Abbreviation state := (state mdl).
Abbreviation sample := (sample mdl).
Abbreviation tick := (tick mdl).

(** What only [check] and [printf] may touch, and the two counters alone. *)
Definition ledger (s : state) : Z * Z * list string :=
  (test_pass s, test_fail s, stdout s).
Definition tally (s : state) : Z * Z := (test_pass s, test_fail s).

Lemma spitop_tick_ledger (s : state) : ledger (tick s) = ledger s.
Proof.
  destruct (tfp s) as [tr|] eqn:E.
  - rewrite (SpiTopFacts.spitop_tick_attached mdl s tr E). reflexivity.
  - rewrite (SpiTopFacts.spitop_tick_detached mdl s E). reflexivity.
Qed.

Lemma spitop_ticks_ledger (n : nat) (s : state) :
  ledger (repeat_stmt n tick s) = ledger s.
Proof.
  induction n as [|n IH]; [reflexivity|].
  rewrite repeat_stmt_succ, spitop_tick_ledger. exact IH.
Qed.

Lemma spitop_drive_ledger f (s : state) : ledger (drive mdl f s) = ledger s.
Proof. reflexivity. Qed.

Lemma spitop_seq_ledger (f g : state -> state) :
  (forall s, ledger (f s) = ledger s) ->
  (forall s, ledger (g s) = ledger s) ->
  forall s, ledger ((f ;> g) s) = ledger s.
Proof. intros Hf Hg s. unfold seq. rewrite Hg. apply Hf. Qed.

Ltac keeps_ledger :=
  first [ exact spitop_tick_ledger
        | exact (spitop_ticks_ledger _)
        | exact (spitop_drive_ledger _)
        | apply spitop_seq_ledger; keeps_ledger ].

Lemma spitop_reset_ledger (s : state) : ledger (reset mdl s) = ledger s.
Proof. revert s. unfold reset. keeps_ledger. Qed.

Lemma spitop_wait_ledger (fuel : nat) (s s' : state) :
  wait_ack mdl fuel s = Some s' -> ledger s' = ledger s.
Proof.
  revert s. induction fuel as [|f IH]; intros s; [discriminate|].
  cbn [wait_ack]. destruct (wb_ack_o mdl (dut_model (tick s)) =? 0).
  - intros H. rewrite (IH _ H). apply spitop_tick_ledger.
  - intros [= <-]. apply spitop_tick_ledger.
Qed.

(** A statement that leaves an observation of the state alone. *)
Definition keeps {O A : Type} (obs : state -> O)
    (c : state -> option (A * state)) : Prop :=
  forall s r s', c s = Some (r, s') -> obs s' = obs s.

Lemma spitop_keeps_bind {O A B : Type} (obs : state -> O)
    (c : state -> option (A * state)) (k : A -> state -> option (B * state)) :
  keeps obs c -> (forall a, keeps obs (k a)) -> keeps obs (bind c k).
Proof.
  intros Hc Hk s r s'. unfold bind.
  destruct (c s) as [[a s1]|] eqn:E; [|discriminate].
  intros H. rewrite (Hk a _ _ _ H). exact (Hc _ _ _ E).
Qed.

Lemma spitop_keeps_exec {O : Type} (obs : state -> O) (f : state -> state) :
  (forall s, obs (f s) = obs s) -> keeps obs (exec f).
Proof. intros Hf s r s' E. unfold exec in E. inversion E; subst. apply Hf. Qed.

Lemma spitop_keeps_run {O : Type} (obs : state -> O) (c : state -> option state) :
  (forall s s', c s = Some s' -> obs s' = obs s) -> keeps obs (run c).
Proof.
  intros Hc s r s'. unfold run. destruct (c s) as [s1|] eqn:E; [|discriminate].
  intros E'. inversion E'; subst. exact (Hc _ _ E).
Qed.

Lemma spitop_keeps_gets {O A : Type} (obs : state -> O) (f : state -> A) :
  keeps obs (gets f).
Proof. intros s r s' E. unfold gets in E. inversion E; subst. reflexivity. Qed.

Lemma spitop_keeps_ret {O A : Type} (obs : state -> O) (a : A) :
  keeps obs (ret a : state -> _).
Proof. intros s r s' E. unfold ret in E. inversion E; subst. reflexivity. Qed.

Lemma spitop_keeps_tally {A : Type} (c : state -> option (A * state)) :
  keeps ledger c -> keeps tally c.
Proof.
  intros Hc s r s' E. pose proof (Hc s r s' E) as H.
  unfold ledger in H. unfold tally. congruence.
Qed.

Ltac keeps_quiet :=
  lazymatch goal with
  | |- keeps _ (bind _ _) =>
      apply spitop_keeps_bind; [keeps_quiet | intros ?; cbv beta; keeps_quiet]
  | |- keeps _ (exec _) => apply spitop_keeps_exec; keeps_ledger
  | |- keeps _ (run (wait_ack _ _)) =>
      apply spitop_keeps_run; exact (spitop_wait_ledger _)
  | |- keeps _ (gets _) => apply spitop_keeps_gets
  | |- keeps _ (ret _) => apply spitop_keeps_ret
  end.

Lemma wb_write_quiet fuel addr data : keeps ledger (wb_write mdl fuel addr data).
Proof. unfold wb_write. keeps_quiet. Qed.

Lemma wb_read_quiet fuel addr : keeps ledger (wb_read mdl fuel addr).
Proof. unfold wb_read. keeps_quiet. Qed.

(** The poll loop may print its error line; it counts nothing. *)
Lemma wait_xfer_done_loop_tally (iters fuel : nat) (timeout : Z) :
  keeps tally (wait_xfer_done_loop mdl iters fuel timeout).
Proof.
  revert timeout. induction iters as [|i IH]; intros timeout.
  - intros s r s' E. discriminate E.
  - cbn [wait_xfer_done_loop]. destruct (timeout >? 0).
    + apply spitop_keeps_bind; [apply spitop_keeps_tally, wb_read_quiet|].
      intros ctrl. destruct (Z.land ctrl CTRL_GO =? 0).
      * apply spitop_keeps_ret.
      * apply IH.
    + apply spitop_keeps_bind; [|intros ?; apply spitop_keeps_ret].
      apply spitop_keeps_exec. reflexivity.
Qed.

Lemma spitop_spi_transfer_tally fuel tx len div :
  keeps tally (spi_transfer mdl fuel tx len div).
Proof.
  unfold spi_transfer. cbv zeta.
  repeat (apply spitop_keeps_bind;
          [apply spitop_keeps_tally, wb_write_quiet | intros ?]).
  apply spitop_keeps_bind; [apply wait_xfer_done_loop_tally | intros ?].
  apply spitop_keeps_tally, wb_read_quiet.
Qed.

(** *** The shape of a Wishbone cycle *)

Lemma wait_ack_first (n fuel : nat) (s : state) :
  (forall j, (1 <= j <= n)%nat ->
             wb_ack_o mdl (dut_model (repeat_stmt j tick s)) = 0) ->
  wb_ack_o mdl (dut_model (repeat_stmt (Datatypes.S n) tick s)) <> 0 ->
  (n < fuel)%nat ->
  wait_ack mdl fuel s = Some (repeat_stmt (Datatypes.S n) tick s).
Proof.
  revert fuel s. induction n as [|n IH]; intros fuel s Hlow Hhigh Hfuel.
  - destruct fuel as [|f]; [lia|]. cbn [wait_ack repeat_stmt] in *.
    destruct (Z.eqb_spec (wb_ack_o mdl (dut_model (tick s))) 0); [contradiction|].
    reflexivity.
  - destruct fuel as [|f]; [lia|].
    cbn [wait_ack].
    pose proof (Hlow 1%nat ltac:(lia)) as H1. cbn [repeat_stmt] in H1. rewrite H1.
    rewrite Z.eqb_refl.
    change (repeat_stmt (Datatypes.S (Datatypes.S n)) tick s)
      with (repeat_stmt (Datatypes.S n) tick (tick s)).
    apply IH; [|exact Hhigh|lia].
    intros j Hj. apply (Hlow (Datatypes.S j)). lia.
Qed.

Lemma spitop_tick_time (s : state) (tr : list sample) :
  tfp s = Some tr -> 0 <= sim_time s -> sim_time s + 2 < 2 ^ 64 ->
  sim_time (tick s) = sim_time s + 2.
Proof.
  intros E H0 H1. rewrite (SpiTopFacts.spitop_tick_attached mdl s tr E).
  cbn [sim_time]. unfold Cxx.to_uint64, Cxx.wrap.
  rewrite (Z.mod_small (sim_time s + 1)) by lia.
  rewrite Z.mod_small by lia. lia.
Qed.

Lemma spitop_ticks_time (k : nat) (s : state) (tr : list sample) :
  tfp s = Some tr -> 0 <= sim_time s -> sim_time s + 2 * Z.of_nat k < 2 ^ 64 ->
  sim_time (repeat_stmt k tick s) = sim_time s + 2 * Z.of_nat k.
Proof.
  intros E H0. induction k as [|k IH]; intros H1.
  - simpl. lia.
  - rewrite repeat_stmt_succ.
    destruct (SpiTopFacts.spitop_ticks_trace mdl k s tr E) as (l & Hl & _).
    rewrite (spitop_tick_time _ _ Hl); rewrite IH; lia.
Qed.

Definition write_request (addr data : Z) : state -> state :=
  drive mdl (set_wb_adr_i addr) ;> drive mdl (set_wb_dat_i data) ;>
  drive mdl (set_wb_sel_i 0xF) ;> drive mdl (set_wb_we_i 1) ;>
  drive mdl (set_wb_stb_i 1) ;> drive mdl (set_wb_cyc_i 1).
Definition read_request (addr : Z) : state -> state :=
  drive mdl (set_wb_adr_i addr) ;> drive mdl (set_wb_sel_i 0xF) ;>
  drive mdl (set_wb_we_i 0) ;> drive mdl (set_wb_stb_i 1) ;>
  drive mdl (set_wb_cyc_i 1).
Definition write_release : state -> state :=
  drive mdl (set_wb_stb_i 0) ;> drive mdl (set_wb_cyc_i 0) ;>
  drive mdl (set_wb_we_i 0).
Definition read_release : state -> state :=
  drive mdl (set_wb_stb_i 0) ;> drive mdl (set_wb_cyc_i 0).

Lemma wb_write_unfold fuel addr data (s : state) :
  wb_write mdl fuel addr data s =
    match wait_ack mdl fuel (write_request addr data s) with
    | Some s2 => Some (tt, tick (write_release s2))
    | None => None
    end.
Proof.
  unfold wb_write, bind, exec, run, write_request, write_release, seq.
  destruct (wait_ack mdl fuel _); reflexivity.
Qed.

Lemma wb_read_unfold fuel addr (s : state) :
  wb_read mdl fuel addr s =
    match wait_ack mdl fuel (read_request addr s) with
    | Some s2 => Some (wb_dat_o mdl (dut_model s2), tick (read_release s2))
    | None => None
    end.
Proof.
  unfold wb_read, bind, exec, run, gets, ret, read_request, read_release, seq.
  destruct (wait_ack mdl fuel _); reflexivity.
Qed.

(** A cycle whose request is driven by [request] and dropped by [release]:
    the request is held over the [n + 1] edges up to the acknowledge, then
    one edge runs with the released pins. *)
Lemma wb_cycle_shape (request release : state -> state) (n fuel : nat)
    (s : state) (tr : list sample) :
  tfp (request s) = Some tr -> sim_time (request s) = sim_time s ->
  (forall s2, tfp (release s2) = tfp s2) ->
  (forall s2, sim_time (release s2) = sim_time s2) ->
  (forall j, (1 <= j <= n)%nat ->
     wb_ack_o mdl (dut_model (repeat_stmt j tick (request s))) = 0) ->
  wb_ack_o mdl (dut_model (repeat_stmt (Datatypes.S n) tick (request s))) <> 0 ->
  (n < fuel)%nat ->
  0 <= sim_time s -> sim_time s + 2 * (Z.of_nat n + 2) < 2 ^ 64 ->
  let s2 := repeat_stmt (Datatypes.S n) tick (request s) in
  wait_ack mdl fuel (request s) = Some s2 /\
  exists ph_request ph_idle,
    tfp (tick (release s2)) = Some (tr ++ ph_request ++ ph_idle) /\
    List.length ph_request = (2 * Datatypes.S n)%nat /\
    Forall (fun x => SpiTopFacts.same_bus (seen_pins x) (dut_pins (request s)))
           ph_request /\
    List.length ph_idle = 2%nat /\
    Forall (fun x => SpiTopFacts.same_bus (seen_pins x) (dut_pins (release s2)))
           ph_idle /\
    SpiTopFacts.same_bus (dut_pins (tick (release s2))) (dut_pins (release s2)) /\
    sim_time (tick (release s2)) = sim_time s + 2 * (Z.of_nat n + 2).
Proof.
  intros Htr Htime Hrel_tfp Hrel_time Hlow Hhigh Hfuel H0 H1 s2.
  split; [apply wait_ack_first; assumption|].
  destruct (SpiTopFacts.spitop_ticks_trace mdl (Datatypes.S n) _ _ Htr)
    as (l & Hl & Hlen & Hall).
  fold s2 in Hl.
  assert (Hc2 : sim_time s2 = sim_time s + 2 * Z.of_nat (Datatypes.S n)).
  { unfold s2. rewrite (spitop_ticks_time _ _ _ Htr); lia. }
  assert (Hi : tfp (release s2) = Some (tr ++ l))
    by (rewrite Hrel_tfp; exact Hl).
  destruct (SpiTopFacts.spitop_tick_trace mdl _ _ Hi) as (c & d & Ht3 & Hc & Hd).
  exists l, [c; d]. split.
  { rewrite Ht3. rewrite <- !app_assoc. reflexivity. }
  split; [exact Hlen|]. split; [exact Hall|]. split; [reflexivity|].
  split; [repeat constructor; assumption|].
  split; [apply SpiTopFacts.spitop_tick_bus|].
  rewrite (spitop_tick_time _ _ Hi); rewrite Hrel_time; lia.
Qed.

(** What a trace sample shows on the Wishbone request lines. *)
Definition wb_request (addr we : Z) (x : sample) : Prop :=
  wb_cyc_i (seen_pins x) = 1 /\ wb_stb_i (seen_pins x) = 1 /\
  wb_we_i (seen_pins x) = we /\ wb_sel_i (seen_pins x) = 0xF /\
  wb_adr_i (seen_pins x) = addr.
Definition wb_released (x : sample) : Prop :=
  wb_cyc_i (seen_pins x) = 0 /\ wb_stb_i (seen_pins x) = 0.

(** *** A device that acknowledges at once and never clears GO *)

Lemma wb_read_at_once fuel addr (s : state) :
  (forall m, wb_ack_o mdl m <> 0) -> (0 < fuel)%nat ->
  wb_read mdl fuel addr s =
    Some (wb_dat_o mdl (dut_model (tick (read_request addr s))),
          tick (read_release (tick (read_request addr s)))).
Proof.
  intros Hack Hfuel. rewrite wb_read_unfold.
  rewrite (wait_ack_first 0 fuel); [reflexivity| |apply Hack|exact Hfuel].
  intros j Hj. lia.
Qed.





(** *** How many checks have been made *)

Definition counted (k : Z) (s : state) : Prop :=
  0 <= test_pass s /\ 0 <= test_fail s /\ test_pass s + test_fail s = k.

Definition steps (k k' : Z) (f : state -> state) : Prop :=
  forall s, counted k s -> counted k' (f s).

Lemma spitop_tally_counted k (s s' : state) :
  tally s' = tally s -> counted k s -> counted k s'.
Proof. unfold tally, counted. intros [= -> ->]. auto. Qed.

Lemma spitop_steps_seq k k1 k2 (f g : state -> state) :
  steps k k1 f -> steps k1 k2 g -> steps k k2 (f ;> g).
Proof. unfold steps, seq. auto. Qed.

Lemma spitop_steps_printf k line : steps k k (printf mdl line).
Proof. intros s H. exact H. Qed.

Lemma spitop_steps_quiet k (f : state -> state) :
  (forall s, ledger (f s) = ledger s) -> steps k k f.
Proof.
  intros Hf s. apply spitop_tally_counted.
  pose proof (Hf s) as H. unfold ledger in H. unfold tally. congruence.
Qed.

Lemma spitop_check_effect name expected actual mask (s : state) :
  test_pass (check mdl name expected actual mask s)
    = (if Z.land actual mask =? Z.land expected mask
       then test_pass s + 1 else test_pass s) /\
  test_fail (check mdl name expected actual mask s)
    = (if Z.land actual mask =? Z.land expected mask
       then test_fail s else test_fail s + 1).
Proof.
  unfold check. destruct (Z.land actual mask =? Z.land expected mask);
    split; reflexivity.
Qed.

Lemma spitop_steps_check k name e a m : steps k (k + 1) (check mdl name e a m).
Proof.
  intros s (Hp & Hf & Hk). unfold counted.
  destruct (spitop_check_effect name e a m s) as [-> ->].
  destruct (Z.land a m =? Z.land e m); lia.
Qed.

Lemma spitop_keeps_counted {A : Type} k (c : state -> option (A * state)) :
  keeps tally c -> hoare (counted k) c (fun _ => counted k).
Proof.
  intros Hq s a s' Hs E. exact (spitop_tally_counted _ _ _ (Hq _ _ _ E) Hs).
Qed.

Lemma spitop_gets_counted {A : Type} k (f : state -> A) :
  hoare (counted k) (gets f) (fun _ => counted k).
Proof. eapply hoare_post; [apply hoare_gets|]. intros a s [_ H]. exact H. Qed.

Lemma spitop_exec_counted k k' (f : state -> state) :
  steps k k' f -> hoare (counted k) (exec f) (fun _ => counted k').
Proof. intros Hf. apply hoare_exec. exact Hf. Qed.

Ltac count_steps :=
  lazymatch goal with
  | |- steps _ _ (_ ;> _) => eapply spitop_steps_seq; [count_steps | count_steps]
  | |- steps _ _ (check _ _ _ _ _) => apply spitop_steps_check
  | |- steps _ _ (printf _ _) => apply spitop_steps_printf
  | |- steps _ _ (reset _) =>
      apply spitop_steps_quiet; exact spitop_reset_ledger
  | |- steps _ _ (repeat_stmt _ _) =>
      apply spitop_steps_quiet; exact (spitop_ticks_ledger _)
  end.

Ltac count_main :=
  lazymatch goal with
  | |- hoare _ (bind _ _) _ =>
      eapply hoare_bind; [count_main | intros ?; cbv beta; count_main]
  | |- hoare _ (exec _) _ => eapply spitop_exec_counted; count_steps
  | |- hoare _ (gets (exit_status _)) _ => apply hoare_gets
  | |- hoare _ (gets _) _ => apply spitop_gets_counted
  | |- hoare _ (spi_transfer _ _ _ _ _) _ =>
      apply spitop_keeps_counted, spitop_spi_transfer_tally
  | |- hoare _ (wb_write _ _ _ _) _ =>
      apply spitop_keeps_counted, spitop_keeps_tally, wb_write_quiet
  | |- hoare _ (wb_read _ _ _) _ =>
      apply spitop_keeps_counted, spitop_keeps_tally, wb_read_quiet
  end.

(** [main] makes five checks, each counted once. *)
Lemma spitop_main_counts fuel :
  hoare (counted 0) (main_body mdl fuel)
        (fun code s => code = exit_status mdl s /\ counted 5 s).
Proof.
  eapply hoare_post.
  - unfold main_body. cbv zeta. count_main.
  - cbv beta. intros code s [Hc Hk]. split; [exact Hc|exact Hk].
Qed.

(** *** What the samples of a cycle show *)

Lemma write_request_fields addr data (s : state) (x : sample) :
  SpiTopFacts.same_bus (seen_pins x) (dut_pins (write_request addr data s)) ->
  wb_request addr 1 x /\ wb_dat_i (seen_pins x) = data.
Proof.
  intros H. apply SpiTopFacts.spitop_same_bus_fields in H.
  destruct H as (_ & Hc & Hs & Hw & Hl & Ha & Hd).
  unfold wb_request. repeat split; assumption.
Qed.

Lemma read_request_fields addr (s : state) (x : sample) :
  SpiTopFacts.same_bus (seen_pins x) (dut_pins (read_request addr s)) ->
  wb_request addr 0 x /\ wb_dat_i (seen_pins x) = wb_dat_i (dut_pins s).
Proof.
  intros H. apply SpiTopFacts.spitop_same_bus_fields in H.
  destruct H as (_ & Hc & Hs & Hw & Hl & Ha & Hd).
  unfold wb_request. repeat split; assumption.
Qed.

Lemma write_release_fields (s : state) (p : pins) :
  SpiTopFacts.same_bus p (dut_pins (write_release s)) ->
  wb_cyc_i p = 0 /\ wb_stb_i p = 0 /\ wb_we_i p = 0.
Proof.
  intros H. apply SpiTopFacts.spitop_same_bus_fields in H.
  destruct H as (_ & Hc & Hs & Hw & _). repeat split; assumption.
Qed.

Lemma read_release_fields (s : state) (p : pins) :
  SpiTopFacts.same_bus p (dut_pins (read_release s)) ->
  wb_cyc_i p = 0 /\ wb_stb_i p = 0.
Proof.
  intros H. apply SpiTopFacts.spitop_same_bus_fields in H.
  destruct H as (_ & Hc & Hs & _). split; assumption.
Qed.

(** *** A transfer against a device that never clears GO *)


Lemma wb_read_returns_quiet fuel addr (s : state) :
  (forall m, wb_ack_o mdl m <> 0) -> (0 < fuel)%nat ->
  exists v s', wb_read mdl fuel addr s = Some (v, s') /\ ledger s' = ledger s.
Proof.
  intros Hack Hfuel. eexists _, _. split; [apply wb_read_at_once; assumption|].
  exact (wb_read_quiet fuel addr _ _ _ (wb_read_at_once fuel addr s Hack Hfuel)).
Qed.



(** *** What the poll loop does with the reads it makes *)

Lemma wait_ack_bus (fuel : nat) (s s' : state) :
  wait_ack mdl fuel s = Some s' ->
  SpiTopFacts.same_bus (dut_pins s') (dut_pins s).
Proof.
  revert s. induction fuel as [|f IH]; intros s; [discriminate|].
  cbn [wait_ack]. destruct (wb_ack_o mdl (dut_model (tick s)) =? 0).
  - intros H. eapply SpiTopFacts.spitop_same_bus_trans;
      [exact (IH _ H) | apply SpiTopFacts.spitop_tick_bus].
  - intros [= <-]. apply SpiTopFacts.spitop_tick_bus.
Qed.

(** The pins after a completed [wb_read(addr)]. *)
Definition read_released (addr : Z) (s : state) : Prop :=
  wb_cyc_i (dut_pins s) = 0 /\ wb_stb_i (dut_pins s) = 0 /\
  wb_we_i (dut_pins s) = 0 /\ wb_sel_i (dut_pins s) = 0xF /\
  wb_adr_i (dut_pins s) = addr.

Lemma wb_read_released fuel addr (s : state) v (s' : state) :
  wb_read mdl fuel addr s = Some (v, s') -> read_released addr s'.
Proof.
  rewrite wb_read_unfold.
  destruct (wait_ack mdl fuel (read_request addr s)) as [s2|] eqn:E; [|discriminate].
  intros [= _ <-].
  apply wait_ack_bus in E. apply SpiTopFacts.spitop_same_bus_fields in E.
  destruct E as (_ & _ & _ & Hw & Hl & Ha & _).
  change (wb_we_i (dut_pins (read_request addr s))) with 0 in Hw.
  change (wb_sel_i (dut_pins (read_request addr s))) with 0xF in Hl.
  change (wb_adr_i (dut_pins (read_request addr s))) with addr in Ha.
  pose proof (SpiTopFacts.spitop_tick_bus mdl (read_release s2)) as Hb.
  apply SpiTopFacts.spitop_same_bus_fields in Hb.
  destruct Hb as (_ & Hc' & Hs' & Hw' & Hl' & Ha' & _).
  revert Hc' Hs' Hw' Hl' Ha'. generalize (tick (read_release s2)). intros x.
  change (wb_cyc_i (dut_pins (read_release s2))) with 0.
  change (wb_stb_i (dut_pins (read_release s2))) with 0.
  change (wb_we_i (dut_pins (read_release s2))) with (wb_we_i (dut_pins s2)).
  change (wb_sel_i (dut_pins (read_release s2))) with (wb_sel_i (dut_pins s2)).
  change (wb_adr_i (dut_pins (read_release s2))) with (wb_adr_i (dut_pins s2)).
  intros Hc' Hs' Hw' Hl' Ha'. unfold read_released. repeat split; congruence.
Qed.

Lemma polls_released (fuel n : nat) (s : state) vs (s_n : state) :
  SpiTopFacts.polls mdl fuel n s = Some (vs, s_n) ->
  List.length vs = n /\ ((1 <= n)%nat -> read_released ADDR_CTRL s_n).
Proof.
  revert s vs s_n. induction n as [|k IH]; intros s vs s_n.
  - cbn [SpiTopFacts.polls]. unfold ret. intros [= <- <-]. split; [reflexivity|lia].
  - cbn [SpiTopFacts.polls]. unfold bind at 1.
    destruct (wb_read mdl fuel ADDR_CTRL s) as [[v s1]|] eqn:Er; [|discriminate].
    unfold bind at 1.
    destruct (SpiTopFacts.polls mdl fuel k s1) as [[vs' s']|] eqn:Ep; [|discriminate].
    unfold ret. intros [= <- <-].
    destruct (IH _ _ _ Ep) as [Hlen Hrel]. split; [cbn [List.length]; lia|].
    intros _. destruct k as [|k'].
    + cbn [SpiTopFacts.polls] in Ep. unfold ret in Ep. injection Ep as _ <-.
      exact (wb_read_released _ _ _ _ _ Er).
    + apply Hrel. lia.
Qed.

(** The three ways the poll loop can go: a read shows GO clear, all
    [timeout] reads show GO set, or a read is never acknowledged. *)
Lemma wait_xfer_done_loop_cases (fuel : nat) :
  forall (iters : nat) (timeout : Z) (s : state),
  (Z.to_nat timeout < iters)%nat ->
  exists (n : nat) (vs : list Z) (s_n : state),
    (n <= Z.to_nat timeout)%nat /\
    SpiTopFacts.polls mdl fuel n s = Some (vs, s_n) /\
    ((exists earlier v,
        vs = earlier ++ [v] /\ Forall SpiTopFacts.go_set earlier /\
        SpiTopFacts.go_clear v /\
        wait_xfer_done_loop mdl iters fuel timeout s = Some (true, s_n))
     \/
     (n = Z.to_nat timeout /\ Forall SpiTopFacts.go_set vs /\
      wait_xfer_done_loop mdl iters fuel timeout s
        = Some (false, printf mdl SpiTopFacts.timeout_line s_n))
     \/
     ((n < Z.to_nat timeout)%nat /\ Forall SpiTopFacts.go_set vs /\
      wb_read mdl fuel ADDR_CTRL s_n = None /\
      wait_xfer_done_loop mdl iters fuel timeout s = None)).
Proof.
  intros iters. induction iters as [|i IH]; intros timeout s Hit; [lia|].
  destruct (Z.gtb_spec timeout 0) as [Hpos|Hneg].
  - destruct (wb_read mdl fuel ADDR_CTRL s) as [[v s1]|] eqn:Er.
    + assert (Hloop :
        wait_xfer_done_loop mdl (Datatypes.S i) fuel timeout s =
          if Z.land v CTRL_GO =? 0 then Some (true, s1)
          else wait_xfer_done_loop mdl i fuel (timeout - 1) s1).
      { cbn [wait_xfer_done_loop].
        destruct (Z.gtb_spec timeout 0); [|lia].
        unfold bind at 1. rewrite Er.
        destruct (Z.land v CTRL_GO =? 0); reflexivity. }
      rewrite Hloop. clear Hloop.
      destruct (Z.eqb_spec (Z.land v CTRL_GO) 0) as [Hclr|Hset].
      * exists 1%nat, [v], s1. split; [lia|]. split.
        { cbn [SpiTopFacts.polls]. unfold bind at 1. rewrite Er. reflexivity. }
        left. exists [], v. repeat split; auto.
      * destruct (IH (timeout - 1) s1 ltac:(lia))
          as (n & vs & s_n & Hn & Hp & Hcase).
        exists (Datatypes.S n), (v :: vs), s_n. split; [lia|]. split.
        { cbn [SpiTopFacts.polls]. unfold bind at 1. rewrite Er. unfold bind at 1.
          rewrite Hp. reflexivity. }
        destruct Hcase as [(earlier & w & -> & Hall & Hw & Hl)
                          | [(-> & Hall & Hl) | (Hlt & Hall & Hnone & Hl)]].
        -- left. exists (v :: earlier), w. repeat split; auto.
        -- right. left. split; [lia|]. split; [constructor; assumption|exact Hl].
        -- right. right. split; [lia|]. split; [constructor; assumption|].
           split; [exact Hnone|exact Hl].
    + exists 0%nat, [], s. split; [lia|]. split; [reflexivity|].
      right. right. split; [lia|]. split; [constructor|]. split; [exact Er|].
      cbn [wait_xfer_done_loop]. destruct (Z.gtb_spec timeout 0); [|lia].
      unfold bind at 1. rewrite Er. reflexivity.
  - assert (Hloop :
      wait_xfer_done_loop mdl (Datatypes.S i) fuel timeout s =
        Some (false, printf mdl SpiTopFacts.timeout_line s)).
    { cbn [wait_xfer_done_loop]. destruct (Z.gtb_spec timeout 0); [lia|].
      reflexivity. }
    rewrite Hloop. clear Hloop.
    exists 0%nat, [], s. split; [lia|]. split; [reflexivity|].
    right. left. split; [lia|]. split; [constructor|reflexivity].
Qed.

(** Without an acknowledge the poll loop never gets past its first read. *)
Lemma wait_xfer_done_stuck (fuel : nat) (timeout : Z) (s : state) :
  (forall m, wb_ack_o mdl m = 0) -> 0 < timeout ->
  wait_xfer_done mdl fuel timeout s = None.
Proof.
  intros Hstuck Hpos. unfold wait_xfer_done. destruct fuel as [|f]; [reflexivity|].
  cbn [wait_xfer_done_loop]. destruct (Z.gtb_spec timeout 0); [|lia].
  unfold bind at 1. rewrite SpiTopFacts.wb_read_stuck by exact Hstuck. reflexivity.
Qed.

(** *** The trace is stamped by sample index *)

(** A sink is attached, the virtual clock is the number of samples dumped
    so far, and sample [i] carries the stamp [i] (both as [uint64_t]). *)
Definition stamped (s : state) : Prop :=
  exists tr,
    tfp s = Some tr /\
    sim_time s = stamp (List.length tr) /\
    List.map at_time tr = List.map stamp (List.seq 0 (List.length tr)).

Definition keeps_stamped (f : state -> state) : Prop :=
  forall s, stamped s -> stamped (f s).

Lemma spitop_tick_stamped : keeps_stamped tick.
Proof.
  intros s (tr & E & Ht & Hm).
  rewrite (SpiTopFacts.spitop_tick_attached mdl s tr E).
  eexists. split; [reflexivity|]. cbn [sim_time].
  rewrite !length_app. cbn [List.length].
  replace (List.length tr + 1 + 1)%nat with (S (S (List.length tr))) by lia.
  rewrite Ht. split.
  - rewrite !stamp_next. reflexivity.
  - rewrite !List.map_app. cbn [List.map at_time]. apply stamps_two_more. exact Hm.
Qed.

Lemma spitop_ticks_stamped n : keeps_stamped (repeat_stmt n tick).
Proof. intros s. apply repeat_stmt_keeps. exact spitop_tick_stamped. Qed.

Lemma spitop_untimed_stamped (f : state -> state) :
  (forall s, tfp (f s) = tfp s /\ sim_time (f s) = sim_time s) -> keeps_stamped f.
Proof.
  intros Hf s (tr & E & Ht & Hm). destruct (Hf s) as [Hf1 Hf2].
  exists tr. rewrite Hf1, Hf2. auto.
Qed.

Lemma spitop_seq_stamped (f g : state -> state) :
  keeps_stamped f -> keeps_stamped g -> keeps_stamped (f ;> g).
Proof. unfold keeps_stamped, seq. auto. Qed.

Lemma spitop_check_stamped name e a m : keeps_stamped (check mdl name e a m).
Proof.
  apply spitop_untimed_stamped. intros s. unfold check.
  destruct (Z.land a m =? Z.land e m); split; reflexivity.
Qed.

Ltac stamp_steps_with leaf :=
  lazymatch goal with
  | |- keeps_stamped (_ ;> _) =>
      apply spitop_seq_stamped; [stamp_steps_with leaf | stamp_steps_with leaf]
  | |- keeps_stamped (repeat_stmt _ _) => apply spitop_ticks_stamped
  | |- keeps_stamped (check _ _ _ _ _) => apply spitop_check_stamped
  | |- _ => first [ exact spitop_tick_stamped | leaf
                  | apply spitop_untimed_stamped; intros ?; split; reflexivity ]
  end.

Lemma spitop_exec_stamped (f : state -> state) :
  keeps_stamped f -> hoare stamped (exec f) (fun _ => stamped).
Proof. intros Hf. apply hoare_exec. exact Hf. Qed.

Lemma spitop_gets_stamped {A : Type} (f : state -> A) :
  hoare stamped (gets f) (fun _ => stamped).
Proof. eapply hoare_post; [apply hoare_gets|]. intros a s [_ H]. exact H. Qed.

Lemma spitop_ret_stamped {A : Type} (a : A) :
  hoare stamped (ret a) (fun _ => stamped).
Proof. eapply hoare_post; [apply hoare_ret|]. intros r s [_ H]. exact H. Qed.

Lemma spitop_reset_stamped : keeps_stamped (reset mdl).
Proof. unfold reset. stamp_steps_with fail. Qed.

Lemma spitop_wait_stamped (fuel : nat) (s s' : state) :
  stamped s -> wait_ack mdl fuel s = Some s' -> stamped s'.
Proof.
  revert s. induction fuel as [|f IH]; intros s Hs; [discriminate|].
  cbn [wait_ack]. destruct (wb_ack_o mdl (dut_model (tick s)) =? 0).
  - apply IH. apply spitop_tick_stamped. exact Hs.
  - intros [= <-]. apply spitop_tick_stamped. exact Hs.
Qed.

Ltac stamp_prog :=
  lazymatch goal with
  | |- hoare _ (bind _ _) _ =>
      eapply hoare_bind; [stamp_prog | intros ?; cbv beta zeta; stamp_prog]
  | |- hoare _ (exec _) _ =>
      apply spitop_exec_stamped;
      stamp_steps_with ltac:(exact spitop_reset_stamped)
  | |- hoare _ (run (wait_ack _ _)) _ =>
      apply (hoare_run stamped stamped); exact (spitop_wait_stamped _)
  | |- hoare _ (gets _) _ => apply spitop_gets_stamped
  | |- hoare _ (ret _) _ => apply spitop_ret_stamped
  end.

Lemma wb_write_stamped fuel addr data :
  hoare stamped (wb_write mdl fuel addr data) (fun _ => stamped).
Proof. unfold wb_write. stamp_prog. Qed.

Lemma wb_read_stamped fuel addr :
  hoare stamped (wb_read mdl fuel addr) (fun _ => stamped).
Proof. unfold wb_read. stamp_prog. Qed.

Lemma wait_xfer_done_loop_stamped (iters fuel : nat) (timeout : Z) :
  hoare stamped (wait_xfer_done_loop mdl iters fuel timeout) (fun _ => stamped).
Proof.
  revert timeout. induction iters as [|i IH]; intros timeout.
  - intros s r s' _ E. discriminate E.
  - cbn [wait_xfer_done_loop]. destruct (timeout >? 0).
    + eapply hoare_bind; [apply wb_read_stamped|].
      intros ctrl. cbv beta. destruct (Z.land ctrl CTRL_GO =? 0).
      * apply spitop_ret_stamped.
      * apply IH.
    + stamp_prog.
Qed.

Ltac stamp_main :=
  lazymatch goal with
  | |- hoare _ (bind _ _) _ =>
      eapply hoare_bind; [stamp_main | intros ?; cbv beta zeta; stamp_main]
  | |- hoare _ (wb_write _ _ _ _) _ => apply wb_write_stamped
  | |- hoare _ (wb_read _ _ _) _ => apply wb_read_stamped
  | |- hoare _ (wait_xfer_done _ _ _) _ => apply wait_xfer_done_loop_stamped
  | |- _ => stamp_prog
  end.

Lemma spitop_spi_transfer_stamped fuel tx len div :
  hoare stamped (spi_transfer mdl fuel tx len div) (fun _ => stamped).
Proof. unfold spi_transfer. cbv zeta. stamp_main. Qed.

Lemma spitop_main_stamped fuel code (s : state) :
  main mdl fuel = Some (code, s) -> stamped s.
Proof.
  intros H.
  assert (Hb : hoare stamped (main_body mdl fuel) (fun _ => stamped)).
  { unfold main_body. cbv zeta.
    repeat lazymatch goal with
    | |- hoare _ (bind _ _) _ => eapply hoare_bind; [| intros ?; cbv beta zeta]
    | |- hoare _ (spi_transfer _ _ _ _ _) _ => apply spitop_spi_transfer_stamped
    | |- _ => stamp_main
    end. }
  apply (Hb (initial_state mdl) code s); [|exact H].
  exists []. repeat split.
Qed.

(** *** Without a trace sink *)

Lemma spitop_ticks_detached (k : nat) (s : state) :
  tfp s = None ->
  tfp (repeat_stmt k tick s) = None /\
  sim_time (repeat_stmt k tick s) = sim_time s.
Proof.
  intros E. induction k as [|k IH]; [auto|].
  destruct IH as [IH1 IH2]. rewrite repeat_stmt_succ.
  rewrite (SpiTopFacts.spitop_tick_detached mdl _ IH1). cbn [tfp sim_time]. auto.
Qed.

(** *** [check] *)

Definition check_line (name : string) (expected actual mask : Z) : string :=
  ((if (Z.land actual mask =? Z.land expected mask)%Z then "  PASS " else "  FAIL ")
     ++ name ++ ": 期望 0x" ++ Cxx.fmt_X 0 (Z.land expected mask)
     ++ ", 实际 0x" ++ Cxx.fmt_X 0 (Z.land actual mask) ++ Cxx.newline)%string.

Lemma spitop_check_state name expected actual mask (s : state) :
  check mdl name expected actual mask s =
    State mdl (dut_pins s) (dut_model s) (tfp s) (sim_time s)
      (if Z.land actual mask =? Z.land expected mask
       then test_pass s + 1 else test_pass s)
      (if Z.land actual mask =? Z.land expected mask
       then test_fail s else test_fail s + 1)
      (stdout s ++ [check_line name expected actual mask]).
Proof.
  unfold check, check_line.
  destruct (Z.land actual mask =? Z.land expected mask); reflexivity.
Qed.

End Facts.
End SpiTopMore.

(** ** [sim_qspi_psram.cpp] *)

Module QspiPsramMore.
Import QspiPsram.

Section Facts.
Context (mdl : Model).
Abbreviation state := (state mdl).
Abbreviation sample := (sample mdl).
Abbreviation tick := (tick mdl).

(** The two counters. *)
Definition tally (s : state) : Z * Z := (test_pass s, test_fail s).

Lemma frame_tally (s s' : state) :
  QspiPsramFacts.frame mdl s' = QspiPsramFacts.frame mdl s -> tally s' = tally s.
Proof. unfold QspiPsramFacts.frame, tally. congruence. Qed.

Lemma qspi_tick_tally (s : state) : tally (tick s) = tally s.
Proof.
  unfold tally. destruct (tfp s) as [tr|] eqn:E.
  - destruct (QspiPsramFacts.frame_eq mdl _ _ _ _ _ _
                (QspiPsramFacts.qspi_tick_attached mdl s tr E))
      as (_ & _ & _ & -> & ->).
    reflexivity.
  - destruct (QspiPsramFacts.frame_eq mdl _ _ _ _ _ _
                (QspiPsramFacts.qspi_tick_detached mdl s E))
      as (_ & _ & _ & -> & ->).
    reflexivity.
Qed.

Lemma qspi_ticks_tally (n : nat) (s : state) :
  tally (repeat_stmt n tick s) = tally s.
Proof.
  induction n as [|n IH]; [reflexivity|].
  rewrite repeat_stmt_succ, qspi_tick_tally. exact IH.
Qed.

Lemma qspi_drive_tally f (s : state) : tally (drive mdl f s) = tally s.
Proof. reflexivity. Qed.

Lemma qspi_printf_tally line (s : state) : tally (printf mdl line s) = tally s.
Proof. reflexivity. Qed.

Lemma mem_clear_tally (s : state) : tally (mem_clear mdl s) = tally s.
Proof. reflexivity. Qed.

Lemma dut_eval_tally (s : state) : tally (dut_eval mdl s) = tally s.
Proof. apply frame_tally, QspiPsramFacts.dut_eval_frame. Qed.

Lemma qspi_seq_tally (f g : state -> state) :
  (forall s, tally (f s) = tally s) ->
  (forall s, tally (g s) = tally s) ->
  forall s, tally ((f ;> g) s) = tally s.
Proof. intros Hf Hg s. unfold seq. rewrite Hg. apply Hf. Qed.

Ltac keeps_tally :=
  first [ exact qspi_tick_tally
        | exact (qspi_ticks_tally _)
        | exact (qspi_drive_tally _)
        | exact dut_eval_tally
        | apply qspi_seq_tally; keeps_tally ].

Lemma qspi_do_reset_tally (s : state) : tally (do_reset mdl s) = tally s.
Proof. revert s. unfold do_reset. keeps_tally. Qed.

Lemma qspi_wait_tally (fuel : nat) msg cycles (s : state) r (s' : state) :
  wait_pready mdl fuel msg cycles s = Some (r, s') -> tally s' = tally s.
Proof.
  revert cycles s. induction fuel as [|f IH]; intros cycles s; [discriminate|].
  cbn [wait_pready]. destruct (cycles + 1 >? MAX_CYCLES).
  - intros [= _ <-]. rewrite qspi_printf_tally. apply qspi_tick_tally.
  - destruct (pready mdl (dut_model (tick s)) =? 0).
    + intros H. rewrite (IH _ _ H). apply qspi_tick_tally.
    + intros [= _ <-]. apply qspi_tick_tally.
Qed.

(** A statement that counts nothing. *)
Definition uncounted {A : Type} (c : state -> option (A * state)) : Prop :=
  forall s r s', c s = Some (r, s') -> tally s' = tally s.

Lemma qspi_uncounted_bind {A B : Type} (c : state -> option (A * state))
    (k : A -> state -> option (B * state)) :
  uncounted c -> (forall a, uncounted (k a)) -> uncounted (bind c k).
Proof.
  intros Hc Hk s r s'. unfold bind.
  destruct (c s) as [[a s1]|] eqn:E; [|discriminate].
  intros H. rewrite (Hk a _ _ _ H). exact (Hc _ _ _ E).
Qed.

Lemma qspi_uncounted_exec (f : state -> state) :
  (forall s, tally (f s) = tally s) -> uncounted (exec f).
Proof. intros Hf s r s' E. unfold exec in E. inversion E; subst. apply Hf. Qed.

Lemma qspi_uncounted_gets {A : Type} (f : state -> A) : uncounted (gets f).
Proof. intros s r s' E. unfold gets in E. inversion E; subst. reflexivity. Qed.

Lemma qspi_uncounted_ret {A : Type} (a : A) : uncounted (ret a : state -> _).
Proof. intros s r s' E. unfold ret in E. inversion E; subst. reflexivity. Qed.

Lemma qspi_uncounted_wait fuel msg cycles :
  uncounted (wait_pready mdl fuel msg cycles).
Proof. intros s r s'. apply qspi_wait_tally. Qed.

Ltac keeps_uncounted :=
  lazymatch goal with
  | |- uncounted (bind _ _) =>
      apply qspi_uncounted_bind;
      [keeps_uncounted | intros ?; cbv beta; keeps_uncounted]
  | |- uncounted (if ?b then _ else _) => destruct b; keeps_uncounted
  | |- uncounted (exec _) => apply qspi_uncounted_exec; keeps_tally
  | |- uncounted (wait_pready _ _ _ _) => apply qspi_uncounted_wait
  | |- uncounted (gets _) => apply qspi_uncounted_gets
  | |- uncounted (ret _) => apply qspi_uncounted_ret
  end.

Lemma qspi_apb_write_uncounted fuel addr data strb :
  uncounted (apb_write mdl fuel addr data strb).
Proof. unfold apb_write. keeps_uncounted. Qed.

Lemma qspi_apb_read_uncounted fuel addr : uncounted (apb_read mdl fuel addr).
Proof. unfold apb_read. keeps_uncounted. Qed.

(** *** How many checks have been made *)

Definition counted (k : Z) (s : state) : Prop :=
  0 <= test_pass s /\ 0 <= test_fail s /\ test_pass s + test_fail s = k.

Definition steps (k k' : Z) (f : state -> state) : Prop :=
  forall s, counted k s -> counted k' (f s).

Lemma qspi_tally_counted k (s s' : state) :
  tally s' = tally s -> counted k s -> counted k s'.
Proof. unfold tally, counted. intros [= -> ->]. auto. Qed.

Lemma qspi_steps_seq k k1 k2 (f g : state -> state) :
  steps k k1 f -> steps k1 k2 g -> steps k k2 (f ;> g).
Proof. unfold steps, seq. auto. Qed.

Lemma qspi_steps_quiet k (f : state -> state) :
  (forall s, tally (f s) = tally s) -> steps k k f.
Proof. intros Hf s. apply qspi_tally_counted, Hf. Qed.

Lemma qspi_steps_check k name e a m : steps k (k + 1) (check mdl name e a m).
Proof.
  intros s (Hp & Hf & Hk). unfold counted.
  rewrite QspiPsramFacts.qspi_check_effect. cbn [test_pass test_fail].
  destruct (Z.land a m =? Z.land e m); lia.
Qed.

Lemma qspi_uncounted_counted {A : Type} k (c : state -> option (A * state)) :
  uncounted c -> hoare (counted k) c (fun _ => counted k).
Proof.
  intros Hq s a s' Hs E. exact (qspi_tally_counted _ _ _ (Hq _ _ _ E) Hs).
Qed.

Lemma qspi_exec_counted k k' (f : state -> state) :
  steps k k' f -> hoare (counted k) (exec f) (fun _ => counted k').
Proof. intros Hf. apply hoare_exec. exact Hf. Qed.

(** A counted loop whose body makes [d] checks makes [d * n] of them. *)
Lemma for_upto_counted (d : Z) (n : nat) (body : Z -> state -> option (unit * state)) :
  (forall i j, hoare (counted j) (body i) (fun _ => counted (j + d))) ->
  forall i k, hoare (counted k) (for_upto mdl n i body)
                    (fun _ => counted (k + d * Z.of_nat n)).
Proof.
  intros Hb. induction n as [|n IH]; intros i k.
  - cbn [for_upto]. intros s r s' Hs E. unfold ret in E. inversion E; subst.
    replace (k + d * Z.of_nat 0) with k by lia. exact Hs.
  - cbn [for_upto]. eapply hoare_bind; [apply Hb|]. intros u. cbv beta.
    eapply hoare_post; [apply IH|]. cbv beta. intros u' s Hs.
    replace (k + d * Z.of_nat (S n)) with (k + d + d * Z.of_nat n) by lia.
    exact Hs.
Qed.

Lemma qspi_uncounted_plus0 {A : Type} k (c : state -> option (A * state)) :
  uncounted c -> hoare (counted k) c (fun _ => counted (k + 0)).
Proof.
  intros Hq. eapply hoare_post; [apply (qspi_uncounted_counted k), Hq|].
  cbv beta. intros _ s Hs. replace (k + 0) with k by lia. exact Hs.
Qed.

Ltac count_steps :=
  lazymatch goal with
  | |- steps _ _ (_ ;> _) => eapply qspi_steps_seq; [count_steps | count_steps]
  | |- steps _ _ (check _ _ _ _ _) => apply qspi_steps_check
  | |- steps _ _ (do_reset _) =>
      apply qspi_steps_quiet; exact qspi_do_reset_tally
  | |- steps _ _ (repeat_stmt _ _) =>
      apply qspi_steps_quiet; exact (qspi_ticks_tally _)
  | |- steps _ _ (mem_clear _) =>
      apply qspi_steps_quiet; exact mem_clear_tally
  | |- steps _ _ _ => apply qspi_steps_quiet; intros ?; apply qspi_printf_tally
  end.

Ltac count_main :=
  lazymatch goal with
  | |- hoare _ (bind _ _) _ =>
      eapply hoare_bind; [count_main | intros ?; cbv beta zeta; count_main]
  | |- hoare _ (exec _) _ => eapply qspi_exec_counted; count_steps
  | |- hoare _ (gets (exit_status _)) _ => apply hoare_gets
  | |- hoare _ (gets _) _ =>
      apply qspi_uncounted_counted, qspi_uncounted_gets
  | |- hoare _ (apb_write _ _ _ _ _) _ =>
      apply qspi_uncounted_counted, qspi_apb_write_uncounted
  | |- hoare _ (apb_read _ _ _) _ =>
      apply qspi_uncounted_counted, qspi_apb_read_uncounted
  | |- hoare _ (for_upto _ _ _ (fun i => apb_write _ _ _ _ _)) _ =>
      apply (for_upto_counted 0); intros ? ?;
      apply qspi_uncounted_plus0, qspi_apb_write_uncounted
  | |- hoare _ (for_upto _ _ _ _) _ =>
      apply (for_upto_counted 1); intros ? ?; cbv beta zeta; count_main
  end.

(** [main] makes ten checks, each counted once. *)
Lemma qspi_main_counts fuel :
  hoare (counted 0) (main_body mdl fuel)
        (fun code s => code = exit_status mdl s /\ counted 10 s).
Proof.
  eapply hoare_post.
  - unfold main_body. cbv zeta. count_main.
  - cbv beta. intros code s [Hc Hk]. split; [exact Hc|exact Hk].
Qed.

(** *** The storage behind the DPI-C imports *)

Lemma psram_write_other_cell (a d a' : Z) (s : state) :
  a mod 2 ^ 20 <> a' mod 2 ^ 20 ->
  psram_read mdl a' (psram_write mdl a d s) = psram_read mdl a' s.
Proof.
  intros Hne. unfold psram_read, psram_write, seq, mem_set, mem_get, printf.
  cbn [psram_mem]. rewrite !QspiPsramFacts.psram_index_wraps.
  rewrite lookup_insert_ne by exact Hne. reflexivity.
Qed.

Lemma psram_read_cleared (a : Z) (s : state) :
  psram_read mdl a (mem_clear mdl s) = 0.
Proof.
  unfold psram_read, mem_clear, mem_get. cbn [psram_mem].
  rewrite lookup_empty. reflexivity.
Qed.

Lemma psram_write_stored_byte (a d : Z) (s : state) :
  mem_get mdl (psram_write mdl a d s) (a mod 2 ^ 20) = d mod 2 ^ 8.
Proof.
  unfold psram_write, seq, mem_set, mem_get, printf. cbn [psram_mem].
  rewrite QspiPsramFacts.psram_index_wraps, lookup_insert_eq. reflexivity.
Qed.

Lemma psram_write_line (a d : Z) (s : state) :
  stdout (psram_write mdl a d s) =
    stdout s ++ [("write@0x" ++ Cxx.fmt_X 3 (a mod 2 ^ 20) ++ ": "
                    ++ Cxx.fmt_X 2 (d mod 2 ^ 8) ++ Cxx.newline)%string].
Proof.
  unfold psram_write, seq, mem_set, mem_get, printf.
  cbn [psram_mem stdout]. rewrite QspiPsramFacts.psram_index_wraps.
  rewrite lookup_insert_eq. reflexivity.
Qed.

(** *** The virtual clock *)

Lemma qspi_tick_time (s : state) (tr : list sample) :
  tfp s = Some tr -> 0 <= sim_time s -> sim_time s + 2 < 2 ^ 64 ->
  sim_time (tick s) = sim_time s + 2.
Proof.
  intros E H0 H1.
  destruct (QspiPsramFacts.frame_eq mdl _ _ _ _ _ _
              (QspiPsramFacts.qspi_tick_attached mdl s tr E))
    as (_ & _ & -> & _).
  unfold Cxx.to_uint64, Cxx.wrap.
  rewrite (Z.mod_small (sim_time s + 1)) by lia.
  rewrite Z.mod_small by lia. lia.
Qed.

Lemma qspi_ticks_time (k : nat) (s : state) (tr : list sample) :
  tfp s = Some tr -> 0 <= sim_time s -> sim_time s + 2 * Z.of_nat k < 2 ^ 64 ->
  sim_time (repeat_stmt k tick s) = sim_time s + 2 * Z.of_nat k.
Proof.
  intros E H0. induction k as [|k IH]; intros H1.
  - simpl. lia.
  - rewrite repeat_stmt_succ.
    destruct (QspiPsramFacts.qspi_ticks_trace mdl k s tr E) as (l & Hl & _).
    rewrite (qspi_tick_time _ _ Hl); rewrite IH; lia.
Qed.

(** *** What the request lines carry *)

Definition request_of (p : pins) : Z * Z * Z * Z * Z :=
  (psel p, pwrite p, pstrb p, paddr p, pwdata p).

Lemma qspi_same_bus_request p q :
  QspiPsramFacts.same_bus p q -> request_of p = request_of q.
Proof.
  intros H. destruct (QspiPsramFacts.qspi_same_bus_fields _ _ H)
    as (_ & Hs & _ & Hw & Hb & Ha & Hd).
  unfold request_of. congruence.
Qed.

Lemma qspi_entry_request (setup : state -> state) (s : state) :
  request_of (dut_pins (QspiPsramFacts.access_entry mdl setup s))
    = request_of (dut_pins (setup s)).
Proof.
  rewrite <- (qspi_same_bus_request _ _ (QspiPsramFacts.qspi_tick_bus mdl (setup s))).
  unfold QspiPsramFacts.access_entry. generalize (tick (setup s)). intros x.
  reflexivity.
Qed.

(** Setup, access and hold phase together show one unchanged request; the
    transfer costs one edge per phase plus one per wait state. *)
Lemma qspi_request_held (setup idle : state -> state) (n : nat)
    (s : state) (tr : list sample) :
  tfp (setup s) = Some tr -> sim_time (setup s) = sim_time s ->
  (forall s2, tfp (idle s2) = tfp s2) ->
  (forall s2, sim_time (idle s2) = sim_time s2) ->
  0 <= sim_time s -> sim_time s + 2 * (Z.of_nat n + 4) < 2 ^ 64 ->
  exists ph_request ph_idle,
    tfp (tick (idle (tick (repeat_stmt (Datatypes.S n) tick
                             (QspiPsramFacts.access_entry mdl setup s)))))
      = Some (tr ++ ph_request ++ ph_idle) /\
    List.length ph_request = (2 * (n + 3))%nat /\
    Forall (fun x => request_of (seen_pins x) = request_of (dut_pins (setup s)))
           ph_request /\
    List.length ph_idle = 2%nat /\
    sim_time (tick (idle (tick (repeat_stmt (Datatypes.S n) tick
                                  (QspiPsramFacts.access_entry mdl setup s)))))
      = sim_time s + 2 * (Z.of_nat n + 4).
Proof.
  intros Htr Htime Hit His H0 H1.
  destruct (QspiPsramFacts.qspi_tick_trace mdl (setup s) tr Htr)
    as (a & b & Ht1 & Ha & Hb).
  pose proof (qspi_entry_request setup s) as Hreq.
  assert (Hs1 : tfp (QspiPsramFacts.access_entry mdl setup s) = Some (tr ++ [a; b]))
    by exact Ht1.
  assert (Hc1 : sim_time (QspiPsramFacts.access_entry mdl setup s) = sim_time s + 2).
  { change (sim_time (tick (setup s)) = sim_time s + 2).
    rewrite (qspi_tick_time _ _ Htr); lia. }
  revert Hreq Hs1 Hc1. generalize (QspiPsramFacts.access_entry mdl setup s).
  intros s1 Hreq Hs1 Hc1.
  destruct (QspiPsramFacts.qspi_ticks_trace mdl (Datatypes.S n) _ _ Hs1)
    as (l & Hl & Hlen & Hall).
  pose proof (QspiPsramFacts.qspi_ticks_bus mdl (Datatypes.S n) s1) as Hbus.
  assert (Hc2 : sim_time (repeat_stmt (Datatypes.S n) tick s1)
                = sim_time s + 2 + 2 * Z.of_nat (Datatypes.S n)).
  { rewrite (qspi_ticks_time _ _ _ Hs1); lia. }
  revert Hl Hbus Hc2. generalize (repeat_stmt (Datatypes.S n) tick s1).
  intros s2 Hl Hbus Hc2.
  destruct (QspiPsramFacts.qspi_tick_trace mdl _ _ Hl) as (h1 & h2 & Hth & Hh1 & Hh2).
  assert (Hc3 : sim_time (tick s2) = sim_time s2 + 2).
  { rewrite (qspi_tick_time _ _ Hl); lia. }
  revert Hth Hc3. generalize (tick s2). intros s3 Hth Hc3.
  assert (Hi : tfp (idle s3) = Some (((tr ++ [a; b]) ++ l) ++ [h1; h2]))
    by (rewrite Hit; exact Hth).
  destruct (QspiPsramFacts.qspi_tick_trace mdl _ _ Hi) as (c & d & Ht3 & _).
  exists (([a; b] ++ l) ++ [h1; h2]), [c; d]. split.
  { rewrite Ht3. rewrite <- !app_assoc. reflexivity. }
  split; [rewrite !length_app; cbn [List.length]; lia|]. split.
  { apply Forall_app. split; [apply Forall_app; split|].
    - repeat constructor; apply qspi_same_bus_request; assumption.
    - eapply Forall_impl; [|exact Hall]. intros x Hx.
      rewrite (qspi_same_bus_request _ _ Hx). exact Hreq.
    - repeat constructor.
      + rewrite (qspi_same_bus_request _ _ Hh1), (qspi_same_bus_request _ _ Hbus).
        exact Hreq.
      + rewrite (qspi_same_bus_request _ _ Hh2), (qspi_same_bus_request _ _ Hbus).
        exact Hreq. }
  split; [reflexivity|].
  rewrite (qspi_tick_time _ _ Hi); rewrite His; lia.
Qed.

(** *** Reset *)

Definition reset_drive : state -> state :=
  drive mdl (set_reset 0) ;> drive mdl (set_clock 0) ;> drive mdl (set_psel 0) ;>
  drive mdl (set_penable 0) ;> drive mdl (set_pwrite 0) ;> drive mdl (set_pstrb 0) ;>
  drive mdl (set_paddr 0) ;> drive mdl (set_pwdata 0).

Definition quiet_bus (rst : Z) (x : sample) : Prop :=
  let p := seen_pins x in
  reset p = rst /\ psel p = 0 /\ penable p = 0 /\ pwrite p = 0 /\
  pstrb p = 0 /\ paddr p = 0 /\ pwdata p = 0.

Lemma qspi_same_bus_quiet rst c (x : sample) :
  QspiPsramFacts.same_bus (seen_pins x) (Pins c rst 0 0 0 0 0 0) -> quiet_bus rst x.
Proof.
  intros H. apply QspiPsramFacts.qspi_same_bus_fields in H. simpl in H. exact H.
Qed.

Lemma qspi_do_reset_shape (s : state) (tr : list sample) :
  tfp s = Some tr -> 0 <= sim_time s -> sim_time s + 22 < 2 ^ 64 ->
  exists held released,
    tfp (do_reset mdl s) = Some (tr ++ held ++ released) /\
    List.length held = 20%nat /\ Forall (quiet_bus 1) held /\
    List.length released = 2%nat /\ Forall (quiet_bus 0) released /\
    QspiPsramFacts.same_bus (dut_pins (do_reset mdl s)) (Pins 0 0 0 0 0 0 0 0) /\
    sim_time (do_reset mdl s) = sim_time s + 22.
Proof.
  intros Htr Ht0 Ht1.
  assert (Hdef : do_reset mdl s =
            tick (drive mdl (set_reset 0)
                    (repeat_stmt 10 tick
                       (drive mdl (set_reset 1) (dut_eval mdl (reset_drive s))))))
    by reflexivity.
  rewrite Hdef. clear Hdef.
  destruct (QspiPsramFacts.frame_eq mdl _ _ _ _ _ _
              (QspiPsramFacts.dut_eval_frame mdl (reset_drive s)))
    as (Fp & Ft & Fs & _).
  assert (Fp' : dut_pins (dut_eval mdl (reset_drive s)) = Pins 0 0 0 0 0 0 0 0)
    by exact Fp.
  assert (Ft' : tfp (dut_eval mdl (reset_drive s)) = Some tr)
    by (rewrite Ft; exact Htr).
  assert (Fs' : sim_time (dut_eval mdl (reset_drive s)) = sim_time s) by exact Fs.
  clear Fp Ft Fs. revert Fp' Ft' Fs'.
  generalize (dut_eval mdl (reset_drive s)). intros e Fp Ft Fs.
  assert (H0 : tfp (drive mdl (set_reset 1) e) = Some tr) by exact Ft.
  assert (Hp0 : dut_pins (drive mdl (set_reset 1) e) = Pins 0 1 0 0 0 0 0 0).
  { unfold drive. cbn [dut_pins]. rewrite Fp. reflexivity. }
  assert (Hc0 : sim_time (drive mdl (set_reset 1) e) = sim_time s) by exact Fs.
  revert H0 Hp0 Hc0. generalize (drive mdl (set_reset 1) e). intros s0 H0 Hp0 Hc0.
  destruct (QspiPsramFacts.qspi_ticks_trace mdl 10 _ _ H0) as (held & Hh & Hlen & Hall).
  pose proof (QspiPsramFacts.qspi_ticks_bus mdl 10 s0) as Hbus.
  assert (Hc : sim_time (repeat_stmt 10 tick s0) = sim_time s + 20).
  { rewrite (qspi_ticks_time 10 _ _ H0); rewrite Hc0; lia. }
  rewrite Hp0 in Hbus.
  revert Hh Hbus Hc. generalize (repeat_stmt 10 tick s0). intros s1 Hh Hbus Hc.
  assert (H1 : tfp (drive mdl (set_reset 0) s1) = Some (tr ++ held)) by exact Hh.
  assert (Hc1 : sim_time (drive mdl (set_reset 0) s1) = sim_time s + 20) by exact Hc.
  destruct (QspiPsramFacts.qspi_tick_trace mdl _ _ H1) as (a & b & Ht & Ha & Hb).
  assert (Hrel : QspiPsramFacts.same_bus (dut_pins (drive mdl (set_reset 0) s1))
                          (Pins 0 0 0 0 0 0 0 0)).
  { destruct (QspiPsramFacts.qspi_same_bus_fields _ _ Hbus)
      as (_ & Hps & Hpe & Hpw & Hst & Hpa & Hpd).
    cbn in Hps, Hpe, Hpw, Hst, Hpa, Hpd.
    unfold QspiPsramFacts.same_bus, drive, set_reset, set_clock.
    cbn [dut_pins clock reset psel penable pwrite pstrb paddr pwdata].
    congruence. }
  exists held, [a; b]. split; [rewrite Ht, <- app_assoc; reflexivity|].
  split; [exact Hlen|]. split.
  { eapply Forall_impl; [|exact Hall]. intros x Hx. rewrite Hp0 in Hx.
    eapply qspi_same_bus_quiet. exact Hx. }
  split; [reflexivity|]. split.
  { repeat constructor; eapply qspi_same_bus_quiet;
      eapply QspiPsramFacts.qspi_same_bus_trans; eauto. }
  split.
  { eapply QspiPsramFacts.qspi_same_bus_trans;
      [apply QspiPsramFacts.qspi_tick_bus | exact Hrel]. }
  rewrite (qspi_tick_time _ _ H1); rewrite Hc1; lia.
Qed.

Lemma qspi_write_setup_request addr data strb (s : state) :
  request_of (dut_pins (QspiPsramFacts.write_setup mdl addr data strb s))
    = (1, 1, strb, addr, data).
Proof. reflexivity. Qed.

Lemma qspi_read_setup_request addr (s : state) :
  request_of (dut_pins (QspiPsramFacts.read_setup mdl addr s))
    = (1, 0, 0xF, addr, pwdata (dut_pins s)).
Proof. reflexivity. Qed.

(** *** The trace is stamped by sample index *)

(** A sink is attached, the virtual clock is the number of samples dumped
    so far, and sample [i] carries the stamp [i] (both as [uint64_t]). *)
Definition stamped (s : state) : Prop :=
  exists tr,
    tfp s = Some tr /\
    sim_time s = stamp (List.length tr) /\
    List.map at_time tr = List.map stamp (List.seq 0 (List.length tr)).

Definition keeps_stamped (f : state -> state) : Prop :=
  forall s, stamped s -> stamped (f s).

Lemma qspi_tick_stamped : keeps_stamped tick.
Proof.
  intros s (tr & E & Ht & Hm).
  destruct (QspiPsramFacts.frame_eq mdl _ _ _ _ _ _
              (QspiPsramFacts.qspi_tick_attached mdl s tr E))
    as (_ & Ft & Fs & _).
  eexists. split; [exact Ft|]. rewrite Fs.
  rewrite !length_app. cbn [List.length].
  replace (List.length tr + 2)%nat with (S (S (List.length tr))) by lia.
  rewrite Ht. split.
  - rewrite !stamp_next. reflexivity.
  - rewrite !List.map_app. cbn [List.map at_time].
    change [stamp (List.length tr); Cxx.to_uint64 (stamp (List.length tr) + 1)]
      with ([stamp (List.length tr)]
              ++ [Cxx.to_uint64 (stamp (List.length tr) + 1)]).
    rewrite app_assoc. apply stamps_two_more. exact Hm.
Qed.

Lemma qspi_ticks_stamped n : keeps_stamped (repeat_stmt n tick).
Proof. intros s. apply repeat_stmt_keeps. exact qspi_tick_stamped. Qed.

Lemma qspi_untimed_stamped (f : state -> state) :
  (forall s, tfp (f s) = tfp s /\ sim_time (f s) = sim_time s) -> keeps_stamped f.
Proof.
  intros Hf s (tr & E & Ht & Hm). destruct (Hf s) as [Hf1 Hf2].
  exists tr. rewrite Hf1, Hf2. auto.
Qed.

Lemma qspi_seq_stamped (f g : state -> state) :
  keeps_stamped f -> keeps_stamped g -> keeps_stamped (f ;> g).
Proof. unfold keeps_stamped, seq. auto. Qed.

Lemma qspi_check_stamped name e a m : keeps_stamped (check mdl name e a m).
Proof.
  apply qspi_untimed_stamped. intros s. unfold check.
  destruct (Z.land a m =? Z.land e m); split; reflexivity.
Qed.

Ltac stamp_steps_with leaf :=
  lazymatch goal with
  | |- keeps_stamped (_ ;> _) =>
      apply qspi_seq_stamped; [stamp_steps_with leaf | stamp_steps_with leaf]
  | |- keeps_stamped (repeat_stmt _ _) => apply qspi_ticks_stamped
  | |- keeps_stamped (check _ _ _ _ _) => apply qspi_check_stamped
  | |- _ => first [ exact qspi_tick_stamped | leaf
                  | apply qspi_untimed_stamped; intros ?; split; reflexivity ]
  end.

Lemma qspi_exec_stamped (f : state -> state) :
  keeps_stamped f -> hoare stamped (exec f) (fun _ => stamped).
Proof. intros Hf. apply hoare_exec. exact Hf. Qed.

Lemma qspi_gets_stamped {A : Type} (f : state -> A) :
  hoare stamped (gets f) (fun _ => stamped).
Proof. eapply hoare_post; [apply hoare_gets|]. intros a s [_ H]. exact H. Qed.

Lemma qspi_ret_stamped {A : Type} (a : A) :
  hoare stamped (ret a) (fun _ => stamped).
Proof. eapply hoare_post; [apply hoare_ret|]. intros r s [_ H]. exact H. Qed.

Lemma dut_eval_stamped : keeps_stamped (dut_eval mdl).
Proof.
  apply qspi_untimed_stamped. intros s.
  destruct (QspiPsramFacts.frame_eq mdl _ _ _ _ _ _
              (QspiPsramFacts.dut_eval_frame mdl s)) as (_ & Ft & Fs & _).
  split; assumption.
Qed.

Lemma qspi_do_reset_stamped : keeps_stamped (do_reset mdl).
Proof. unfold do_reset. stamp_steps_with ltac:(exact dut_eval_stamped). Qed.

Lemma qspi_wait_stamped (fuel : nat) msg cycles :
  hoare stamped (wait_pready mdl fuel msg cycles) (fun _ => stamped).
Proof.
  revert cycles. induction fuel as [|f IH]; intros cycles s r s' Hs;
    [discriminate|].
  cbn [wait_pready]. destruct (cycles + 1 >? MAX_CYCLES).
  - intros [= _ <-].
    refine (qspi_untimed_stamped (printf mdl msg) _ _ (qspi_tick_stamped s Hs)).
    intros x. split; reflexivity.
  - destruct (pready mdl (dut_model (tick s)) =? 0).
    + apply IH. apply qspi_tick_stamped. exact Hs.
    + intros [= _ <-]. apply qspi_tick_stamped. exact Hs.
Qed.

Ltac stamp_prog :=
  lazymatch goal with
  | |- hoare _ (bind _ _) _ =>
      eapply hoare_bind; [stamp_prog | intros ?; cbv beta zeta; stamp_prog]
  | |- hoare _ (if ?b then _ else _) _ => destruct b; stamp_prog
  | |- hoare _ (exec _) _ =>
      apply qspi_exec_stamped;
      stamp_steps_with ltac:(exact qspi_do_reset_stamped)
  | |- hoare _ (wait_pready _ _ _ _) _ => apply qspi_wait_stamped
  | |- hoare _ (gets _) _ => apply qspi_gets_stamped
  | |- hoare _ (ret _) _ => apply qspi_ret_stamped
  end.

Lemma qspi_apb_write_stamped fuel addr data strb :
  hoare stamped (apb_write mdl fuel addr data strb) (fun _ => stamped).
Proof. unfold apb_write. stamp_prog. Qed.

Lemma qspi_apb_read_stamped fuel addr :
  hoare stamped (apb_read mdl fuel addr) (fun _ => stamped).
Proof. unfold apb_read. stamp_prog. Qed.

Lemma for_upto_stamped (n : nat) (body : Z -> state -> option (unit * state)) :
  (forall i, hoare stamped (body i) (fun _ => stamped)) ->
  forall i, hoare stamped (for_upto mdl n i body) (fun _ => stamped).
Proof.
  intros Hb. induction n as [|n IH]; intros i; cbn [for_upto].
  - apply qspi_ret_stamped.
  - eapply hoare_bind; [apply Hb|]. intros u. apply IH.
Qed.

Lemma qspi_main_stamped fuel code (s : state) :
  main mdl fuel = Some (code, s) -> stamped s.
Proof.
  intros H.
  assert (Hb : hoare stamped (main_body mdl fuel) (fun _ => stamped)).
  { unfold main_body. cbv zeta.
    repeat lazymatch goal with
    | |- hoare _ (bind _ _) _ => eapply hoare_bind; [| intros ?; cbv beta zeta]
    | |- hoare _ (apb_write _ _ _ _ _) _ => apply qspi_apb_write_stamped
    | |- hoare _ (apb_read _ _ _) _ => apply qspi_apb_read_stamped
    | |- hoare _ (for_upto _ _ _ _) _ =>
        apply for_upto_stamped; intros ?; cbv beta zeta
    | |- _ => stamp_prog
    end. }
  apply (Hb (initial_state mdl) code s); [|exact H].
  exists []. repeat split.
Qed.

(** *** Without a trace sink *)

Lemma qspi_ticks_detached (k : nat) (s : state) :
  tfp s = None ->
  tfp (repeat_stmt k tick s) = None /\
  sim_time (repeat_stmt k tick s) = sim_time s.
Proof.
  intros E. induction k as [|k IH]; [auto|].
  destruct IH as [IH1 IH2]. rewrite repeat_stmt_succ.
  destruct (QspiPsramFacts.frame_eq mdl _ _ _ _ _ _
              (QspiPsramFacts.qspi_tick_detached mdl _ IH1)) as (_ & Ft & Fs & _).
  rewrite Ft, Fs. auto.
Qed.

End Facts.
End QspiPsramMore.

(** * The claims *)

Section Claims.

(** ** C4: the edge driver *)

(** C4 (as stated, refuted): in [sim_spi_top.cpp] the first half of
    [tick] drives the clock low and the second half drives it high, so the
    two samples of one call do not show "high, then low". *)
Lemma spi_top_tick_starts_low :
  ~ (exists a b,
       SpiTop.tfp (SpiTop.tick Models.spitop_stuck
                     (SpiTop.initial_state Models.spitop_stuck)) = Some [a; b] /\
       SpiTop.wb_clk_i (SpiTop.seen_pins a) = 1 /\
       SpiTop.wb_clk_i (SpiTop.seen_pins b) = 0).
Proof.
  intros (a & b & H & Ha & Hb).
  vm_compute in H. injection H as <- <-.
  vm_compute in Ha. discriminate.
Qed.

(** C4 (amended): with a trace sink attached, one call of [tick] runs two
    half periods, each one: drive the clock, copy MOSI to MISO, evaluate
    the model, hand the sink a sample stamped with the virtual clock and
    step the clock by one.  [sim_chisel_spi.cpp] drives the clock high in
    the first half and low in the second; [sim_spi_top.cpp] drives it low
    first and high second.  The virtual clock ends up two higher. *)
Theorem tick_two_half_periods :
  forall (mc : ChiselSpi.Model) (sc : ChiselSpi.state mc)
         (trc : list (ChiselSpi.sample mc))
         (mw : SpiTop.Model) (sw : SpiTop.state mw)
         (trw : list (SpiTop.sample mw)),
    ChiselSpi.tfp sc = Some trc ->
    0 <= ChiselSpi.sim_time sc -> ChiselSpi.sim_time sc + 2 < 2 ^ 64 ->
    SpiTop.tfp sw = Some trw ->
    0 <= SpiTop.sim_time sw -> SpiTop.sim_time sw + 2 < 2 ^ 64 ->
    (let t := ChiselSpi.sim_time sc in
     let p1 := ChiselSpi.set_misoPadI
                 (ChiselSpi.mosiPadO mc (ChiselSpi.dut_model sc))
                 (ChiselSpi.set_clock 1 (ChiselSpi.dut_pins sc)) in
     let m1 := ChiselSpi.eval mc p1 (ChiselSpi.dut_model sc) in
     let p2 := ChiselSpi.set_misoPadI (ChiselSpi.mosiPadO mc m1)
                 (ChiselSpi.set_clock 0 p1) in
     let m2 := ChiselSpi.eval mc p2 m1 in
     ChiselSpi.tick mc sc =
       ChiselSpi.State mc p2 m2
         (Some (trc ++ [ChiselSpi.Sample mc t p1 m1;
                        ChiselSpi.Sample mc (t + 1) p2 m2]))
         (t + 2)
         (ChiselSpi.test_pass sc) (ChiselSpi.test_fail sc) (ChiselSpi.stdout sc))
    /\
    (let t := SpiTop.sim_time sw in
     let p1 := SpiTop.set_miso_pad_i
                 (SpiTop.mosi_pad_o mw (SpiTop.dut_model sw))
                 (SpiTop.set_wb_clk_i 0 (SpiTop.dut_pins sw)) in
     let m1 := SpiTop.eval mw p1 (SpiTop.dut_model sw) in
     let p2 := SpiTop.set_miso_pad_i (SpiTop.mosi_pad_o mw m1)
                 (SpiTop.set_wb_clk_i 1 p1) in
     let m2 := SpiTop.eval mw p2 m1 in
     SpiTop.tick mw sw =
       SpiTop.State mw p2 m2
         (Some (trw ++ [SpiTop.Sample mw t p1 m1;
                        SpiTop.Sample mw (t + 1) p2 m2]))
         (t + 2)
         (SpiTop.test_pass sw) (SpiTop.test_fail sw) (SpiTop.stdout sw)).
Proof.
  intros mc sc trc mw sw trw Hc Hc0 Hc1 Hw Hw0 Hw1.
  assert (W : forall t, 0 <= t -> t + 2 < 2 ^ 64 ->
                Cxx.to_uint64 (t + 1) = t + 1 /\
                Cxx.to_uint64 (t + 1 + 1) = t + 2).
  { intros t H0 H1. unfold Cxx.to_uint64, Cxx.wrap.
    rewrite !Z.mod_small by lia. split; lia. }
  split; cbv zeta.
  - rewrite (ChiselSpiFacts.chisel_tick_attached mc sc trc Hc).
    destruct (W _ Hc0 Hc1) as [W1 W2]. rewrite W1, W2, <- app_assoc.
    reflexivity.
  - rewrite (SpiTopFacts.spitop_tick_attached mw sw trw Hw).
    destruct (W _ Hw0 Hw1) as [W1 W2]. rewrite W1, W2, <- app_assoc.
    reflexivity.
Qed.

Lemma tick_two_half_periods_witness :
  (ChiselSpi.tfp (ChiselSpi.initial_state Models.chisel_stuck) = Some [] /\
   SpiTop.tfp (SpiTop.initial_state Models.spitop_stuck) = Some []) /\
  ChiselSpi.sim_time
    (ChiselSpi.tick Models.chisel_stuck (ChiselSpi.initial_state _)) = 2 /\
  SpiTop.sim_time
    (SpiTop.tick Models.spitop_stuck (SpiTop.initial_state _)) = 2.
Proof.
  split; [split; reflexivity|].
  destruct (tick_two_half_periods
              Models.chisel_stuck (ChiselSpi.initial_state _) []
              Models.spitop_stuck (SpiTop.initial_state _) []
              eq_refl ltac:(simpl; lia) ltac:(simpl; lia)
              eq_refl ltac:(simpl; lia) ltac:(simpl; lia)) as [Hc Hw].
  cbv zeta in Hc, Hw. rewrite Hc, Hw. split; reflexivity.
Defined.


(** ** C5: the verification oracle *)

(** C5: [check(name, expected, actual, mask)] masks both values, compares
    them, adds one to [test_pass] when they are equal and one to
    [test_fail] otherwise (never to both, and staying within [int]),
    appends one line naming the check and the two masked values to the
    output, and leaves the device, the trace and the virtual clock as they
    were.  It is a total function: it always returns.  Stated for the
    [check] of [sim_chisel_spi.cpp] and of [sim_bitrev_spi.cpp]. *)
Theorem check_counts_once :
  forall (mc : ChiselSpi.Model) (sc : ChiselSpi.state mc)
         (mb : BitrevSpi.Model) (sb : BitrevSpi.state mb)
         (name : string) (expected actual mask : Z),
    0 <= ChiselSpi.test_pass sc < Cxx.INT_MAX ->
    0 <= ChiselSpi.test_fail sc < Cxx.INT_MAX ->
    0 <= BitrevSpi.test_pass sb < Cxx.INT_MAX ->
    0 <= BitrevSpi.test_fail sb < Cxx.INT_MAX ->
    (let s' := ChiselSpi.check mc name expected actual mask sc in
     (Z.land expected mask = Z.land actual mask ->
        ChiselSpi.test_pass s' = ChiselSpi.test_pass sc + 1 /\
        ChiselSpi.test_fail s' = ChiselSpi.test_fail sc) /\
     (Z.land expected mask <> Z.land actual mask ->
        ChiselSpi.test_pass s' = ChiselSpi.test_pass sc /\
        ChiselSpi.test_fail s' = ChiselSpi.test_fail sc + 1) /\
     ChiselSpi.test_pass s' <= Cxx.INT_MAX /\
     ChiselSpi.test_fail s' <= Cxx.INT_MAX /\
     ChiselSpi.stdout s' =
       ChiselSpi.stdout sc ++ [ChiselSpiFacts.check_line name expected actual mask] /\
     ChiselSpi.dut_pins s' = ChiselSpi.dut_pins sc /\
     ChiselSpi.dut_model s' = ChiselSpi.dut_model sc /\
     ChiselSpi.tfp s' = ChiselSpi.tfp sc /\
     ChiselSpi.sim_time s' = ChiselSpi.sim_time sc)
    /\
    (let s' := BitrevSpi.check mb name expected actual mask sb in
     (Z.land expected mask = Z.land actual mask ->
        BitrevSpi.test_pass s' = BitrevSpi.test_pass sb + 1 /\
        BitrevSpi.test_fail s' = BitrevSpi.test_fail sb) /\
     (Z.land expected mask <> Z.land actual mask ->
        BitrevSpi.test_pass s' = BitrevSpi.test_pass sb /\
        BitrevSpi.test_fail s' = BitrevSpi.test_fail sb + 1) /\
     BitrevSpi.test_pass s' <= Cxx.INT_MAX /\
     BitrevSpi.test_fail s' <= Cxx.INT_MAX /\
     BitrevSpi.stdout s' =
       BitrevSpi.stdout sb ++ [BitrevSpiFacts.check_line name expected actual mask] /\
     BitrevSpi.dut_pins s' = BitrevSpi.dut_pins sb /\
     BitrevSpi.dut_model s' = BitrevSpi.dut_model sb /\
     BitrevSpi.tfp s' = BitrevSpi.tfp sb /\
     BitrevSpi.sim_time s' = BitrevSpi.sim_time sb).
Proof.
  intros mc sc mb sb name expected actual mask Hcp Hcf Hbp Hbf.
  split; cbv zeta.
  - rewrite ChiselSpiFacts.chisel_check_effect.
    cbn [ChiselSpi.test_pass ChiselSpi.test_fail ChiselSpi.stdout
         ChiselSpi.dut_pins ChiselSpi.dut_model ChiselSpi.tfp ChiselSpi.sim_time].
    destruct (Z.eqb_spec (Z.land actual mask) (Z.land expected mask)) as [E|E];
      repeat split; try reflexivity; try lia; intros; congruence.
  - rewrite BitrevSpiFacts.bitrev_check_effect.
    cbn [BitrevSpi.test_pass BitrevSpi.test_fail BitrevSpi.stdout
         BitrevSpi.dut_pins BitrevSpi.dut_model BitrevSpi.tfp BitrevSpi.sim_time].
    destruct (Z.eqb_spec (Z.land actual mask) (Z.land expected mask)) as [E|E];
      repeat split; try reflexivity; try lia; intros; congruence.
Qed.

Lemma check_counts_once_witness :
  ChiselSpi.stdout
    (ChiselSpi.check Models.chisel_stuck "8-bit loopback" 0xA5 0x1A5 0xFF
       (ChiselSpi.initial_state _))
    = ["  PASS 8-bit loopback: expected 0xA5, got 0xA5" ++ Cxx.newline]%string
  /\
  BitrevSpi.test_fail
    (BitrevSpi.check Models.bitrev_stuck "bitrev(0x53)" 0xCA 0xCB 0xFF
       (BitrevSpi.initial_state _)) = 1.
Proof.
  destruct (check_counts_once
              Models.chisel_stuck (ChiselSpi.initial_state _)
              Models.bitrev_stuck (BitrevSpi.initial_state _)
              "8-bit loopback" 0xA5 0x1A5 0xFF
              ltac:(vm_compute; split; congruence)
              ltac:(vm_compute; split; congruence)
              ltac:(vm_compute; split; congruence)
              ltac:(vm_compute; split; congruence))
    as [(_ & _ & _ & _ & Hout & _) _].
  destruct (check_counts_once
              Models.chisel_stuck (ChiselSpi.initial_state _)
              Models.bitrev_stuck (BitrevSpi.initial_state _)
              "bitrev(0x53)" 0xCA 0xCB 0xFF
              ltac:(vm_compute; split; congruence)
              ltac:(vm_compute; split; congruence)
              ltac:(vm_compute; split; congruence)
              ltac:(vm_compute; split; congruence))
    as [_ (_ & Hfail & _)].
  split.
  - cbv zeta in Hout. rewrite Hout. reflexivity.
  - cbv zeta in Hfail. destruct (Hfail ltac:(vm_compute; congruence)) as [_ ->].
    reflexivity.
Defined.

(** ** C6: the exit status *)

(** C6: when [main] returns, it returns 0 exactly when [test_fail] is zero
    at that point, and a nonzero value whenever [test_fail] is nonzero;
    [test_pass] plays no part.  Stated for the [main] of
    [sim_chisel_spi.cpp] and of [sim_qspi_psram.cpp]. *)
Theorem exit_status_reflects_failures :
  forall (mc : ChiselSpi.Model) (fc : nat) (codec : Z) (sc : ChiselSpi.state mc)
         (mq : QspiPsram.Model) (fq : nat) (codeq : Z) (sq : QspiPsram.state mq),
    ChiselSpi.main mc fc = Some (codec, sc) ->
    QspiPsram.main mq fq = Some (codeq, sq) ->
    (codec = 0 <-> ChiselSpi.test_fail sc = 0) /\
    (ChiselSpi.test_fail sc <> 0 -> codec = 1) /\
    (codeq = 0 <-> QspiPsram.test_fail sq = 0) /\
    (QspiPsram.test_fail sq <> 0 -> codeq = 1).
Proof.
  intros mc fc codec sc mq fq codeq sq Hc Hq.
  destruct (ChiselSpiFacts.chisel_main_exit mc fc codec sc Hc) as [-> Hc0].
  destruct (QspiPsramFacts.qspi_main_exit mq fq codeq sq Hq) as [-> Hq0].
  unfold ChiselSpi.exit_status, QspiPsram.exit_status.
  destruct (Z.gtb_spec (ChiselSpi.test_fail sc) 0);
    destruct (Z.gtb_spec (QspiPsram.test_fail sq) 0);
    repeat split; intros; try lia.
Qed.

Lemma exit_status_reflects_failures_witness :
  exists codec sc codeq sq,
    ChiselSpi.main Models.chisel_echo 1 = Some (codec, sc) /\
    QspiPsram.main Models.qspi_stuck (S (Z.to_nat QspiPsram.MAX_CYCLES))
      = Some (codeq, sq) /\
    (codec = 0 <-> ChiselSpi.test_fail sc = 0) /\
    (codeq = 0 <-> QspiPsram.test_fail sq = 0).
Proof.
  destruct (ChiselSpiFacts.chisel_main_returns Models.chisel_echo 1
              ltac:(intros m; discriminate) ltac:(lia))
    as (codec & sc & Ec).
  destruct (QspiPsramFacts.qspi_main_returns Models.qspi_stuck
              (S (Z.to_nat QspiPsram.MAX_CYCLES)) (Nat.lt_succ_diag_r _))
    as (codeq & sq & Eq).
  exists codec, sc, codeq, sq.
  destruct (exit_status_reflects_failures _ _ _ _ _ _ _ _ Ec Eq)
    as (H1 & _ & H2 & _).
  split; [exact Ec|]. split; [exact Eq|]. split; assumption.
Defined.


(** ** C7: the reset sequencer *)

(** C7: [do_reset] of [sim_bitrev_spi.cpp] and [reset] of
    [sim_spi_top.cpp] raise the reset input, clear the address, data,
    byte-enable, direction and select/enable (cycle/strobe) inputs, run ten
    edges on which the trace shows reset high and all of those inputs at
    zero, lower reset and run exactly one more edge, on which the trace
    shows reset low and the request inputs still at zero; on return the
    request inputs are still zero, so no transfer is outstanding. *)
Theorem reset_sequence :
  forall (mb : BitrevSpi.Model) (sb : BitrevSpi.state mb)
         (trb : list (BitrevSpi.sample mb))
         (mw : SpiTop.Model) (sw : SpiTop.state mw)
         (trw : list (SpiTop.sample mw)),
    BitrevSpi.tfp sb = Some trb ->
    SpiTop.tfp sw = Some trw ->
    (BitrevSpi.do_reset mb sb =
       BitrevSpi.tick mb
         (BitrevSpi.drive mb (BitrevSpi.set_reset 0)
            (repeat_stmt 10 (BitrevSpi.tick mb) (BitrevSpiFacts.reset_drive mb sb)))
     /\
     exists held released,
       BitrevSpi.tfp (BitrevSpi.do_reset mb sb) = Some (trb ++ held ++ released) /\
       List.length held = 20%nat /\
       Forall (BitrevSpiFacts.quiet_bus mb 1) held /\
       List.length released = 2%nat /\
       Forall (BitrevSpiFacts.quiet_bus mb 0) released /\
       let p := BitrevSpi.dut_pins (BitrevSpi.do_reset mb sb) in
       BitrevSpi.reset p = 0 /\ BitrevSpi.psel p = 0 /\ BitrevSpi.penable p = 0 /\
       BitrevSpi.pwrite p = 0 /\ BitrevSpi.pstrb p = 0 /\ BitrevSpi.paddr p = 0 /\
       BitrevSpi.pwdata p = 0)
    /\
    (SpiTop.reset mw sw =
       SpiTop.tick mw
         (SpiTop.drive mw (SpiTop.set_wb_rst_i 0)
            (repeat_stmt 10 (SpiTop.tick mw) (SpiTopFacts.reset_drive mw sw)))
     /\
     exists held released,
       SpiTop.tfp (SpiTop.reset mw sw) = Some (trw ++ held ++ released) /\
       List.length held = 20%nat /\
       Forall (SpiTopFacts.quiet_bus mw 1) held /\
       List.length released = 2%nat /\
       Forall (SpiTopFacts.quiet_bus mw 0) released /\
       let p := SpiTop.dut_pins (SpiTop.reset mw sw) in
       SpiTop.wb_rst_i p = 0 /\ SpiTop.wb_cyc_i p = 0 /\ SpiTop.wb_stb_i p = 0 /\
       SpiTop.wb_we_i p = 0 /\ SpiTop.wb_sel_i p = 0 /\ SpiTop.wb_adr_i p = 0 /\
       SpiTop.wb_dat_i p = 0).
Proof.
  intros mb sb trb mw sw trw Hb Hw. split.
  - destruct (BitrevSpiFacts.do_reset_shape mb sb trb Hb)
      as (Hdef & held & released & Ht & Hl1 & Hq1 & Hl2 & Hq2 & Hfin).
    split; [exact Hdef|].
    exists held, released. repeat (split; [assumption|]).
    cbv zeta. apply BitrevSpiFacts.bitrev_same_bus_fields in Hfin. exact Hfin.
  - destruct (SpiTopFacts.reset_shape mw sw trw Hw)
      as (Hdef & held & released & Ht & Hl1 & Hq1 & Hl2 & Hq2 & Hfin).
    split; [exact Hdef|].
    exists held, released. repeat (split; [assumption|]).
    cbv zeta. apply SpiTopFacts.spitop_same_bus_fields in Hfin. exact Hfin.
Qed.

Lemma reset_sequence_witness :
  (BitrevSpi.tfp (BitrevSpi.initial_state Models.bitrev_echo) = Some [] /\
   SpiTop.tfp (SpiTop.initial_state (Models.spitop_busy 0)) = Some []) /\
  (exists held released,
     BitrevSpi.tfp (BitrevSpi.do_reset Models.bitrev_echo
                      (BitrevSpi.initial_state _)) = Some (held ++ released) /\
     List.length held = 20%nat /\ List.length released = 2%nat) /\
  (exists held released,
     SpiTop.tfp (SpiTop.reset (Models.spitop_busy 0)
                   (SpiTop.initial_state _)) = Some (held ++ released) /\
     List.length held = 20%nat /\ List.length released = 2%nat).
Proof.
  split; [split; reflexivity|].
  destruct (reset_sequence
              Models.bitrev_echo (BitrevSpi.initial_state _) []
              (Models.spitop_busy 0) (SpiTop.initial_state _) []
              eq_refl eq_refl)
    as [(_ & hb & rb & Hb & Hb1 & _ & Hb2 & _) (_ & hw & rw & Hw & Hw1 & _ & Hw2 & _)].
  split.
  - exists hb, rb. repeat split; assumption.
  - exists hw, rw. repeat split; assumption.
Defined.

(** ** C8: waiting for the GO bit *)

(** C8 (as stated, refuted): [wait_xfer_done] reads through
    [wb_read], whose wait for the acknowledge has no bound.  Against a
    device that never acknowledges it neither logs a timeout nor returns,
    whatever the fuel. *)
Lemma wait_xfer_done_blocks_without_ack :
  ~ (exists fuel r,
       SpiTop.wait_xfer_done Models.spitop_stuck fuel 100000
         (SpiTop.initial_state Models.spitop_stuck) = Some r).
Proof.
  intros (fuel & r & H).
  rewrite SpiTopMore.wait_xfer_done_stuck in H; [discriminate|reflexivity|lia].
Qed.

(** C8 (amended): [wait_xfer_done(timeout)] reads the control register through
    [wb_read] over and over; each completed read leaves cycle, strobe and
    write enable low and the address at [ADDR_CTRL].  It makes [n] reads
    that return, with [n <= timeout], and then one of three things holds:
    the last of them is the first to show the GO bit clear and the result
    is [true]; or all [timeout] reads showed GO set, the time-out line is
    printed and the result is [false]; or fewer than [timeout] reads were
    made, all showing GO set, the next [wb_read] is never acknowledged and
    [wait_xfer_done] does not return either (and prints nothing).  Nothing
    is assumed of reads the run does not make.  (The only caller leaves
    [timeout] at its default, 100000.) *)
Theorem wait_xfer_done_polls_go :
  forall (mdl : SpiTop.Model) (fuel : nat) (timeout : Z) (s : SpiTop.state mdl),
    (Z.to_nat timeout < fuel)%nat ->
    exists (n : nat) (vs : list Z) (s_n : SpiTop.state mdl),
      (n <= Z.to_nat timeout)%nat /\
      SpiTopFacts.polls mdl fuel n s = Some (vs, s_n) /\
      List.length vs = n /\
      ((1 <= n)%nat -> SpiTopMore.read_released mdl SpiTop.ADDR_CTRL s_n) /\
      ((exists earlier v,
          vs = earlier ++ [v] /\
          Forall SpiTopFacts.go_set earlier /\ SpiTopFacts.go_clear v /\
          SpiTop.wait_xfer_done mdl fuel timeout s = Some (true, s_n))
       \/
       (n = Z.to_nat timeout /\ Forall SpiTopFacts.go_set vs /\
        SpiTop.wait_xfer_done mdl fuel timeout s
          = Some (false, SpiTop.printf mdl SpiTopFacts.timeout_line s_n))
       \/
       ((n < Z.to_nat timeout)%nat /\ Forall SpiTopFacts.go_set vs /\
        SpiTop.wb_read mdl fuel SpiTop.ADDR_CTRL s_n = None /\
        SpiTop.wait_xfer_done mdl fuel timeout s = None)).
Proof.
  intros mdl fuel timeout s Hfuel.
  destruct (SpiTopMore.wait_xfer_done_loop_cases mdl fuel fuel timeout s Hfuel)
    as (n & vs & s_n & Hn & Hp & Hcase).
  destruct (SpiTopMore.polls_released mdl fuel n s vs s_n Hp) as [Hlen Hrel].
  exists n, vs, s_n. repeat (split; [assumption|]). exact Hcase.
Qed.

Lemma wait_xfer_done_polls_go_witness :
  (Z.to_nat 5 < 8)%nat /\
  (exists (n : nat) (vs : list Z) (s_n : SpiTop.state (Models.spitop_busy 3)),
     (n <= Z.to_nat 5)%nat /\
     SpiTopFacts.polls (Models.spitop_busy 3) 8 n (SpiTop.initial_state _)
       = Some (vs, s_n) /\
     SpiTop.wait_xfer_done (Models.spitop_busy 3) 8 5 (SpiTop.initial_state _)
       = Some (true, s_n)) /\
  (exists (vs : list Z) (s_n : SpiTop.state Models.spitop_always_busy),
     SpiTopFacts.polls Models.spitop_always_busy 8 5 (SpiTop.initial_state _)
       = Some (vs, s_n) /\
     SpiTop.wait_xfer_done Models.spitop_always_busy 8 5 (SpiTop.initial_state _)
       = Some (false, SpiTop.printf _ SpiTopFacts.timeout_line s_n)) /\
  SpiTop.wait_xfer_done (Models.spitop_skewed 0 9) 8 5 (SpiTop.initial_state _)
    = None.
Proof.
  split; [simpl; lia|].
  assert (Hgo : option_map fst
            (SpiTop.wait_xfer_done (Models.spitop_busy 3) 8 5
               (SpiTop.initial_state _)) = Some true)
    by (vm_compute; reflexivity).
  assert (Hno : option_map fst
            (SpiTop.wait_xfer_done Models.spitop_always_busy 8 5
               (SpiTop.initial_state _)) = Some false)
    by (vm_compute; reflexivity).
  assert (Hblk : option_map fst
            (SpiTop.wait_xfer_done (Models.spitop_skewed 0 9) 8 5
               (SpiTop.initial_state _)) = None)
    by (vm_compute; reflexivity).
  split; [|split].
  - destruct (wait_xfer_done_polls_go (Models.spitop_busy 3) 8 5
                (SpiTop.initial_state _) ltac:(simpl; lia))
      as (n & vs & s_n & Hn & Hp & _ & _ & [Hc | [Hc | Hc]]).
    + destruct Hc as (_ & _ & _ & _ & _ & E). exists n, vs, s_n. auto.
    + destruct Hc as (_ & _ & E). rewrite E in Hgo. discriminate Hgo.
    + destruct Hc as (_ & _ & _ & E). rewrite E in Hgo. discriminate Hgo.
  - destruct (wait_xfer_done_polls_go Models.spitop_always_busy 8 5
                (SpiTop.initial_state _) ltac:(simpl; lia))
      as (n & vs & s_n & Hn & Hp & _ & _ & [Hc | [Hc | Hc]]).
    + destruct Hc as (_ & _ & _ & _ & _ & E). rewrite E in Hno. discriminate Hno.
    + destruct Hc as (-> & _ & E). exists vs, s_n. auto.
    + destruct Hc as (_ & _ & _ & E). rewrite E in Hno. discriminate Hno.
  - destruct (wait_xfer_done_polls_go (Models.spitop_skewed 0 9) 8 5
                (SpiTop.initial_state _) ltac:(simpl; lia))
      as (n & vs & s_n & Hn & Hp & _ & _ & [Hc | [Hc | Hc]]).
    + destruct Hc as (_ & _ & _ & _ & _ & E). rewrite E in Hblk. discriminate Hblk.
    + destruct Hc as (_ & _ & E). rewrite E in Hblk. discriminate Hblk.
    + destruct Hc as (_ & _ & _ & E). exact E.
Defined.

(** ** C9: the PSRAM storage *)

(** C9: the storage is addressed modulo its capacity of [2 ^ 20] bytes.
    For every address [a] and every [char] value [d], [psram_read(a)]
    after [psram_write(a, d)] yields [d]; the addresses [a] and
    [a + 2 ^ 20] name the same cell: reads agree, writes have the same
    effect, and a write at one is read back at the other. *)
Theorem psram_addressed_modulo_capacity :
  forall (mdl : QspiPsram.Model) (s : QspiPsram.state mdl) (a d : Z),
    -128 <= d <= 127 ->
    QspiPsram.psram_read mdl a (QspiPsram.psram_write mdl a d s) = d /\
    QspiPsram.psram_read mdl (a + 2 ^ 20) s = QspiPsram.psram_read mdl a s /\
    QspiPsram.psram_write mdl (a + 2 ^ 20) d s = QspiPsram.psram_write mdl a d s /\
    QspiPsram.psram_read mdl (a + 2 ^ 20) (QspiPsram.psram_write mdl a d s) = d /\
    QspiPsram.psram_read mdl a (QspiPsram.psram_write mdl (a + 2 ^ 20) d s) = d.
Proof.
  intros mdl s a d Hd.
  assert (Hrw : forall b, QspiPsram.psram_read mdl b (QspiPsram.psram_write mdl b d s) = d).
  { intros b. rewrite QspiPsramFacts.psram_read_after_write.
    apply QspiPsramFacts.to_char_in_range. exact Hd. }
  assert (Hr : forall t, QspiPsram.psram_read mdl (a + 2 ^ 20) t
                         = QspiPsram.psram_read mdl a t).
  { intros t. unfold QspiPsram.psram_read.
    rewrite QspiPsramFacts.psram_alias_index. reflexivity. }
  assert (Hw : QspiPsram.psram_write mdl (a + 2 ^ 20) d s
               = QspiPsram.psram_write mdl a d s).
  { unfold QspiPsram.psram_write.
    rewrite QspiPsramFacts.psram_alias_index. reflexivity. }
  split; [apply Hrw|]. split; [apply Hr|]. split; [exact Hw|].
  split; [rewrite Hr; apply Hrw | rewrite Hw; apply Hrw].
Qed.

Lemma psram_addressed_modulo_capacity_witness :
  (-128 <= -86 <= 127) /\
  QspiPsram.psram_read Models.qspi_ideal 0x100
    (QspiPsram.psram_write Models.qspi_ideal (0x100 + 2 ^ 20) (-86)
       (QspiPsram.initial_state _)) = -86.
Proof.
  split; [lia|].
  exact (proj2 (proj2 (proj2 (proj2
           (psram_addressed_modulo_capacity Models.qspi_ideal
              (QspiPsram.initial_state _) 0x100 (-86) ltac:(lia)))))).
Defined.


(** ** C2: the three phases of a handshake transfer *)




(** ** C3: the one-edge grace period of the QSPI variant *)

(** C3: in [sim_qspi_psram.cpp], when the device raises [pready] after [n]
    wait states (within the ceiling; a write and a read each with its own
    [n], and each stated on its own), [apb_write] and [apb_read] run one
    setup edge, [n + 1] access edges of which the last is the first to
    leave [pready] nonzero, then exactly one more edge on which the trace
    still shows [psel = 1] and [penable = 1], and only then lower [psel]
    and [penable] and run the idle edge.  The read data is the [prdata]
    of the state in which [pready] was seen. *)
Theorem qspi_grace_edge :
  (forall (mdl : QspiPsram.Model)
          (fuel n : nat)
          (addr data strb : Z)
          (s : QspiPsram.state mdl)
          (tr : list (QspiPsram.sample mdl)),
     let entry_w :=
       QspiPsramFacts.access_entry mdl
         (QspiPsramFacts.write_setup mdl addr data strb) s in
     let ready_w :=
       repeat_stmt (S n) (QspiPsram.tick mdl) entry_w in
     QspiPsram.tfp s = Some tr ->
     (n < fuel)%nat ->
     Z.of_nat (S n) <= QspiPsram.MAX_CYCLES ->
     (forall j, (1 <= j <= n)%nat ->
        QspiPsram.pready mdl
          (QspiPsram.dut_model (repeat_stmt j (QspiPsram.tick mdl) entry_w)) = 0) ->
     QspiPsram.pready mdl (QspiPsram.dut_model ready_w) <> 0 ->
     exists s' ph_setup ph_access ph_hold ph_idle,
       QspiPsram.apb_write mdl fuel addr data strb s = Some (tt, s') /\
       s' = QspiPsram.tick mdl
              (QspiPsramFacts.write_idle mdl (QspiPsram.tick mdl ready_w)) /\
       QspiPsram.tfp s'
         = Some (tr ++ ph_setup ++ ph_access ++ ph_hold ++ ph_idle) /\
       List.length ph_setup = 2%nat /\
       Forall (QspiPsramFacts.bus_is mdl 1 0) ph_setup /\
       List.length ph_access = (2 * S n)%nat /\
       Forall (QspiPsramFacts.bus_is mdl 1 1) ph_access /\
       List.length ph_hold = 2%nat /\
       Forall (QspiPsramFacts.bus_is mdl 1 1) ph_hold /\
       List.length ph_idle = 2%nat /\
       Forall (QspiPsramFacts.bus_is mdl 0 0) ph_idle /\
       QspiPsram.psel (QspiPsram.dut_pins s') = 0 /\
       QspiPsram.penable (QspiPsram.dut_pins s') = 0)
  /\
  (forall (mdl : QspiPsram.Model)
          (fuel n : nat)
          (addr : Z)
          (s : QspiPsram.state mdl)
          (tr : list (QspiPsram.sample mdl)),
     let entry_r :=
       QspiPsramFacts.access_entry mdl (QspiPsramFacts.read_setup mdl addr) s in
     let ready_r :=
       repeat_stmt (S n) (QspiPsram.tick mdl) entry_r in
     QspiPsram.tfp s = Some tr ->
     (n < fuel)%nat ->
     Z.of_nat (S n) <= QspiPsram.MAX_CYCLES ->
     (forall j, (1 <= j <= n)%nat ->
        QspiPsram.pready mdl
          (QspiPsram.dut_model (repeat_stmt j (QspiPsram.tick mdl) entry_r)) = 0) ->
     QspiPsram.pready mdl (QspiPsram.dut_model ready_r) <> 0 ->
     exists s' ph_setup ph_access ph_hold ph_idle,
       QspiPsram.apb_read mdl fuel addr s
         = Some (QspiPsram.prdata mdl (QspiPsram.dut_model ready_r), s') /\
       s' = QspiPsram.tick mdl
              (QspiPsramFacts.read_idle mdl (QspiPsram.tick mdl ready_r)) /\
       QspiPsram.tfp s'
         = Some (tr ++ ph_setup ++ ph_access ++ ph_hold ++ ph_idle) /\
       List.length ph_setup = 2%nat /\
       Forall (QspiPsramFacts.bus_is mdl 1 0) ph_setup /\
       List.length ph_access = (2 * S n)%nat /\
       Forall (QspiPsramFacts.bus_is mdl 1 1) ph_access /\
       List.length ph_hold = 2%nat /\
       Forall (QspiPsramFacts.bus_is mdl 1 1) ph_hold /\
       List.length ph_idle = 2%nat /\
       Forall (QspiPsramFacts.bus_is mdl 0 0) ph_idle /\
       QspiPsram.psel (QspiPsram.dut_pins s') = 0 /\
       QspiPsram.penable (QspiPsram.dut_pins s') = 0).
Proof.
  split.
  - intros mdl fuel n addr data strb s tr entry_w ready_w Htr Hfuel Hmax Hlow_w
      Hhigh_w.
    destruct (QspiPsramFacts.qspi_transfer_shape mdl
                (QspiPsramFacts.write_setup mdl addr data strb)
                (QspiPsramFacts.write_idle mdl) n fuel
                (QspiPsramFacts.write_timeout_line addr) s tr
                Htr eq_refl eq_refl (fun _ => eq_refl)
                (fun _ => conj eq_refl eq_refl) Hlow_w Hhigh_w Hmax Hfuel)
      as (Hwait & ps & pa & ph & pi & Hrest).
    fold entry_w in Hwait, Hrest. fold ready_w in Hwait, Hrest.
    exists (QspiPsram.tick mdl
              (QspiPsramFacts.write_idle mdl (QspiPsram.tick mdl ready_w))),
      ps, pa, ph, pi.
    split.
    { rewrite QspiPsramFacts.qspi_apb_write_unfold. fold entry_w. rewrite Hwait.
      reflexivity. }
    split; [reflexivity|exact Hrest].
  - intros mdl fuel n addr s tr entry_r ready_r Htr Hfuel Hmax Hlow_r Hhigh_r.
    destruct (QspiPsramFacts.qspi_transfer_shape mdl
                (QspiPsramFacts.read_setup mdl addr)
                (QspiPsramFacts.read_idle mdl) n fuel
                (QspiPsramFacts.read_timeout_line addr) s tr
                Htr eq_refl eq_refl (fun _ => eq_refl)
                (fun _ => conj eq_refl eq_refl) Hlow_r Hhigh_r Hmax Hfuel)
      as (Hwait & ps & pa & ph & pi & Hrest).
    fold entry_r in Hwait, Hrest. fold ready_r in Hwait, Hrest.
    exists (QspiPsram.tick mdl
              (QspiPsramFacts.read_idle mdl (QspiPsram.tick mdl ready_r))),
      ps, pa, ph, pi.
    split.
    { rewrite QspiPsramFacts.qspi_apb_read_unfold. fold entry_r. rewrite Hwait.
      reflexivity. }
    split; [reflexivity|exact Hrest].
Qed.

Lemma qspi_grace_edge_witness :
  QspiPsram.tfp (QspiPsram.initial_state (Models.qspi_skewed 1 2)) = Some [] /\
  (exists s' trace,
     QspiPsram.apb_write (Models.qspi_skewed 1 2) 3 0x400 0xDEADBEEF 0xF
       (QspiPsram.initial_state _) = Some (tt, s') /\
     QspiPsram.tfp s' = Some trace /\ List.length trace = 10%nat) /\
  (exists v s' trace,
     QspiPsram.apb_read (Models.qspi_skewed 1 2) 3 0x400
       (QspiPsram.initial_state _) = Some (v, s') /\
     QspiPsram.tfp s' = Some trace /\ List.length trace = 12%nat).
Proof.
  split; [reflexivity|].
  assert (Hlow_w : forall j, (1 <= j <= 1)%nat ->
    QspiPsram.pready (Models.qspi_skewed 1 2)
      (QspiPsram.dut_model
         (repeat_stmt j (QspiPsram.tick (Models.qspi_skewed 1 2))
            (QspiPsramFacts.access_entry _
               (QspiPsramFacts.write_setup _ 0x400 0xDEADBEEF 0xF)
               (QspiPsram.initial_state _)))) = 0).
  { intros j Hj. destruct j as [|[|j]]; try lia; vm_compute; reflexivity. }
  assert (Hlow_r : forall j, (1 <= j <= 2)%nat ->
    QspiPsram.pready (Models.qspi_skewed 1 2)
      (QspiPsram.dut_model
         (repeat_stmt j (QspiPsram.tick (Models.qspi_skewed 1 2))
            (QspiPsramFacts.access_entry _
               (QspiPsramFacts.read_setup _ 0x400)
               (QspiPsram.initial_state _)))) = 0).
  { intros j Hj. destruct j as [|[|[|j]]]; try lia; vm_compute; reflexivity. }
  pose proof qspi_grace_edge as [Hwrite Hread].
  destruct (Hwrite (Models.qspi_skewed 1 2) 3%nat 1%nat 0x400 0xDEADBEEF 0xF
              (QspiPsram.initial_state _) []
              eq_refl ltac:(lia) ltac:(vm_compute; discriminate)
              Hlow_w ltac:(vm_compute; discriminate))
    as (sw & a1 & a2 & a3 & a4 & Hw & _ & Htw & L1 & _ & L2 & _ & L3 & _ & L4 & _).
  destruct (Hread (Models.qspi_skewed 1 2) 3%nat 2%nat 0x400
              (QspiPsram.initial_state _) []
              eq_refl ltac:(lia) ltac:(vm_compute; discriminate)
              Hlow_r ltac:(vm_compute; discriminate))
    as (sr & b1 & b2 & b3 & b4 & Hr & _ & Htr & M1 & _ & M2 & _ & M3 & _ & M4 & _).
  split.
  - exists sw, (a1 ++ a2 ++ a3 ++ a4). split; [exact Hw|]. split; [exact Htw|].
    rewrite !length_app, L1, L2, L3, L4. reflexivity.
  - eexists _, sr, (b1 ++ b2 ++ b3 ++ b4). split; [exact Hr|]. split; [exact Htr|].
    rewrite !length_app, M1, M2, M3, M4. reflexivity.
Defined.


(** ** C1: the ceiling on the wait loop *)




(** ** C10: the time-out sentinel is also data *)

(** C10: [0xDEADBEEF], which [apb_read] returns when its wait loop goes
    through the ceiling, is also one of the words [main] writes and reads
    back.  There is a run in which the read is given up and a run in which
    it completes, on a device that holds that word, and both return
    [0xDEADBEEF]; so no function of the returned word tells whether the
    read completed. *)
Theorem timeout_sentinel_is_ambiguous :
  In 0xDEADBEEF QspiPsram.vals /\
  (let fuel_a := S (Z.to_nat QspiPsram.MAX_CYCLES) in
   let s_a := QspiPsram.initial_state Models.qspi_stuck in
   QspiPsramFacts.read_timed_out Models.qspi_stuck fuel_a 0x400 s_a = Some true /\
   QspiPsramFacts.read_value Models.qspi_stuck fuel_a 0x400 s_a = Some 0xDEADBEEF) /\
  (exists s_b,
     QspiPsram.apb_write Models.qspi_ideal 3 0x400 0xDEADBEEF 0xF
       (QspiPsram.initial_state Models.qspi_ideal) = Some (tt, s_b) /\
     QspiPsramFacts.read_timed_out Models.qspi_ideal 3 0x400 s_b = Some false /\
     QspiPsramFacts.read_value Models.qspi_ideal 3 0x400 s_b = Some 0xDEADBEEF) /\
  ~ (exists decode : Z -> bool,
       forall (mdl : QspiPsram.Model) (fuel : nat) (addr : Z)
              (s : QspiPsram.state mdl) (v : Z) (timed_out : bool),
         QspiPsramFacts.read_value mdl fuel addr s = Some v ->
         QspiPsramFacts.read_timed_out mdl fuel addr s = Some timed_out ->
         decode v = timed_out).
Proof.
  assert (Ha :
    QspiPsramFacts.read_timed_out Models.qspi_stuck
      (S (Z.to_nat QspiPsram.MAX_CYCLES)) 0x400
      (QspiPsram.initial_state Models.qspi_stuck) = Some true /\
    QspiPsramFacts.read_value Models.qspi_stuck
      (S (Z.to_nat QspiPsram.MAX_CYCLES)) 0x400
      (QspiPsram.initial_state Models.qspi_stuck) = Some 0xDEADBEEF).
  { destruct (QspiPsramFacts.qspi_apb_read_stuck Models.qspi_stuck
                (S (Z.to_nat QspiPsram.MAX_CYCLES)) 0x400
                (QspiPsram.initial_state _) (fun _ => eq_refl)
                (Nat.lt_succ_diag_r _)) as [Hw Hr].
    unfold QspiPsramFacts.read_timed_out, QspiPsramFacts.read_value.
    rewrite Hw, Hr. split; reflexivity. }
  assert (Hb :
    QspiPsram.apb_write Models.qspi_ideal 3 0x400 0xDEADBEEF 0xF
      (QspiPsram.initial_state Models.qspi_ideal)
      = Some (tt, Models.qspi_ideal_written) /\
    QspiPsramFacts.read_timed_out Models.qspi_ideal 3 0x400
      Models.qspi_ideal_written = Some false /\
    QspiPsramFacts.read_value Models.qspi_ideal 3 0x400
      Models.qspi_ideal_written = Some 0xDEADBEEF).
  { split; [|split; vm_compute; reflexivity].
    unfold Models.qspi_ideal_written.
    destruct (QspiPsram.apb_write Models.qspi_ideal 3 0x400 0xDEADBEEF 0xF
                (QspiPsram.initial_state Models.qspi_ideal))
      as [[[] s_b]|] eqn:Ew; [reflexivity|].
    exfalso. revert Ew. apply QspiPsramFacts.apb_write_ready; [|lia].
    intros m. discriminate. }
  split; [left; reflexivity|]. split; [exact Ha|]. split.
  - exists Models.qspi_ideal_written. exact Hb.
  - intros [decode Hdec].
    destruct Ha as [Ha1 Ha2]. destruct Hb as (_ & Hb1 & Hb2).
    pose proof (Hdec _ _ _ _ _ _ Ha2 Ha1) as Hx.
    pose proof (Hdec _ _ _ _ _ _ Hb2 Hb1) as Hy.
    rewrite Hx in Hy. discriminate.
Qed.


(** ** The request lines after a read that was given up *)



End Claims.

(** * Further properties *)

Section Further.

(** ** The reference bit reversal *)

(** X2: [bit_reverse] of [sim_bitrev_spi.cpp] maps a byte to a byte, puts
    bit [7 - i] of its argument at position [i], and is its own inverse. *)
Theorem bit_reverse_reverses_bits :
  forall b : Z,
    0 <= b < 256 ->
    0 <= BitrevSpi.bit_reverse b < 256 /\
    BitrevSpi.bit_reverse (BitrevSpi.bit_reverse b) = b /\
    (forall i, 0 <= i < 8 ->
       Z.testbit (BitrevSpi.bit_reverse b) i = Z.testbit b (7 - i)).
Proof.
  intros b Hb. pose proof (BitrevSpiMore.bit_reverse_byte b Hb) as H.
  unfold BitrevSpiMore.bit_reverse_ok in H. cbv zeta in H.
  apply andb_prop in H. destruct H as [H Hbits].
  apply andb_prop in H. destruct H as [H Hinv].
  apply andb_prop in H. destruct H as [Hlo Hhi].
  split; [lia|]. split; [lia|].
  intros i Hi.
  apply Bool.eqb_prop.
  refine (proj1 (forallb_forall _ _) Hbits i _).
  simpl. lia.
Qed.

Lemma bit_reverse_reverses_bits_witness :
  0 <= 0x53 < 256 /\
  BitrevSpi.bit_reverse 0x53 = 0xCA /\
  BitrevSpi.bit_reverse 0xCA = 0x53 /\
  Z.testbit (BitrevSpi.bit_reverse 0x53) 7 = Z.testbit 0x53 0.
Proof.
  split; [lia|]. split; [reflexivity|].
  destruct (bit_reverse_reverses_bits 0x53 ltac:(lia)) as (_ & Hinv & Hbit).
  split; [exact Hinv|]. exact (Hbit 7 ltac:(lia)).
Defined.

(** ** The verdict on one bit-reversal test case *)

(** X3: in [sim_bitrev_spi.cpp], [bitrev_transfer] hands back a byte and
    counts nothing; the check of a test case that sent the byte [tx] then
    counts one pass exactly when the byte read back is [bit_reverse tx],
    and one failure otherwise. *)
Theorem bitrev_case_verdict :
  forall (mdl : BitrevSpi.Model) (fuel : nat) (tx divider : Z) (name : string)
         (s : BitrevSpi.state mdl) (rx : Z) (s' : BitrevSpi.state mdl),
    0 <= tx < 256 ->
    BitrevSpi.bitrev_transfer mdl fuel tx divider s = Some (rx, s') ->
    let s'' := BitrevSpi.check mdl name (BitrevSpi.bit_reverse tx) rx 0xFF s' in
    0 <= rx < 256 /\
    BitrevSpi.test_pass s' = BitrevSpi.test_pass s /\
    BitrevSpi.test_fail s' = BitrevSpi.test_fail s /\
    (rx = BitrevSpi.bit_reverse tx ->
       BitrevSpi.test_pass s'' = BitrevSpi.test_pass s + 1 /\
       BitrevSpi.test_fail s'' = BitrevSpi.test_fail s) /\
    (rx <> BitrevSpi.bit_reverse tx ->
       BitrevSpi.test_pass s'' = BitrevSpi.test_pass s /\
       BitrevSpi.test_fail s'' = BitrevSpi.test_fail s + 1).
Proof.
  intros mdl fuel tx divider name s rx s' Htx Hrun s''.
  pose proof (BitrevSpiMore.bitrev_transfer_byte mdl fuel tx divider s rx s' Hrun)
    as Hrx.
  pose proof (BitrevSpiMore.bitrev_transfer_quiet mdl fuel tx divider s rx s' Hrun)
    as Hled.
  unfold BitrevSpiMore.ledger in Hled. injection Hled as Hp Hf _.
  assert (Hexp : 0 <= BitrevSpi.bit_reverse tx < 256).
  { exact (BitrevSpiMore.bit_reverse_range tx Htx). }
  assert (Hmask : forall v, 0 <= v < 256 -> Z.land v 0xFF = v).
  { intros v Hv. change 0xFF with (Z.ones 8). rewrite Z.land_ones by lia.
    apply Z.mod_small. lia. }
  split; [exact Hrx|]. split; [exact Hp|]. split; [exact Hf|].
  unfold s''. rewrite BitrevSpiFacts.bitrev_check_effect.
  cbn [BitrevSpi.test_pass BitrevSpi.test_fail].
  rewrite (Hmask rx Hrx), (Hmask _ Hexp), Hp, Hf.
  destruct (Z.eqb_spec rx (BitrevSpi.bit_reverse tx)); split; intros; try lia;
    try contradiction; auto.
Qed.

Lemma bitrev_case_verdict_witness :
  0 <= 0x53 < 256 /\
  exists rx s',
    BitrevSpi.bitrev_transfer Models.bitrev_echo 1 0x53 0
      (BitrevSpi.initial_state _) = Some (rx, s') /\
    rx <> BitrevSpi.bit_reverse 0x53 /\
    BitrevSpi.test_fail
      (BitrevSpi.check Models.bitrev_echo "bitrev(0x53)"
         (BitrevSpi.bit_reverse 0x53) rx 0xFF s') = 1.
Proof.
  split; [lia|].
  destruct (returned_with
              (BitrevSpi.bitrev_transfer Models.bitrev_echo 1 0x53 0
                 (BitrevSpi.initial_state _)) 16
              ltac:(vm_compute; reflexivity)) as [s' E].
  exists 16, s'. split; [exact E|]. split; [vm_compute; discriminate|].
  destruct (bitrev_case_verdict Models.bitrev_echo 1 0x53 0 "bitrev(0x53)"
              (BitrevSpi.initial_state _) 16 s' ltac:(lia) E)
    as (_ & _ & _ & _ & Hfail).
  destruct (Hfail ltac:(vm_compute; discriminate)) as [_ ->]. reflexivity.
Defined.

(** ** What [main] has counted when it returns *)

(** X4: when the [main] of [sim_bitrev_spi.cpp] returns, nine checks have
    been counted (the warm-up and the eight entries of [tests]), each as
    a pass or as a failure; the value returned is 0 exactly when none
    failed, that is when all nine passed, and 1 otherwise. *)
Theorem bitrev_main_verdict :
  forall (mdl : BitrevSpi.Model) (fuel : nat) (code : Z) (s : BitrevSpi.state mdl),
    BitrevSpi.main mdl fuel = Some (code, s) ->
    0 <= BitrevSpi.test_pass s /\ 0 <= BitrevSpi.test_fail s /\
    BitrevSpi.test_pass s + BitrevSpi.test_fail s
      = 1 + Z.of_nat (List.length BitrevSpi.tests) /\
    (code = 0 <-> BitrevSpi.test_fail s = 0) /\
    (code = 0 <-> BitrevSpi.test_pass s = 9) /\
    (code <> 0 -> code = 1).
Proof.
  intros mdl fuel code s Hrun.
  destruct (BitrevSpiMore.bitrev_main_counts mdl fuel (BitrevSpi.initial_state mdl)
              code s) as (-> & Hp & Hf & Hk).
  { unfold BitrevSpiMore.counted, BitrevSpi.initial_state. simpl. lia. }
  { exact Hrun. }
  change (1 + Z.of_nat (List.length BitrevSpi.tests)) with 9.
  unfold BitrevSpi.exit_status.
  destruct (Z.gtb_spec (BitrevSpi.test_fail s) 0); repeat split; intros; lia.
Qed.

Lemma bitrev_main_verdict_witness :
  exists s,
    BitrevSpi.main Models.bitrev_echo 1 = Some (1, s) /\
    BitrevSpi.test_pass s + BitrevSpi.test_fail s = 9 /\
    BitrevSpi.test_fail s <> 0.
Proof.
  destruct (returned_with (BitrevSpi.main Models.bitrev_echo 1) 1
              ltac:(vm_compute; reflexivity)) as [s E].
  exists s. split; [exact E|].
  destruct (bitrev_main_verdict Models.bitrev_echo 1 1 s E)
    as (_ & _ & Hk & Hz & _).
  split; [exact Hk|]. intros H0. apply Hz in H0. discriminate H0.
Defined.

(** X5: when the [main] of [sim_spi_top.cpp] returns, five checks have been
    counted, each as a pass or as a failure (a poll loop that timed out
    counts as neither); the value returned is 0 exactly when none failed,
    that is when all five passed, and 1 otherwise. *)
Theorem spi_top_main_verdict :
  forall (mdl : SpiTop.Model) (fuel : nat) (code : Z) (s : SpiTop.state mdl),
    SpiTop.main mdl fuel = Some (code, s) ->
    0 <= SpiTop.test_pass s /\ 0 <= SpiTop.test_fail s /\
    SpiTop.test_pass s + SpiTop.test_fail s = 5 /\
    (code = 0 <-> SpiTop.test_fail s = 0) /\
    (code = 0 <-> SpiTop.test_pass s = 5) /\
    (code <> 0 -> code = 1).
Proof.
  intros mdl fuel code s Hrun.
  destruct (SpiTopMore.spitop_main_counts mdl fuel (SpiTop.initial_state mdl)
              code s) as (-> & Hp & Hf & Hk).
  { unfold SpiTopMore.counted, SpiTop.initial_state. simpl. lia. }
  { exact Hrun. }
  unfold SpiTop.exit_status.
  destruct (Z.gtb_spec (SpiTop.test_fail s) 0); repeat split; intros; lia.
Qed.

Lemma spi_top_main_verdict_witness :
  exists s,
    SpiTop.main (Models.spitop_busy 2) 100 = Some (1, s) /\
    SpiTop.test_pass s + SpiTop.test_fail s = 5 /\
    SpiTop.test_fail s <> 0.
Proof.
  destruct (returned_with (SpiTop.main (Models.spitop_busy 2) 100) 1
              ltac:(vm_compute; reflexivity)) as [s E].
  exists s. split; [exact E|].
  destruct (spi_top_main_verdict (Models.spitop_busy 2) 100 1 s E)
    as (_ & _ & Hk & Hz & _).
  split; [exact Hk|]. intros H0. apply Hz in H0. discriminate H0.
Defined.

(** X6: when the [main] of [sim_chisel_spi.cpp] returns, five checks have
    been counted, and when the [main] of [sim_qspi_psram.cpp] returns, ten
    (a bus operation that timed out counts as neither pass nor failure);
    each returns 0 exactly when all of its checks passed. *)
Theorem apb_mains_count_every_check :
  forall (mc : ChiselSpi.Model) (fc : nat) (codec : Z) (sc : ChiselSpi.state mc)
         (mq : QspiPsram.Model) (fq : nat) (codeq : Z) (sq : QspiPsram.state mq),
    ChiselSpi.main mc fc = Some (codec, sc) ->
    QspiPsram.main mq fq = Some (codeq, sq) ->
    (0 <= ChiselSpi.test_pass sc /\ 0 <= ChiselSpi.test_fail sc /\
     ChiselSpi.test_pass sc + ChiselSpi.test_fail sc = 5 /\
     (codec = 0 <-> ChiselSpi.test_pass sc = 5)) /\
    (0 <= QspiPsram.test_pass sq /\ 0 <= QspiPsram.test_fail sq /\
     QspiPsram.test_pass sq + QspiPsram.test_fail sq = 10 /\
     (codeq = 0 <-> QspiPsram.test_pass sq = 10)).
Proof.
  intros mc fc codec sc mq fq codeq sq Hc Hq. split.
  - destruct (ChiselSpiMore.chisel_main_counts mc fc (ChiselSpi.initial_state mc)
                codec sc) as (-> & Hp & Hf & Hk).
    { unfold ChiselSpiMore.counted, ChiselSpi.initial_state. simpl. lia. }
    { exact Hc. }
    unfold ChiselSpi.exit_status.
    destruct (Z.gtb_spec (ChiselSpi.test_fail sc) 0); repeat split; intros; lia.
  - destruct (QspiPsramMore.qspi_main_counts mq fq (QspiPsram.initial_state mq)
                codeq sq) as (-> & Hp & Hf & Hk).
    { unfold QspiPsramMore.counted, QspiPsram.initial_state. simpl. lia. }
    { exact Hq. }
    unfold QspiPsram.exit_status.
    destruct (Z.gtb_spec (QspiPsram.test_fail sq) 0); repeat split; intros; lia.
Qed.

Lemma apb_mains_count_every_check_witness :
  exists sc sq,
    ChiselSpi.main Models.chisel_echo 1 = Some (1, sc) /\
    QspiPsram.main Models.qspi_ideal 1 = Some (0, sq) /\
    ChiselSpi.test_pass sc + ChiselSpi.test_fail sc = 5 /\
    QspiPsram.test_pass sq = 10.
Proof.
  destruct (returned_with (ChiselSpi.main Models.chisel_echo 1) 1
              ltac:(vm_compute; reflexivity)) as [sc Ec].
  destruct (returned_with (QspiPsram.main Models.qspi_ideal 1) 0
              ltac:(vm_compute; reflexivity)) as [sq Eq].
  exists sc, sq. split; [exact Ec|]. split; [exact Eq|].
  destruct (apb_mains_count_every_check _ _ _ _ _ _ _ _ Ec Eq)
    as [(_ & _ & Hk & _) (_ & _ & _ & Hz)].
  split; [exact Hk|]. apply Hz. reflexivity.
Defined.

(** ** The Wishbone cycle *)

(** X7: in [sim_spi_top.cpp], when the device acknowledges after [n] wait
    states (a write and a read each with its own [n], and each stated on
    its own), [wb_write] and [wb_read] run [n + 1] edges on which the trace
    shows cycle and strobe asserted with the address, byte select, write
    enable (and, for a write, the data) of the call, the last of them being
    the first edge after which the acknowledge reads nonzero; a read
    returns the data output of that state.  Then cycle and strobe (and
    write enable, for a write) are lowered and exactly one more edge runs;
    they are low on return, and the virtual clock has advanced by
    [2 * (n + 2)]. *)
Theorem wishbone_cycle_shape :
  (forall (mdl : SpiTop.Model)
          (fuel n : nat)
          (addr data : Z)
          (s : SpiTop.state mdl)
          (tr : list (SpiTop.sample mdl)),
     let req_w :=
       SpiTopMore.write_request mdl addr data s in
     let acked_w :=
       repeat_stmt (S n) (SpiTop.tick mdl) req_w in
     SpiTop.tfp s = Some tr ->
     (n < fuel)%nat ->
     0 <= SpiTop.sim_time s ->
     SpiTop.sim_time s + 2 * (Z.of_nat n + 2) < 2 ^ 64 ->
     (forall j, (1 <= j <= n)%nat ->
        SpiTop.wb_ack_o mdl
          (SpiTop.dut_model (repeat_stmt j (SpiTop.tick mdl) req_w)) = 0) ->
     SpiTop.wb_ack_o mdl (SpiTop.dut_model acked_w) <> 0 ->
     exists s' ph_request ph_idle,
       SpiTop.wb_write mdl fuel addr data s = Some (tt, s') /\
       SpiTop.tfp s' = Some (tr ++ ph_request ++ ph_idle) /\
       List.length ph_request = (2 * S n)%nat /\
       Forall (fun x => SpiTopMore.wb_request mdl addr 1 x /\
                        SpiTop.wb_dat_i (SpiTop.seen_pins x) = data) ph_request /\
       List.length ph_idle = 2%nat /\
       Forall (fun x => SpiTopMore.wb_released mdl x /\
                        SpiTop.wb_we_i (SpiTop.seen_pins x) = 0) ph_idle /\
       SpiTop.wb_cyc_i (SpiTop.dut_pins s') = 0 /\
       SpiTop.wb_stb_i (SpiTop.dut_pins s') = 0 /\
       SpiTop.wb_we_i (SpiTop.dut_pins s') = 0 /\
       SpiTop.sim_time s' = SpiTop.sim_time s + 2 * (Z.of_nat n + 2))
  /\
  (forall (mdl : SpiTop.Model)
          (fuel n : nat)
          (addr : Z)
          (s : SpiTop.state mdl)
          (tr : list (SpiTop.sample mdl)),
     let req_r :=
       SpiTopMore.read_request mdl addr s in
     let acked_r :=
       repeat_stmt (S n) (SpiTop.tick mdl) req_r in
     SpiTop.tfp s = Some tr ->
     (n < fuel)%nat ->
     0 <= SpiTop.sim_time s ->
     SpiTop.sim_time s + 2 * (Z.of_nat n + 2) < 2 ^ 64 ->
     (forall j, (1 <= j <= n)%nat ->
        SpiTop.wb_ack_o mdl
          (SpiTop.dut_model (repeat_stmt j (SpiTop.tick mdl) req_r)) = 0) ->
     SpiTop.wb_ack_o mdl (SpiTop.dut_model acked_r) <> 0 ->
     exists s' ph_request ph_idle,
       SpiTop.wb_read mdl fuel addr s
         = Some (SpiTop.wb_dat_o mdl (SpiTop.dut_model acked_r), s') /\
       SpiTop.tfp s' = Some (tr ++ ph_request ++ ph_idle) /\
       List.length ph_request = (2 * S n)%nat /\
       Forall (SpiTopMore.wb_request mdl addr 0) ph_request /\
       List.length ph_idle = 2%nat /\
       Forall (SpiTopMore.wb_released mdl) ph_idle /\
       SpiTop.wb_cyc_i (SpiTop.dut_pins s') = 0 /\
       SpiTop.wb_stb_i (SpiTop.dut_pins s') = 0 /\
       SpiTop.sim_time s' = SpiTop.sim_time s + 2 * (Z.of_nat n + 2)).
Proof.
  split.
  - intros mdl fuel n addr data s tr req_w acked_w Htr Hfuel H0 H1 Hlow_w
      Hhigh_w.
    destruct (SpiTopMore.wb_cycle_shape mdl
                (SpiTopMore.write_request mdl addr data)
                (SpiTopMore.write_release mdl) n fuel s tr
                Htr eq_refl (fun _ => eq_refl) (fun _ => eq_refl)
                Hlow_w Hhigh_w Hfuel H0 H1)
      as (Hwait & pr & pi & Ht & Hl1 & Hf1 & Hl2 & Hf2 & Hfin & Hc).
    fold req_w in Hwait, Ht, Hf2, Hfin, Hc. fold acked_w in Hwait, Ht, Hf2, Hfin, Hc.
    exists (SpiTop.tick mdl (SpiTopMore.write_release mdl acked_w)), pr, pi.
    split.
    { rewrite SpiTopMore.wb_write_unfold. fold req_w. rewrite Hwait. reflexivity. }
    split; [exact Ht|]. split; [exact Hl1|]. split.
    { eapply Forall_impl; [|exact Hf1]. intros x Hx.
      exact (SpiTopMore.write_request_fields mdl addr data s x Hx). }
    split; [exact Hl2|]. split.
    { eapply Forall_impl; [|exact Hf2]. intros x Hx.
      destruct (SpiTopMore.write_release_fields mdl _ _ Hx) as (Hcy & Hst & Hwe).
      unfold SpiTopMore.wb_released. auto. }
    destruct (SpiTopMore.write_release_fields mdl _ _ Hfin) as (Hcy & Hst & Hwe).
    split; [exact Hcy|]. split; [exact Hst|]. split; [exact Hwe|exact Hc].
  - intros mdl fuel n addr s tr req_r acked_r Htr Hfuel H0 H1 Hlow_r Hhigh_r.
    destruct (SpiTopMore.wb_cycle_shape mdl
                (SpiTopMore.read_request mdl addr)
                (SpiTopMore.read_release mdl) n fuel s tr
                Htr eq_refl (fun _ => eq_refl) (fun _ => eq_refl)
                Hlow_r Hhigh_r Hfuel H0 H1)
      as (Hwait & pr & pi & Ht & Hl1 & Hf1 & Hl2 & Hf2 & Hfin & Hc).
    fold req_r in Hwait, Ht, Hf2, Hfin, Hc. fold acked_r in Hwait, Ht, Hf2, Hfin, Hc.
    exists (SpiTop.tick mdl (SpiTopMore.read_release mdl acked_r)), pr, pi.
    split.
    { rewrite SpiTopMore.wb_read_unfold. fold req_r. rewrite Hwait. reflexivity. }
    split; [exact Ht|]. split; [exact Hl1|]. split.
    { eapply Forall_impl; [|exact Hf1]. intros x Hx.
      exact (proj1 (SpiTopMore.read_request_fields mdl addr s x Hx)). }
    split; [exact Hl2|]. split.
    { eapply Forall_impl; [|exact Hf2]. intros x Hx.
      exact (SpiTopMore.read_release_fields mdl _ _ Hx). }
    destruct (SpiTopMore.read_release_fields mdl _ _ Hfin) as (Hcy & Hst).
    split; [exact Hcy|]. split; [exact Hst|exact Hc].
Qed.

Lemma wishbone_cycle_shape_witness :
  SpiTop.tfp (SpiTop.initial_state (Models.spitop_skewed 1 2)) = Some [] /\
  (exists s',
     SpiTop.wb_write (Models.spitop_skewed 1 2) 3 SpiTop.ADDR_DIVIDE 0x1234
       (SpiTop.initial_state _) = Some (tt, s') /\
     SpiTop.wb_cyc_i (SpiTop.dut_pins s') = 0 /\
     SpiTop.sim_time s' = 6) /\
  (exists v s',
     SpiTop.wb_read (Models.spitop_skewed 1 2) 3 SpiTop.ADDR_DIVIDE
       (SpiTop.initial_state _) = Some (v, s') /\
     SpiTop.wb_cyc_i (SpiTop.dut_pins s') = 0 /\
     SpiTop.sim_time s' = 8).
Proof.
  split; [reflexivity|].
  assert (Hlow_w : forall j, (1 <= j <= 1)%nat ->
    SpiTop.wb_ack_o (Models.spitop_skewed 1 2)
      (SpiTop.dut_model
         (repeat_stmt j (SpiTop.tick (Models.spitop_skewed 1 2))
            (SpiTopMore.write_request _ SpiTop.ADDR_DIVIDE 0x1234
               (SpiTop.initial_state _)))) = 0).
  { intros j Hj. destruct j as [|[|j]]; try lia; vm_compute; reflexivity. }
  assert (Hlow_r : forall j, (1 <= j <= 2)%nat ->
    SpiTop.wb_ack_o (Models.spitop_skewed 1 2)
      (SpiTop.dut_model
         (repeat_stmt j (SpiTop.tick (Models.spitop_skewed 1 2))
            (SpiTopMore.read_request _ SpiTop.ADDR_DIVIDE
               (SpiTop.initial_state _)))) = 0).
  { intros j Hj. destruct j as [|[|[|j]]]; try lia; vm_compute; reflexivity. }
  pose proof wishbone_cycle_shape as [Hwrite Hread].
  destruct (Hwrite (Models.spitop_skewed 1 2) 3%nat 1%nat
              SpiTop.ADDR_DIVIDE 0x1234 (SpiTop.initial_state _) []
              eq_refl ltac:(lia) ltac:(vm_compute; discriminate)
              ltac:(vm_compute; reflexivity)
              Hlow_w ltac:(vm_compute; discriminate))
    as (sw & _ & _ & Hw & _ & _ & _ & _ & _ & Hwc & _ & _ & Hwt).
  destruct (Hread (Models.spitop_skewed 1 2) 3%nat 2%nat
              SpiTop.ADDR_DIVIDE (SpiTop.initial_state _) []
              eq_refl ltac:(lia) ltac:(vm_compute; discriminate)
              ltac:(vm_compute; reflexivity)
              Hlow_r ltac:(vm_compute; discriminate))
    as (sr & _ & _ & Hr & _ & _ & _ & _ & _ & Hrc & _ & Hrt).
  split.
  - exists sw. split; [exact Hw|]. split; [exact Hwc|exact Hwt].
  - eexists _, sr. split; [exact Hr|]. split; [exact Hrc|exact Hrt].
Defined.

(** ** A transfer whose poll loop gives up *)



(** ** What the bus master leaves alone *)

(** X9: in [sim_chisel_spi.cpp], [do_reset], [apb_write], [apb_read] and
    [spi_transfer] neither count nor print: whenever one of them returns,
    [test_pass], [test_fail] and the standard output are what they were at
    its call.  Each of the four is stated on its own. *)
Theorem chisel_bus_master_is_silent :
  (forall (mdl : ChiselSpi.Model) (fuel : nat) (addr data : Z)
          (s sw : ChiselSpi.state mdl),
     ChiselSpi.apb_write mdl fuel addr data s = Some (tt, sw) ->
     ChiselSpiMore.ledger mdl sw = ChiselSpiMore.ledger mdl s) /\
  (forall (mdl : ChiselSpi.Model) (fuel : nat) (addr v : Z)
          (s sr : ChiselSpi.state mdl),
     ChiselSpi.apb_read mdl fuel addr s = Some (v, sr) ->
     ChiselSpiMore.ledger mdl sr = ChiselSpiMore.ledger mdl s) /\
  (forall (mdl : ChiselSpi.Model) (fuel : nat) (tx_data char_len divider rx : Z)
          (s st : ChiselSpi.state mdl),
     ChiselSpi.spi_transfer mdl fuel tx_data char_len divider s = Some (rx, st) ->
     ChiselSpiMore.ledger mdl st = ChiselSpiMore.ledger mdl s) /\
  (forall (mdl : ChiselSpi.Model) (s : ChiselSpi.state mdl),
     ChiselSpiMore.ledger mdl (ChiselSpi.do_reset mdl s) = ChiselSpiMore.ledger mdl s).
Proof.
  split.
  { intros mdl fuel addr data s sw Hw.
    exact (ChiselSpiMore.chisel_apb_write_ledger mdl _ _ _ _ _ _ Hw). }
  split.
  { intros mdl fuel addr v s sr Hr.
    exact (ChiselSpiMore.chisel_apb_read_ledger mdl _ _ _ _ _ Hr). }
  split.
  { intros mdl fuel tx len div rx s st Ht.
    exact (ChiselSpiMore.chisel_spi_transfer_ledger mdl _ _ _ _ _ _ _ Ht). }
  intros mdl s. apply ChiselSpiMore.chisel_do_reset_ledger.
Qed.

Lemma chisel_bus_master_is_silent_witness :
  (exists sw,
     ChiselSpi.apb_write (Models.chisel_skewed 0 5) 1 4 7 (ChiselSpi.initial_state _)
       = Some (tt, sw) /\
     ChiselSpi.apb_read (Models.chisel_skewed 0 5) 1 4 (ChiselSpi.initial_state _)
       = None /\
     ChiselSpi.stdout sw = [] /\ ChiselSpi.test_fail sw = 0) /\
  (exists sr st,
     ChiselSpi.apb_read Models.chisel_echo 1 4 (ChiselSpi.initial_state _)
       = Some (0, sr) /\
     ChiselSpi.spi_transfer Models.chisel_echo 1 0xA5 8 4 (ChiselSpi.initial_state _)
       = Some (9480, st) /\
     ChiselSpi.stdout sr = [] /\ ChiselSpi.stdout st = []) /\
  ChiselSpi.stdout
    (ChiselSpi.do_reset Models.chisel_stuck (ChiselSpi.initial_state _)) = [].
Proof.
  pose proof chisel_bus_master_is_silent as (Hwrite & Hread & Hxfer & Hreset).
  split; [|split].
  - destruct (returned_with
                (ChiselSpi.apb_write (Models.chisel_skewed 0 5) 1 4 7
                   (ChiselSpi.initial_state _))
                tt ltac:(vm_compute; reflexivity)) as [sw Ew].
    exists sw. split; [exact Ew|]. split; [vm_compute; reflexivity|].
    pose proof (Hwrite _ _ _ _ _ _ Ew) as Hw.
    unfold ChiselSpiMore.ledger in Hw. injection Hw as _ Hf Ho.
    split; assumption.
  - destruct (returned_with
                (ChiselSpi.apb_read Models.chisel_echo 1 4 (ChiselSpi.initial_state _))
                0 ltac:(vm_compute; reflexivity)) as [sr Er].
    destruct (returned_with
                (ChiselSpi.spi_transfer Models.chisel_echo 1 0xA5 8 4
                   (ChiselSpi.initial_state _))
                9480 ltac:(vm_compute; reflexivity)) as [st Et].
    exists sr, st. split; [exact Er|]. split; [exact Et|].
    pose proof (Hread _ _ _ _ _ _ Er) as Hr.
    pose proof (Hxfer _ _ _ _ _ _ _ _ Et) as Ht.
    unfold ChiselSpiMore.ledger in Hr, Ht.
    injection Hr as _ _ Hr. injection Ht as _ _ Ht. split; assumption.
  - pose proof (Hreset Models.chisel_stuck (ChiselSpi.initial_state _)) as Hd.
    exact (f_equal snd Hd).
Defined.

(** ** The request is held stable *)

(** X10: in [sim_chisel_spi.cpp], when the device raises [pready] after [n]
    wait states (a write and a read each with its own [n], and each stated
    on its own), every trace sample of the setup and access phases of
    [apb_write] shows [psel = 1], [pwrite = 1], [pstrb = 0xF] and the
    address and data of the call, on all [n + 2] edges; for [apb_read] they
    show [psel = 1], [pwrite = 0], [pstrb = 0xF], the address of the call
    and the write data bus as it was before the call.  Either transfer
    takes [n + 3] edges: the virtual clock advances by [2 * (n + 3)]. *)
Theorem apb_request_is_held :
  (forall (mdl : ChiselSpi.Model)
          (fuel n : nat)
          (addr data : Z)
          (s : ChiselSpi.state mdl)
          (tr : list (ChiselSpi.sample mdl)),
     let entry_w :=
       ChiselSpiFacts.access_entry mdl (ChiselSpiFacts.write_setup mdl addr data) s in
     ChiselSpi.tfp s = Some tr ->
     (n < fuel)%nat ->
     0 <= ChiselSpi.sim_time s ->
     ChiselSpi.sim_time s + 2 * (Z.of_nat n + 3) < 2 ^ 64 ->
     (forall j, (1 <= j <= n)%nat ->
        ChiselSpi.pready mdl
          (ChiselSpi.dut_model (repeat_stmt j (ChiselSpi.tick mdl) entry_w)) = 0) ->
     ChiselSpi.pready mdl
       (ChiselSpi.dut_model (repeat_stmt (S n) (ChiselSpi.tick mdl) entry_w)) <> 0 ->
     exists s' ph_request ph_idle,
       ChiselSpi.apb_write mdl fuel addr data s = Some (tt, s') /\
       ChiselSpi.tfp s' = Some (tr ++ ph_request ++ ph_idle) /\
       List.length ph_request = (2 * (n + 2))%nat /\
       Forall (fun x => ChiselSpiMore.request_of (ChiselSpi.seen_pins x)
                        = (1, 1, 0xF, addr, data)) ph_request /\
       List.length ph_idle = 2%nat /\
       ChiselSpi.sim_time s' = ChiselSpi.sim_time s + 2 * (Z.of_nat n + 3))
  /\
  (forall (mdl : ChiselSpi.Model)
          (fuel n : nat)
          (addr : Z)
          (s : ChiselSpi.state mdl)
          (tr : list (ChiselSpi.sample mdl)),
     let entry_r :=
       ChiselSpiFacts.access_entry mdl (ChiselSpiFacts.read_setup mdl addr) s in
     ChiselSpi.tfp s = Some tr ->
     (n < fuel)%nat ->
     0 <= ChiselSpi.sim_time s ->
     ChiselSpi.sim_time s + 2 * (Z.of_nat n + 3) < 2 ^ 64 ->
     (forall j, (1 <= j <= n)%nat ->
        ChiselSpi.pready mdl
          (ChiselSpi.dut_model (repeat_stmt j (ChiselSpi.tick mdl) entry_r)) = 0) ->
     ChiselSpi.pready mdl
       (ChiselSpi.dut_model (repeat_stmt (S n) (ChiselSpi.tick mdl) entry_r)) <> 0 ->
     exists v s' ph_request ph_idle,
       ChiselSpi.apb_read mdl fuel addr s = Some (v, s') /\
       ChiselSpi.tfp s' = Some (tr ++ ph_request ++ ph_idle) /\
       List.length ph_request = (2 * (n + 2))%nat /\
       Forall (fun x => ChiselSpiMore.request_of (ChiselSpi.seen_pins x)
                        = (1, 0, 0xF, addr, ChiselSpi.pwdata (ChiselSpi.dut_pins s)))
              ph_request /\
       List.length ph_idle = 2%nat /\
       ChiselSpi.sim_time s' = ChiselSpi.sim_time s + 2 * (Z.of_nat n + 3)).
Proof.
  split.
  - intros mdl fuel n addr data s tr entry_w Htr Hfuel H0 H1 Hlow_w Hhigh_w.
    pose proof (ChiselSpiFacts.chisel_wait_pready_first mdl n fuel entry_w
                  Hlow_w Hhigh_w Hfuel) as Hwait.
    destruct (ChiselSpiMore.chisel_request_held mdl
                (ChiselSpiFacts.write_setup mdl addr data)
                (ChiselSpiFacts.write_idle mdl) n s tr
                Htr eq_refl (fun _ => eq_refl) (fun _ => eq_refl) H0 H1)
      as (pr & pi & Ht & Hl1 & Hf1 & Hl2 & Hc).
    fold entry_w in Ht, Hc.
    eexists _, pr, pi. split.
    { rewrite ChiselSpiFacts.chisel_apb_write_unfold. fold entry_w.
      rewrite Hwait. reflexivity. }
    split; [exact Ht|]. split; [exact Hl1|]. split.
    { eapply Forall_impl; [|exact Hf1]. intros x Hx. rewrite Hx.
      apply ChiselSpiMore.chisel_write_setup_request. }
    split; [exact Hl2|exact Hc].
  - intros mdl fuel n addr s tr entry_r Htr Hfuel H0 H1 Hlow_r Hhigh_r.
    pose proof (ChiselSpiFacts.chisel_wait_pready_first mdl n fuel entry_r
                  Hlow_r Hhigh_r Hfuel) as Hwait.
    destruct (ChiselSpiMore.chisel_request_held mdl
                (ChiselSpiFacts.read_setup mdl addr)
                (ChiselSpiFacts.read_idle mdl) n s tr
                Htr eq_refl (fun _ => eq_refl) (fun _ => eq_refl) H0 H1)
      as (pr & pi & Ht & Hl1 & Hf1 & Hl2 & Hc).
    fold entry_r in Ht, Hc.
    eexists _, _, pr, pi. split.
    { rewrite ChiselSpiFacts.chisel_apb_read_unfold. fold entry_r.
      rewrite Hwait. reflexivity. }
    split; [exact Ht|]. split; [exact Hl1|]. split.
    { eapply Forall_impl; [|exact Hf1]. intros x Hx. rewrite Hx.
      apply ChiselSpiMore.chisel_read_setup_request. }
    split; [exact Hl2|exact Hc].
Qed.

Lemma apb_request_is_held_witness :
  ChiselSpi.tfp (ChiselSpi.initial_state (Models.chisel_skewed 1 2)) = Some [] /\
  (exists s',
     ChiselSpi.apb_write (Models.chisel_skewed 1 2) 3 ChiselSpi.ADDR_DIVIDE 0x1234
       (ChiselSpi.initial_state _) = Some (tt, s') /\
     ChiselSpi.sim_time s' = 8) /\
  (exists v s',
     ChiselSpi.apb_read (Models.chisel_skewed 1 2) 3 ChiselSpi.ADDR_DIVIDE
       (ChiselSpi.initial_state _) = Some (v, s') /\
     ChiselSpi.sim_time s' = 10).
Proof.
  split; [reflexivity|].
  assert (Hlow_w : forall j, (1 <= j <= 1)%nat ->
    ChiselSpi.pready (Models.chisel_skewed 1 2)
      (ChiselSpi.dut_model
         (repeat_stmt j (ChiselSpi.tick (Models.chisel_skewed 1 2))
            (ChiselSpiFacts.access_entry _
               (ChiselSpiFacts.write_setup _ ChiselSpi.ADDR_DIVIDE 0x1234)
               (ChiselSpi.initial_state _)))) = 0).
  { intros j Hj. destruct j as [|[|j]]; try lia; vm_compute; reflexivity. }
  assert (Hlow_r : forall j, (1 <= j <= 2)%nat ->
    ChiselSpi.pready (Models.chisel_skewed 1 2)
      (ChiselSpi.dut_model
         (repeat_stmt j (ChiselSpi.tick (Models.chisel_skewed 1 2))
            (ChiselSpiFacts.access_entry _
               (ChiselSpiFacts.read_setup _ ChiselSpi.ADDR_DIVIDE)
               (ChiselSpi.initial_state _)))) = 0).
  { intros j Hj. destruct j as [|[|[|j]]]; try lia; vm_compute; reflexivity. }
  pose proof apb_request_is_held as [Hwrite Hread].
  destruct (Hwrite (Models.chisel_skewed 1 2) 3%nat 1%nat
              ChiselSpi.ADDR_DIVIDE 0x1234 (ChiselSpi.initial_state _) []
              eq_refl ltac:(lia) ltac:(vm_compute; discriminate)
              ltac:(vm_compute; reflexivity)
              Hlow_w ltac:(vm_compute; discriminate))
    as (sw & _ & _ & Hw & _ & _ & _ & _ & Hwt).
  destruct (Hread (Models.chisel_skewed 1 2) 3%nat 2%nat
              ChiselSpi.ADDR_DIVIDE (ChiselSpi.initial_state _) []
              eq_refl ltac:(lia) ltac:(vm_compute; discriminate)
              ltac:(vm_compute; reflexivity)
              Hlow_r ltac:(vm_compute; discriminate))
    as (v & sr & _ & _ & Hr & _ & _ & _ & _ & Hrt).
  split.
  - exists sw. split; [exact Hw|exact Hwt].
  - exists v, sr. split; [exact Hr|exact Hrt].
Defined.

(** X11: in [sim_qspi_psram.cpp], when the device raises [pready] after
    [n] wait states (within the ceiling; a write and a read each with its
    own [n], and each stated on its own), every trace sample of the setup,
    access and hold phases of [apb_write] shows [psel = 1], [pwrite = 1]
    and the address, data and byte enables of the call, on all [n + 3]
    edges; for [apb_read] they show [psel = 1], [pwrite = 0],
    [pstrb = 0xF], the address of the call and the write data bus as it
    was before the call.  Either transfer takes [n + 4] edges: the virtual
    clock advances by [2 * (n + 4)]. *)
Theorem qspi_request_is_held :
  (forall (mdl : QspiPsram.Model)
          (fuel n : nat)
          (addr data strb : Z)
          (s : QspiPsram.state mdl)
          (tr : list (QspiPsram.sample mdl)),
     let entry_w :=
       QspiPsramFacts.access_entry mdl
         (QspiPsramFacts.write_setup mdl addr data strb) s in
     QspiPsram.tfp s = Some tr ->
     (n < fuel)%nat ->
     Z.of_nat (S n) <= QspiPsram.MAX_CYCLES ->
     0 <= QspiPsram.sim_time s ->
     QspiPsram.sim_time s + 2 * (Z.of_nat n + 4) < 2 ^ 64 ->
     (forall j, (1 <= j <= n)%nat ->
        QspiPsram.pready mdl
          (QspiPsram.dut_model (repeat_stmt j (QspiPsram.tick mdl) entry_w)) = 0) ->
     QspiPsram.pready mdl
       (QspiPsram.dut_model (repeat_stmt (S n) (QspiPsram.tick mdl) entry_w)) <> 0 ->
     exists s' ph_request ph_idle,
       QspiPsram.apb_write mdl fuel addr data strb s = Some (tt, s') /\
       QspiPsram.tfp s' = Some (tr ++ ph_request ++ ph_idle) /\
       List.length ph_request = (2 * (n + 3))%nat /\
       Forall (fun x => QspiPsramMore.request_of (QspiPsram.seen_pins x)
                        = (1, 1, strb, addr, data)) ph_request /\
       List.length ph_idle = 2%nat /\
       QspiPsram.sim_time s' = QspiPsram.sim_time s + 2 * (Z.of_nat n + 4))
  /\
  (forall (mdl : QspiPsram.Model)
          (fuel n : nat)
          (addr : Z)
          (s : QspiPsram.state mdl)
          (tr : list (QspiPsram.sample mdl)),
     let entry_r :=
       QspiPsramFacts.access_entry mdl (QspiPsramFacts.read_setup mdl addr) s in
     QspiPsram.tfp s = Some tr ->
     (n < fuel)%nat ->
     Z.of_nat (S n) <= QspiPsram.MAX_CYCLES ->
     0 <= QspiPsram.sim_time s ->
     QspiPsram.sim_time s + 2 * (Z.of_nat n + 4) < 2 ^ 64 ->
     (forall j, (1 <= j <= n)%nat ->
        QspiPsram.pready mdl
          (QspiPsram.dut_model (repeat_stmt j (QspiPsram.tick mdl) entry_r)) = 0) ->
     QspiPsram.pready mdl
       (QspiPsram.dut_model (repeat_stmt (S n) (QspiPsram.tick mdl) entry_r)) <> 0 ->
     exists v s' ph_request ph_idle,
       QspiPsram.apb_read mdl fuel addr s = Some (v, s') /\
       QspiPsram.tfp s' = Some (tr ++ ph_request ++ ph_idle) /\
       List.length ph_request = (2 * (n + 3))%nat /\
       Forall (fun x => QspiPsramMore.request_of (QspiPsram.seen_pins x)
                        = (1, 0, 0xF, addr, QspiPsram.pwdata (QspiPsram.dut_pins s)))
              ph_request /\
       List.length ph_idle = 2%nat /\
       QspiPsram.sim_time s' = QspiPsram.sim_time s + 2 * (Z.of_nat n + 4)).
Proof.
  split.
  - intros mdl fuel n addr data strb s tr entry_w Htr Hfuel Hmax H0 H1 Hlow_w
      Hhigh_w.
    pose proof (QspiPsramFacts.qspi_wait_pready_first mdl n fuel
                  (QspiPsramFacts.write_timeout_line addr) 0 entry_w
                  Hlow_w Hhigh_w ltac:(lia) Hfuel) as Hwait.
    destruct (QspiPsramMore.qspi_request_held mdl
                (QspiPsramFacts.write_setup mdl addr data strb)
                (QspiPsramFacts.write_idle mdl) n s tr
                Htr eq_refl (fun _ => eq_refl) (fun _ => eq_refl) H0 H1)
      as (pr & pi & Ht & Hl1 & Hf1 & Hl2 & Hc).
    fold entry_w in Ht, Hc.
    eexists _, pr, pi. split.
    { rewrite QspiPsramFacts.qspi_apb_write_unfold. fold entry_w.
      rewrite Hwait. reflexivity. }
    split; [exact Ht|]. split; [exact Hl1|]. split.
    { eapply Forall_impl; [|exact Hf1]. intros x Hx. rewrite Hx.
      apply QspiPsramMore.qspi_write_setup_request. }
    split; [exact Hl2|exact Hc].
  - intros mdl fuel n addr s tr entry_r Htr Hfuel Hmax H0 H1 Hlow_r Hhigh_r.
    pose proof (QspiPsramFacts.qspi_wait_pready_first mdl n fuel
                  (QspiPsramFacts.read_timeout_line addr) 0 entry_r
                  Hlow_r Hhigh_r ltac:(lia) Hfuel) as Hwait.
    destruct (QspiPsramMore.qspi_request_held mdl
                (QspiPsramFacts.read_setup mdl addr)
                (QspiPsramFacts.read_idle mdl) n s tr
                Htr eq_refl (fun _ => eq_refl) (fun _ => eq_refl) H0 H1)
      as (pr & pi & Ht & Hl1 & Hf1 & Hl2 & Hc).
    fold entry_r in Ht, Hc.
    eexists _, _, pr, pi. split.
    { rewrite QspiPsramFacts.qspi_apb_read_unfold. fold entry_r.
      rewrite Hwait. reflexivity. }
    split; [exact Ht|]. split; [exact Hl1|]. split.
    { eapply Forall_impl; [|exact Hf1]. intros x Hx. rewrite Hx.
      apply QspiPsramMore.qspi_read_setup_request. }
    split; [exact Hl2|exact Hc].
Qed.

Lemma qspi_request_is_held_witness :
  QspiPsram.tfp (QspiPsram.initial_state (Models.qspi_skewed 1 2)) = Some [] /\
  (exists s',
     QspiPsram.apb_write (Models.qspi_skewed 1 2) 3 0x100 0x0000BB00 0x2
       (QspiPsram.initial_state _) = Some (tt, s') /\
     QspiPsram.sim_time s' = 10) /\
  (exists v s',
     QspiPsram.apb_read (Models.qspi_skewed 1 2) 3 0x100
       (QspiPsram.initial_state _) = Some (v, s') /\
     QspiPsram.sim_time s' = 12).
Proof.
  split; [reflexivity|].
  assert (Hlow_w : forall j, (1 <= j <= 1)%nat ->
    QspiPsram.pready (Models.qspi_skewed 1 2)
      (QspiPsram.dut_model
         (repeat_stmt j (QspiPsram.tick (Models.qspi_skewed 1 2))
            (QspiPsramFacts.access_entry _
               (QspiPsramFacts.write_setup _ 0x100 0x0000BB00 0x2)
               (QspiPsram.initial_state _)))) = 0).
  { intros j Hj. destruct j as [|[|j]]; try lia; vm_compute; reflexivity. }
  assert (Hlow_r : forall j, (1 <= j <= 2)%nat ->
    QspiPsram.pready (Models.qspi_skewed 1 2)
      (QspiPsram.dut_model
         (repeat_stmt j (QspiPsram.tick (Models.qspi_skewed 1 2))
            (QspiPsramFacts.access_entry _
               (QspiPsramFacts.read_setup _ 0x100)
               (QspiPsram.initial_state _)))) = 0).
  { intros j Hj. destruct j as [|[|[|j]]]; try lia; vm_compute; reflexivity. }
  pose proof qspi_request_is_held as [Hwrite Hread].
  destruct (Hwrite (Models.qspi_skewed 1 2) 3%nat 1%nat 0x100 0x0000BB00 0x2
              (QspiPsram.initial_state _) []
              eq_refl ltac:(lia) ltac:(vm_compute; discriminate)
              ltac:(vm_compute; discriminate) ltac:(vm_compute; reflexivity)
              Hlow_w ltac:(vm_compute; discriminate))
    as (sw & _ & _ & Hw & _ & _ & _ & _ & Hwt).
  destruct (Hread (Models.qspi_skewed 1 2) 3%nat 2%nat 0x100
              (QspiPsram.initial_state _) []
              eq_refl ltac:(lia) ltac:(vm_compute; discriminate)
              ltac:(vm_compute; discriminate) ltac:(vm_compute; reflexivity)
              Hlow_r ltac:(vm_compute; discriminate))
    as (v & sr & _ & _ & Hr & _ & _ & _ & _ & Hrt).
  split.
  - exists sw. split; [exact Hw|exact Hwt].
  - exists v, sr. split; [exact Hr|exact Hrt].
Defined.

(** ** The PSRAM storage *)

(** X12: in [sim_qspi_psram.cpp], [psram_write] changes one cell only: a
    read at an address that differs from the written one modulo [2^20]
    gives what it gave before; the pins, the trace, the virtual clock and
    the counters are untouched, and exactly one line, with the wrapped
    address and the stored byte, is printed.  After the [memset] of [main]
    every address reads 0. *)
Theorem psram_write_touches_one_cell :
  forall (mdl : QspiPsram.Model) (a d a' : Z) (s : QspiPsram.state mdl),
    a mod 2 ^ 20 <> a' mod 2 ^ 20 ->
    QspiPsram.psram_read mdl a' (QspiPsram.psram_write mdl a d s)
      = QspiPsram.psram_read mdl a' s /\
    QspiPsramFacts.frame mdl (QspiPsram.psram_write mdl a d s)
      = QspiPsramFacts.frame mdl s /\
    QspiPsram.dut_model (QspiPsram.psram_write mdl a d s) = QspiPsram.dut_model s /\
    QspiPsram.stdout (QspiPsram.psram_write mdl a d s)
      = QspiPsram.stdout s
          ++ [("write@0x" ++ Cxx.fmt_X 3 (a mod 2 ^ 20) ++ ": "
                 ++ Cxx.fmt_X 2 (d mod 2 ^ 8) ++ Cxx.newline)%string] /\
    QspiPsram.psram_read mdl a (QspiPsram.mem_clear mdl s) = 0 /\
    QspiPsram.psram_read mdl a' (QspiPsram.mem_clear mdl s) = 0.
Proof.
  intros mdl a d a' s Hne.
  split; [exact (QspiPsramMore.psram_write_other_cell mdl a d a' s Hne)|].
  split; [apply QspiPsramFacts.psram_write_frame|].
  split; [reflexivity|].
  split; [apply QspiPsramMore.psram_write_line|].
  split; apply QspiPsramMore.psram_read_cleared.
Qed.

Lemma psram_write_touches_one_cell_witness :
  0x100 mod 2 ^ 20 <> 0x101 mod 2 ^ 20 /\
  QspiPsram.psram_read Models.qspi_stuck 0x101
    (QspiPsram.psram_write Models.qspi_stuck 0x100 0xAA
       (QspiPsram.initial_state _)) = 0 /\
  QspiPsram.stdout
    (QspiPsram.psram_write Models.qspi_stuck 0x100 0xAA (QspiPsram.initial_state _))
    = [("write@0x100: AA" ++ Cxx.newline)%string].
Proof.
  split; [vm_compute; discriminate|].
  destruct (psram_write_touches_one_cell Models.qspi_stuck 0x100 0xAA 0x101
              (QspiPsram.initial_state _) ltac:(vm_compute; discriminate))
    as (Hr & _ & _ & Ho & _).
  split.
  - rewrite Hr. reflexivity.
  - rewrite Ho. reflexivity.
Defined.

(** ** Reset of the two APB testbenches *)

(** X13: [do_reset] of [sim_chisel_spi.cpp] and of [sim_qspi_psram.cpp] run
    ten edges on which the trace shows reset high and the select, enable,
    direction, byte-enable, address and data inputs at zero, then exactly
    one edge on which reset is low and those inputs are still zero; on
    return they are all zero and the virtual clock has advanced by 22.
    The [eval()] that the QSPI variant makes before raising reset leaves
    no sample in the trace. *)
Theorem apb_reset_sequence :
  forall (mc : ChiselSpi.Model) (sc : ChiselSpi.state mc)
         (trc : list (ChiselSpi.sample mc))
         (mq : QspiPsram.Model) (sq : QspiPsram.state mq)
         (trq : list (QspiPsram.sample mq)),
    ChiselSpi.tfp sc = Some trc ->
    0 <= ChiselSpi.sim_time sc -> ChiselSpi.sim_time sc + 22 < 2 ^ 64 ->
    QspiPsram.tfp sq = Some trq ->
    0 <= QspiPsram.sim_time sq -> QspiPsram.sim_time sq + 22 < 2 ^ 64 ->
    (exists held released,
       ChiselSpi.tfp (ChiselSpi.do_reset mc sc) = Some (trc ++ held ++ released) /\
       List.length held = 20%nat /\
       Forall (ChiselSpiMore.quiet_bus mc 1) held /\
       List.length released = 2%nat /\
       Forall (ChiselSpiMore.quiet_bus mc 0) released /\
       (let p := ChiselSpi.dut_pins (ChiselSpi.do_reset mc sc) in
        ChiselSpi.reset p = 0 /\ ChiselSpi.psel p = 0 /\ ChiselSpi.penable p = 0 /\
        ChiselSpi.pwrite p = 0 /\ ChiselSpi.pstrb p = 0 /\ ChiselSpi.paddr p = 0 /\
        ChiselSpi.pwdata p = 0) /\
       ChiselSpi.sim_time (ChiselSpi.do_reset mc sc) = ChiselSpi.sim_time sc + 22)
    /\
    (exists held released,
       QspiPsram.tfp (QspiPsram.do_reset mq sq) = Some (trq ++ held ++ released) /\
       List.length held = 20%nat /\
       Forall (QspiPsramMore.quiet_bus mq 1) held /\
       List.length released = 2%nat /\
       Forall (QspiPsramMore.quiet_bus mq 0) released /\
       (let p := QspiPsram.dut_pins (QspiPsram.do_reset mq sq) in
        QspiPsram.reset p = 0 /\ QspiPsram.psel p = 0 /\ QspiPsram.penable p = 0 /\
        QspiPsram.pwrite p = 0 /\ QspiPsram.pstrb p = 0 /\ QspiPsram.paddr p = 0 /\
        QspiPsram.pwdata p = 0) /\
       QspiPsram.sim_time (QspiPsram.do_reset mq sq) = QspiPsram.sim_time sq + 22).
Proof.
  intros mc sc trc mq sq trq Hc Hc0 Hc1 Hq Hq0 Hq1. split.
  - destruct (ChiselSpiMore.chisel_do_reset_shape mc sc trc Hc Hc0 Hc1)
      as (held & released & Ht & Hl1 & Hq1' & Hl2 & Hq2 & Hfin & Htime).
    exists held, released. repeat (split; [assumption|]).
    split; [|exact Htime].
    cbv zeta. apply ChiselSpiFacts.chisel_same_bus_fields in Hfin. exact Hfin.
  - destruct (QspiPsramMore.qspi_do_reset_shape mq sq trq Hq Hq0 Hq1)
      as (held & released & Ht & Hl1 & Hq1' & Hl2 & Hq2 & Hfin & Htime).
    exists held, released. repeat (split; [assumption|]).
    split; [|exact Htime].
    cbv zeta. apply QspiPsramFacts.qspi_same_bus_fields in Hfin. exact Hfin.
Qed.

Lemma apb_reset_sequence_witness :
  (ChiselSpi.tfp (ChiselSpi.initial_state Models.chisel_echo) = Some [] /\
   QspiPsram.tfp (QspiPsram.initial_state Models.qspi_ideal) = Some []) /\
  ChiselSpi.sim_time
    (ChiselSpi.do_reset Models.chisel_echo (ChiselSpi.initial_state _)) = 22 /\
  QspiPsram.sim_time
    (QspiPsram.do_reset Models.qspi_ideal (QspiPsram.initial_state _)) = 22.
Proof.
  split; [split; reflexivity|].
  destruct (apb_reset_sequence
              Models.chisel_echo (ChiselSpi.initial_state _) []
              Models.qspi_ideal (QspiPsram.initial_state _) []
              eq_refl ltac:(vm_compute; discriminate) ltac:(vm_compute; reflexivity)
              eq_refl ltac:(vm_compute; discriminate) ltac:(vm_compute; reflexivity))
    as [(hc & rc & _ & _ & _ & _ & _ & _ & Hct)
        (hq & rq & _ & _ & _ & _ & _ & _ & Hqt)].
  split; [exact Hct|exact Hqt].
Defined.

(** ** Time stamps of the trace *)

(** X14: when any of the four [main]s returns, the trace sink is attached,
    the virtual clock equals the number of samples dumped, and the sample
    of index [i] carries the time stamp [i] (both taken as [uint64_t]):
    every [tick], wherever it is called from, dumps two samples with
    consecutive stamps, and nothing else moves the clock or the trace. *)
Theorem trace_is_stamped_by_sample_index :
  forall (mc : ChiselSpi.Model) (fc : nat) (codec : Z) (sc : ChiselSpi.state mc)
         (mb : BitrevSpi.Model) (fb : nat) (codeb : Z) (sb : BitrevSpi.state mb)
         (mw : SpiTop.Model) (fw : nat) (codew : Z) (sw : SpiTop.state mw)
         (mq : QspiPsram.Model) (fq : nat) (codeq : Z) (sq : QspiPsram.state mq),
    ChiselSpi.main mc fc = Some (codec, sc) ->
    BitrevSpi.main mb fb = Some (codeb, sb) ->
    SpiTop.main mw fw = Some (codew, sw) ->
    QspiPsram.main mq fq = Some (codeq, sq) ->
    (exists tr,
       ChiselSpi.tfp sc = Some tr /\
       ChiselSpi.sim_time sc = stamp (List.length tr) /\
       List.map ChiselSpi.at_time tr = List.map stamp (List.seq 0 (List.length tr))) /\
    (exists tr,
       BitrevSpi.tfp sb = Some tr /\
       BitrevSpi.sim_time sb = stamp (List.length tr) /\
       List.map BitrevSpi.at_time tr = List.map stamp (List.seq 0 (List.length tr))) /\
    (exists tr,
       SpiTop.tfp sw = Some tr /\
       SpiTop.sim_time sw = stamp (List.length tr) /\
       List.map SpiTop.at_time tr = List.map stamp (List.seq 0 (List.length tr))) /\
    (exists tr,
       QspiPsram.tfp sq = Some tr /\
       QspiPsram.sim_time sq = stamp (List.length tr) /\
       List.map QspiPsram.at_time tr = List.map stamp (List.seq 0 (List.length tr))).
Proof.
  intros mc fc codec sc mb fb codeb sb mw fw codew sw mq fq codeq sq Hc Hb Hw Hq.
  split; [exact (ChiselSpiMore.chisel_main_stamped mc fc codec sc Hc)|].
  split; [exact (BitrevSpiMore.bitrev_main_stamped mb fb codeb sb Hb)|].
  split; [exact (SpiTopMore.spitop_main_stamped mw fw codew sw Hw)|].
  exact (QspiPsramMore.qspi_main_stamped mq fq codeq sq Hq).
Qed.

Lemma trace_is_stamped_by_sample_index_witness :
  exists sc sb sw sq,
    ChiselSpi.main Models.chisel_echo 1 = Some (1, sc) /\
    BitrevSpi.main Models.bitrev_echo 1 = Some (1, sb) /\
    SpiTop.main (Models.spitop_busy 2) 100 = Some (1, sw) /\
    QspiPsram.main Models.qspi_ideal 1 = Some (0, sq) /\
    (exists tr, ChiselSpi.tfp sc = Some tr /\
                ChiselSpi.sim_time sc = stamp (List.length tr)) /\
    (exists tr, QspiPsram.tfp sq = Some tr /\
                QspiPsram.sim_time sq = stamp (List.length tr)).
Proof.
  destruct (returned_with (ChiselSpi.main Models.chisel_echo 1) 1
              ltac:(vm_compute; reflexivity)) as [sc Ec].
  destruct (returned_with (BitrevSpi.main Models.bitrev_echo 1) 1
              ltac:(vm_compute; reflexivity)) as [sb Eb].
  destruct (returned_with (SpiTop.main (Models.spitop_busy 2) 100) 1
              ltac:(vm_compute; reflexivity)) as [sw Ew].
  destruct (returned_with (QspiPsram.main Models.qspi_ideal 1) 0
              ltac:(vm_compute; reflexivity)) as [sq Eq].
  exists sc, sb, sw, sq.
  destruct (trace_is_stamped_by_sample_index _ _ _ _ _ _ _ _ _ _ _ _ _ _ _ _
              Ec Eb Ew Eq)
    as ((trc & Hc1 & Hc2 & _) & _ & _ & (trq & Hq1 & Hq2 & _)).
  split; [exact Ec|]. split; [exact Eb|]. split; [exact Ew|]. split; [exact Eq|].
  split; [exists trc|exists trq]; split; assumption.
Defined.

(** ** [check] in the other two testbenches *)

(** X15: [check] of [sim_spi_top.cpp] masks both values, moves exactly one
    of the two counters by one according to equality of the masked values,
    prints one line and changes nothing else.  [check] of
    [sim_qspi_psram.cpp], which [main] always calls with the default mask
    [0xFFFFFFFF], then passes exactly when the two [uint32_t] words are
    equal, and leaves the PSRAM contents alone. *)
Theorem check_counts_once_elsewhere :
  forall (mw : SpiTop.Model) (sw : SpiTop.state mw)
         (mq : QspiPsram.Model) (sq : QspiPsram.state mq)
         (name : string) (expected actual mask : Z),
    0 <= expected < 2 ^ 32 ->
    0 <= actual < 2 ^ 32 ->
    (let s' := SpiTop.check mw name expected actual mask sw in
     (Z.land expected mask = Z.land actual mask ->
        SpiTop.test_pass s' = SpiTop.test_pass sw + 1 /\
        SpiTop.test_fail s' = SpiTop.test_fail sw) /\
     (Z.land expected mask <> Z.land actual mask ->
        SpiTop.test_pass s' = SpiTop.test_pass sw /\
        SpiTop.test_fail s' = SpiTop.test_fail sw + 1) /\
     SpiTop.stdout s' =
       SpiTop.stdout sw ++ [SpiTopMore.check_line name expected actual mask] /\
     SpiTop.dut_pins s' = SpiTop.dut_pins sw /\
     SpiTop.dut_model s' = SpiTop.dut_model sw /\
     SpiTop.tfp s' = SpiTop.tfp sw /\
     SpiTop.sim_time s' = SpiTop.sim_time sw)
    /\
    (let s' := QspiPsram.check mq name expected actual 0xFFFFFFFF sq in
     (expected = actual ->
        QspiPsram.test_pass s' = QspiPsram.test_pass sq + 1 /\
        QspiPsram.test_fail s' = QspiPsram.test_fail sq /\
        QspiPsram.stdout s' =
          QspiPsram.stdout sq
            ++ [("  PASS " ++ name ++ ": expected 0x" ++ Cxx.fmt_X 8 expected
                   ++ ", got 0x" ++ Cxx.fmt_X 8 actual ++ Cxx.newline)%string]) /\
     (expected <> actual ->
        QspiPsram.test_pass s' = QspiPsram.test_pass sq /\
        QspiPsram.test_fail s' = QspiPsram.test_fail sq + 1 /\
        QspiPsram.stdout s' =
          QspiPsram.stdout sq
            ++ [("  FAIL " ++ name ++ ": expected 0x" ++ Cxx.fmt_X 8 expected
                   ++ ", got 0x" ++ Cxx.fmt_X 8 actual ++ Cxx.newline)%string]) /\
     QspiPsram.psram_mem s' = QspiPsram.psram_mem sq /\
     QspiPsram.dut_pins s' = QspiPsram.dut_pins sq /\
     QspiPsram.dut_model s' = QspiPsram.dut_model sq /\
     QspiPsram.tfp s' = QspiPsram.tfp sq /\
     QspiPsram.sim_time s' = QspiPsram.sim_time sq).
Proof.
  intros mw sw mq sq name expected actual mask He Ha.
  split; cbv zeta.
  - rewrite SpiTopMore.spitop_check_state.
    cbn [SpiTop.test_pass SpiTop.test_fail SpiTop.stdout
         SpiTop.dut_pins SpiTop.dut_model SpiTop.tfp SpiTop.sim_time].
    destruct (Z.eqb_spec (Z.land actual mask) (Z.land expected mask)) as [E|E];
      repeat split; try reflexivity; try lia; intros; congruence.
  - assert (Hmask : forall v, 0 <= v < 2 ^ 32 -> Z.land v 0xFFFFFFFF = v).
    { intros v Hv. change 0xFFFFFFFF with (Z.ones 32).
      rewrite Z.land_ones by lia. apply Z.mod_small. exact Hv. }
    rewrite QspiPsramFacts.qspi_check_effect.
    unfold QspiPsramFacts.check_line.
    rewrite (Hmask _ He), (Hmask _ Ha).
    cbn [QspiPsram.test_pass QspiPsram.test_fail QspiPsram.stdout
         QspiPsram.psram_mem QspiPsram.dut_pins QspiPsram.dut_model
         QspiPsram.tfp QspiPsram.sim_time].
    destruct (Z.eqb_spec actual expected) as [E|E];
      repeat split; try reflexivity; try lia; intros; congruence.
Qed.

Lemma check_counts_once_elsewhere_witness :
  (0 <= 0xDDCCBBAA < 2 ^ 32 /\ 0 <= 0xDEADBEEF < 2 ^ 32) /\
  SpiTop.test_pass
    (SpiTop.check Models.spitop_stuck "SS" 0xDDCCBBAA 0xDEADBEAA 0xFF
       (SpiTop.initial_state _)) = 1 /\
  QspiPsram.stdout
    (QspiPsram.check Models.qspi_stuck "word write/read" 0xDDCCBBAA 0xDEADBEEF
       0xFFFFFFFF (QspiPsram.initial_state _))
    = ["  FAIL word write/read: expected 0xDDCCBBAA, got 0xDEADBEEF"
         ++ Cxx.newline]%string.
Proof.
  split; [split; split; vm_compute; congruence|].
  destruct (check_counts_once_elsewhere
              Models.spitop_stuck (SpiTop.initial_state _)
              Models.qspi_stuck (QspiPsram.initial_state _)
              "SS" 0xDDCCBBAA 0xDEADBEAA 0xFF
              ltac:(split; vm_compute; congruence)
              ltac:(split; vm_compute; congruence))
    as [(Hpass & _) _].
  destruct (check_counts_once_elsewhere
              Models.spitop_stuck (SpiTop.initial_state _)
              Models.qspi_stuck (QspiPsram.initial_state _)
              "word write/read" 0xDDCCBBAA 0xDEADBEEF 0xFF
              ltac:(split; vm_compute; congruence)
              ltac:(split; vm_compute; congruence))
    as [_ (_ & Hfail & _)].
  split.
  - cbv zeta in Hpass. destruct (Hpass ltac:(vm_compute; reflexivity)) as [-> _].
    reflexivity.
  - cbv zeta in Hfail.
    destruct (Hfail ltac:(vm_compute; discriminate)) as (_ & _ & ->).
    reflexivity.
Defined.

(** ** Ticks without a trace sink *)

(** X16: the virtual clock is stepped only inside [if (tfp)]: with no trace
    sink attached, any number of calls of [tick] leaves [sim_time] where it
    was and attaches no sink, in all four testbenches. *)
Theorem tick_without_sink_keeps_clock :
  forall (mc : ChiselSpi.Model) (sc : ChiselSpi.state mc)
         (mb : BitrevSpi.Model) (sb : BitrevSpi.state mb)
         (mw : SpiTop.Model) (sw : SpiTop.state mw)
         (mq : QspiPsram.Model) (sq : QspiPsram.state mq) (k : nat),
    ChiselSpi.tfp sc = None ->
    BitrevSpi.tfp sb = None ->
    SpiTop.tfp sw = None ->
    QspiPsram.tfp sq = None ->
    (ChiselSpi.tfp (repeat_stmt k (ChiselSpi.tick mc) sc) = None /\
     ChiselSpi.sim_time (repeat_stmt k (ChiselSpi.tick mc) sc)
       = ChiselSpi.sim_time sc) /\
    (BitrevSpi.tfp (repeat_stmt k (BitrevSpi.tick mb) sb) = None /\
     BitrevSpi.sim_time (repeat_stmt k (BitrevSpi.tick mb) sb)
       = BitrevSpi.sim_time sb) /\
    (SpiTop.tfp (repeat_stmt k (SpiTop.tick mw) sw) = None /\
     SpiTop.sim_time (repeat_stmt k (SpiTop.tick mw) sw) = SpiTop.sim_time sw) /\
    (QspiPsram.tfp (repeat_stmt k (QspiPsram.tick mq) sq) = None /\
     QspiPsram.sim_time (repeat_stmt k (QspiPsram.tick mq) sq)
       = QspiPsram.sim_time sq).
Proof.
  intros mc sc mb sb mw sw mq sq k Hc Hb Hw Hq.
  split; [exact (ChiselSpiMore.chisel_ticks_detached mc k sc Hc)|].
  split; [exact (BitrevSpiMore.bitrev_ticks_detached mb k sb Hb)|].
  split; [exact (SpiTopMore.spitop_ticks_detached mw k sw Hw)|].
  exact (QspiPsramMore.qspi_ticks_detached mq k sq Hq).
Qed.

Lemma tick_without_sink_keeps_clock_witness :
  ChiselSpi.sim_time
    (repeat_stmt 3 (ChiselSpi.tick Models.chisel_echo)
       (ChiselSpi.State Models.chisel_echo (ChiselSpi.Pins 0 0 0 0 0 0 0 0 0)
          0 None 7 0 0 [])) = 7 /\
  QspiPsram.sim_time
    (repeat_stmt 3 (QspiPsram.tick Models.qspi_ideal)
       (QspiPsram.State Models.qspi_ideal ∅ (QspiPsram.Pins 0 0 0 0 0 0 0 0)
          0 None 7 0 0 [])) = 7.
Proof.
  destruct (tick_without_sink_keeps_clock
              Models.chisel_echo
              (ChiselSpi.State Models.chisel_echo (ChiselSpi.Pins 0 0 0 0 0 0 0 0 0)
                 0 None 7 0 0 [])
              Models.bitrev_echo
              (BitrevSpi.State Models.bitrev_echo (BitrevSpi.Pins 0 0 0 0 0 0 0 0)
                 0 None 7 0 0 [])
              (Models.spitop_busy 0)
              (SpiTop.State (Models.spitop_busy 0) (SpiTop.Pins 0 0 0 0 0 0 0 0 0)
                 (0, 0) None 7 0 0 [])
              Models.qspi_ideal
              (QspiPsram.State Models.qspi_ideal ∅ (QspiPsram.Pins 0 0 0 0 0 0 0 0)
                 0 None 7 0 0 [])
              3 eq_refl eq_refl eq_refl eq_refl)
    as ((_ & Hc) & _ & _ & (_ & Hq)).
  split; [exact Hc|exact Hq].
Defined.

End Further.
